(** * MaestroDatabase: the MDB storage engine, terminal and GUI editions

    A shallow embedding of the two [MDB] classes of the repository
    ([maestrodatabase_terminal.py] and [maestrodatabase_gui.py]) and the
    properties of the engine that the specification states.

    Python objects are modelled as follows.
    - Record values are the JSON scalars: [None], [bool], [int], [float]
      and [str].  A float is a [spec_float] (sign, mantissa, exponent).
    - A [dict] is an insertion-ordered association list with string keys;
      Python's dicts keep their keys unique, which is the predicate
      [Py.wf_dict].
    - The records stored in a table are mutable dict objects: they live in
      a heap and a table is a list of heap locations, so that in-place
      updates and [deepcopy] are visible.  The [conditions] and
      [updates] of [update] are dict objects too (the GUI passes a row of
      the table itself as [conditions]); [select] and [delete] take
      keyword arguments, which Python collects in a fresh dict, so their
      conditions are values.  The engine never writes to a schema and
      never shares a row list, so both are plain values.
    - A file holds the document produced by [json.dump] and read back by
      [json.load], or the header and lines written by [csv.DictWriter];
      the textual rendering of JSON and CSV is not modelled.
    - Every [open(..., "w")], [os.remove] and [print] is recorded in an
      output trace, next to the resulting disk contents.
    - The modules [Gui] and [Terminal] are the two classes on a host
      where writing and removing files never fails; the modules [GuiIO]
      and [TerminalIO] are the same methods on a host where [open], the
      write and [os.remove] can fail.  Reading is the same in both: a
      read that fails raises before [load_table] assigns anything. *)

From Stdlib Require Import ZArith Ascii String List Bool Lia.
From Stdlib Require Import Floats.SpecFloat.
From stdpp Require Import base option list gmap strings.

Local Open Scope string_scope.
Local Open Scope list_scope.
Local Open Scope Z_scope.

(* ===================================================================== *)
(** ** Python values, types and dicts *)
(* ===================================================================== *)

Module Py.

(** The values a record can hold. *)
Inductive value :=
| VNone
| VBool (b : bool)
| VInt (n : Z)
| VFloat (x : spec_float)
| VStr (s : string).

(** The type objects used as schema kinds: [int], [float], [str], [bool]. *)
Inductive pytype := TInt | TFloat | TStr | TBool.

(** [t.__name__] *)
Definition type_name (t : pytype) : string :=
  match t with
  | TInt => "int"
  | TFloat => "float"
  | TStr => "str"
  | TBool => "bool"
  end.

(** [isinstance(v, t)]: [bool] is a subclass of [int]. *)
Definition isinstance (v : value) (t : pytype) : bool :=
  match v, t with
  | VBool _, TBool => true
  | VBool _, TInt => true
  | VInt _, TInt => true
  | VFloat _, TFloat => true
  | VStr _, TStr => true
  | _, _ => false
  end.

(** The integer behind an [int] or a [bool] ([True] is 1, [False] is 0). *)
Definition as_int (v : value) : option Z :=
  match v with
  | VBool b => Some (if b then 1 else 0)
  | VInt n => Some n
  | _ => None
  end.

(** Exact comparison of a float with an integer. *)
Definition float_eq_int (x : spec_float) (n : Z) : bool :=
  match x with
  | S754_zero _ => n =? 0
  | S754_finite s m e =>
      let sm := if s then Z.neg m else Z.pos m in
      if 0 <=? e then n =? sm * 2 ^ e else n * 2 ^ (- e) =? sm
  | _ => false
  end.

(** [a == b] on record values. *)
Definition py_eq (a b : value) : bool :=
  match a, b with
  | VNone, VNone => true
  | VStr s, VStr t => String.eqb s t
  | VFloat x, VFloat y => SFeqb x y
  | VFloat x, _ =>
      match as_int b with Some n => float_eq_int x n | None => false end
  | _, VFloat y =>
      match as_int a with Some n => float_eq_int y n | None => false end
  | _, _ =>
      match as_int a, as_int b with
      | Some n, Some m => n =? m
      | _, _ => false
      end
  end.

(** *** Dicts with string keys *)

Section Dict.
Context {V : Type}.

(** [d.get(k)] without a default, as an option. *)
Fixpoint dict_lookup (d : list (string * V)) (k : string) : option V :=
  match d with
  | [] => None
  | (k', v) :: d' => if String.eqb k' k then Some v else dict_lookup d' k
  end.

(** [k in d] *)
Definition dict_mem (d : list (string * V)) (k : string) : bool :=
  match dict_lookup d k with Some _ => true | None => false end.

(** [d[k] = v]: overwrite in place, or append a new key. *)
Fixpoint dict_set (d : list (string * V)) (k : string) (v : V)
  : list (string * V) :=
  match d with
  | [] => [(k, v)]
  | (k', v') :: d' =>
      if String.eqb k' k then (k', v) :: d' else (k', v') :: dict_set d' k v
  end.

(** Keys are unique. *)
Definition wf_dict (d : list (string * V)) : Prop := NoDup (map fst d).
End Dict.

Abbreviation record := (list (string * value)) (only parsing).

(** [record.get(k)]: [None] when the key is absent. *)
Definition get (r : record) (k : string) : value :=
  match dict_lookup r k with Some v => v | None => VNone end.

(** A schema maps a column to a type object or to [None]. *)
Abbreviation schema := (list (string * option pytype)) (only parsing).

End Py.

Export Py.

(* ===================================================================== *)
(** ** JSON documents: what [json.dump] writes and [json.load] returns *)
(* ===================================================================== *)

Module Json.

#[warnings="-register-all"] Inductive json :=
| JNull
| JBool (b : bool)
| JInt (n : Z)
| JFloat (x : spec_float)
| JStr (s : string)
| JArr (items : list json)
| JObj (members : list (string * json)).

Definition dump_value (v : value) : json :=
  match v with
  | VNone => JNull
  | VBool b => JBool b
  | VInt n => JInt n
  | VFloat x => JFloat x
  | VStr s => JStr s
  end.

(** The scalar a document stands for; arrays and objects are not record
    values of the model. *)
Definition load_value (j : json) : option value :=
  match j with
  | JNull => Some VNone
  | JBool b => Some (VBool b)
  | JInt n => Some (VInt n)
  | JFloat x => Some (VFloat x)
  | JStr s => Some (VStr s)
  | JArr _ | JObj _ => None
  end.

Definition dump_record (r : record) : json :=
  JObj (map (fun kv => (fst kv, dump_value (snd kv))) r).

Definition load_member (kj : string * json) : option (string * value) :=
  match load_value (snd kj) with
  | Some v => Some (fst kj, v)
  | None => None
  end.

Definition load_record (j : json) : option record :=
  match j with
  | JObj members => mapM load_member members
  | _ => None
  end.

Definition dump_rows (rows : list record) : json := JArr (map dump_record rows).

(** The items of a JSON array as a row sequence, when every item is an
    object of scalars. *)
Definition load_rows (items : list json) : option (list record) :=
  mapM load_record items.

End Json.

Export Json.

(* ===================================================================== *)
(** ** Engine state, heap, disk and output trace *)
(* ===================================================================== *)

Abbreviation loc := nat (only parsing).

(** A file is empty (opened for writing and never written), holds a
    JSON document, holds the beginning of the text of a JSON list or
    object whose writing failed (which is no JSON document), or holds
    what [csv.DictWriter] wrote: the header and the lines (the values of
    each row for the field names, in order), or the beginning of such a
    text when the writing failed.  The textual rendering of CSV is not
    modelled. *)
Inductive file :=
| Empty
| Json (doc : json)
| Partial
| Csv (fieldnames : list string) (lines : list (list value))
| PartialCsv.

(** The lines the terminal edition prints. *)
Inductive message :=
| MsgCreated (t : string) (sch : option schema)
| MsgLoaded (t : string)
| MsgDropped (t : string)
| MsgInserted (t : string) (r : record)
| MsgUpdated (count : Z) (t : string)
| MsgDeleted (count : Z) (t : string)
| MsgBackup (t path : string)
| MsgTxStarted (t : string)
| MsgTxRolledBack (t : string)
| MsgTxCommitted (t : string)
| MsgNoActiveTx (t : string)
| MsgNoData
| MsgExported (t path : string).

Inductive event :=
| EWrite (path : string) (content : file)
| ERemove (path : string)
| EPrint (m : message)
| EExport (path : string) (content : file).

(** The messages of [ValueError]. *)
Inductive value_error :=
| DoesNotExist (t : string)
| AlreadyExists (t : string)
| MissingColumn (col : string)
| DuplicateEntry (key : string) (v : value)
| UnsupportedFormat
| ExtraFields.

(** [TypeError col t] is the [TypeError] of [_validate_record];
    [TypeErrorMultipleValues] is the [TypeError] of a call that gives a
    parameter two values; [IOFailure] stands for what a failing [open],
    [json.dump], [csv] write or [os.remove] raises. *)
Inductive exn :=
| ValueError (m : value_error)
| TypeError (col : string) (t : pytype)
| FileNotFoundError (t : string)
| KeyError (key : string)
| AttributeError
| JSONDecodeError
| TypeErrorMultipleValues
| IOFailure.

(** The attributes of an [MDB] instance. *)
Record MDB := mkMDB {
  folder : string;
  extension : string;
  tables : gmap string (list loc);
  schemas : gmap string schema;
  _transactions : gmap string (list loc)
}.

(** The engine, the heap of the dict objects, the disk and the trace of
    what the program has written, removed and printed.  The disk maps
    path strings to file contents: it pictures the file system as long
    as different path strings name different files (no [.], [..],
    doubled slash or link in the paths used). *)
Record state := mkState {
  self : MDB;
  heap : list record;
  disk : gmap string file;
  out : list event
}.

(** [MDB(folder, extension)] on a given heap and disk. *)
Definition init (folder extension : string) (h : list record)
    (d : gmap string file) : state :=
  mkState (mkMDB folder extension ∅ ∅ ∅) h d [].

(** The dict object at a location. *)
Definition deref (h : list record) (l : loc) : record :=
  match h !! l with Some r => r | None => [] end.

(** The rows of a table as values. *)
Definition view (h : list record) (ls : list loc) : list record :=
  map (deref h) ls.

Definition upd_tables (f : gmap string (list loc) → gmap string (list loc))
    (s : state) : state :=
  let db := self s in
  mkState (mkMDB (folder db) (extension db) (f (tables db)) (schemas db)
             (_transactions db))
    (heap s) (disk s) (out s).

Definition upd_schemas (f : gmap string schema → gmap string schema)
    (s : state) : state :=
  let db := self s in
  mkState (mkMDB (folder db) (extension db) (tables db) (f (schemas db))
             (_transactions db))
    (heap s) (disk s) (out s).

Definition upd_transactions
    (f : gmap string (list loc) → gmap string (list loc))
    (s : state) : state :=
  let db := self s in
  mkState (mkMDB (folder db) (extension db) (tables db) (schemas db)
             (f (_transactions db)))
    (heap s) (disk s) (out s).

Definition set_heap (h : list record) (s : state) : state :=
  mkState (self s) h (disk s) (out s).

(** The effect of an event on the disk. *)
Definition apply_event (e : event) (d : gmap string file) : gmap string file :=
  match e with
  | EWrite p c => <[p := c]> d
  | ERemove p => delete p d
  | EPrint _ => d
  | EExport p c => <[p := c]> d
  end.

Definition emit (e : event) (s : state) : state :=
  mkState (self s) (heap s) (apply_event e (disk s)) (out s ++ [e]).

(** *** Computations that may raise *)

Inductive outcome (A : Type) :=
| Ok (a : A)
| Raise (e : exn)
| Unmodelled.
Arguments Ok {A} a.
Arguments Raise {A} e.
Arguments Unmodelled {A}.

Definition M (A : Type) : Type := state → outcome A * state.

Definition ret {A} (a : A) : M A := fun s => (Ok a, s).

Definition bind {A B} (c : M A) (k : A → M B) : M B :=
  fun s =>
    match c s with
    | (Ok a, s') => k a s'
    | (Raise e, s') => (Raise e, s')
    | (Unmodelled, s') => (Unmodelled, s')
    end.

Definition raise {A} (e : exn) : M A := fun s => (Raise e, s).
Definition unmodelled {A} : M A := fun s => (Unmodelled, s).
Definition gets {A} (f : state → A) : M A := fun s => (Ok (f s), s).
Definition modify (f : state → state) : M unit := fun s => (Ok tt, f s).

Notation "x <- c ;; k" := (bind c (fun x => k))
  (at level 100, c at next level, right associativity).
Notation "c ;;; k" := (bind c (fun _ => k))
  (at level 100, right associativity).

Definition when (b : bool) (c : M unit) : M unit := if b then c else ret tt.

(** *** Pieces of Python shared by the two editions *)

Definition ends_with_slash (a : string) : bool :=
  match String.get (String.length a - 1) a with
  | Some c => Ascii.eqb c "/"%char
  | None => false
  end.

(** [os.path.join(a, b)] on a POSIX host. *)
Definition path_join (a b : string) : string :=
  if String.prefix "/" b then b
  else if (String.eqb a "" || ends_with_slash a)%bool then a +:+ b
  else a +:+ "/" +:+ b.

(** [all(record.get(k) == v for k, v in conditions.items())] *)
Definition holds (conditions : record) (r : record) : bool :=
  forallb (fun kv => py_eq (get r (fst kv)) (snd kv)) conditions.

(** [for uk, uv in updates.items(): record[uk] = uv] *)
Definition apply_updates (updates : record) (r : record) : record :=
  fold_left (fun acc kv => dict_set acc (fst kv) (snd kv)) updates r.

(** A fresh dict object for a value. *)
Definition alloc (r : record) : M loc :=
  fun s => (Ok (length (heap s)), set_heap (heap s ++ [r]) s).

Fixpoint alloc_rows (rows : list record) : M (list loc) :=
  match rows with
  | [] => ret []
  | r :: rows' =>
      l <- alloc r ;;
      ls <- alloc_rows rows' ;;
      ret (l :: ls)
  end.

(** [deepcopy(rows)]: every distinct dict object of the list is copied
    once; [memo] maps the objects already copied to their copies. *)
Fixpoint deepcopy_rows (memo : gmap loc loc) (ls : list loc) (h : list record)
    : list loc * list record :=
  match ls with
  | [] => ([], h)
  | l :: ls' =>
      match memo !! l with
      | Some l' =>
          let '(r, h') := deepcopy_rows memo ls' h in (l' :: r, h')
      | None =>
          let l' := length h in
          let '(r, h') :=
            deepcopy_rows (<[l := l']> memo) ls' (h ++ [deref h l]) in
          (l' :: r, h')
      end
  end.

Definition deepcopy (ls : list loc) : M (list loc) :=
  fun s =>
    let '(r, h') := deepcopy_rows ∅ ls (heap s) in
    (Ok r, set_heap h' s).

(** [self.schemas[t]] rendered for the file:
    [{k: v.__name__ if v else None for k, v in schema.items()}] *)
Definition render_schema (sch : schema) : json :=
  JObj (map (fun kv =>
               (fst kv,
                match snd kv with
                | Some t => JStr (type_name t)
                | None => JNull
                end)) sch).

(** [os.path.exists(path)] *)
Definition path_exists (path : string) : M bool :=
  gets (fun s => match disk s !! path with Some _ => true | None => false end).

(** [json.load(f)] on the file at [path] (which exists). *)
Definition json_load (path : string) : M json :=
  fun s =>
    match disk s !! path with
    | Some (Json doc) => (Ok doc, s)
    | Some Empty => (Raise JSONDecodeError, s)
    | Some Partial => (Raise JSONDecodeError, s)
    | Some (Csv _ _) => (Unmodelled, s)
    | Some PartialCsv => (Unmodelled, s)
    | None => (Raise (FileNotFoundError path), s)
    end.

(** [self.tables[table_name]] *)
Definition table_rows (table_name : string) : M (list loc) :=
  fun s =>
    match tables (self s) !! table_name with
    | Some rows => (Ok rows, s)
    | None => (Raise (KeyError table_name), s)
    end.

Definition is_none (v : value) : bool :=
  match v with VNone => true | _ => false end.

(** The duplicate scan of [insert]:
    [for existing in rows: if existing.get(key) == record.get(key): raise] *)
Fixpoint check_duplicates (key_column : string) (r : record)
    (existing : list record) : M unit :=
  match existing with
  | [] => ret tt
  | e :: rest =>
      if py_eq (get e key_column) (get r key_column)
      then raise (ValueError (DuplicateEntry key_column (get r key_column)))
      else check_duplicates key_column r rest
  end.

(** The loop of [update]: the records are visited in order and a matching
    one is overwritten in place before the next one is looked at.
    [conditions] and [updates] are objects, read anew at every record. *)
Fixpoint update_rows (conditions updates : loc) (rows : list loc)
    (h : list record) (updated_count : Z) : list record * Z :=
  match rows with
  | [] => (h, updated_count)
  | l :: rows' =>
      let r := deref h l in
      if holds (deref h conditions) r
      then update_rows conditions updates rows'
             (<[l := apply_updates (deref h updates) r]> h) (updated_count + 1)
      else update_rows conditions updates rows' h updated_count
  end.

(** The comprehension of [delete]:
    [[r for r in rows if not all(...)]] *)
Definition delete_rows (conditions : record) (h : list record)
    (rows : list loc) : list loc :=
  List.filter (fun l => negb (holds conditions (deref h l))) rows.

(** Binding the keyword arguments of [select(table_name, **conditions)]
    and [delete(table_name, **conditions)] (methods of [self]): a key
    named after a parameter would give that parameter a second value, and
    the call raises before the body runs. *)
Definition kwargs_ok (conditions : record) : bool :=
  negb (dict_mem conditions "self" || dict_mem conditions "table_name").

Definition bind_kwargs (conditions : record) : M unit :=
  if kwargs_ok conditions then ret tt else raise TypeErrorMultipleValues.

(** One line of [csv.DictWriter.writerows]: a row with a key that is no
    field name is refused; else the line holds [rowdict.get(key, "")] for
    every field name. *)
Definition csv_line (fieldnames : list string) (r : record)
    : option (list value) :=
  if forallb (fun kv => existsb (String.eqb (fst kv)) fieldnames) r
  then Some (map (fun k => match dict_lookup r k with
                           | Some v => v
                           | None => VStr ""
                           end) fieldnames)
  else None.

(** The lines written up to the first refused row, and whether every row
    was written. *)
Fixpoint csv_lines (fieldnames : list string) (rows : list record)
    : list (list value) * bool :=
  match rows with
  | [] => ([], true)
  | r :: rows' =>
      match csv_line fieldnames r with
      | Some line =>
          let '(lines, complete) := csv_lines fieldnames rows' in
          (line :: lines, complete)
      | None => ([], false)
      end
  end.

(** [if key_column:] is false for [None] and for the empty string. *)
Definition truthy_key (key_column : option string) : option string :=
  match key_column with
  | Some k => if String.eqb k "" then None else Some k
  | None => None
  end.

(** [if schema:] is false for [None] and for the empty dict. *)
Definition truthy_schema (sch : option schema) : option schema :=
  match sch with
  | Some (c :: sch') => Some (c :: sch')
  | _ => None
  end.

(** The file of a table: [os.path.join(self.folder, t + self.extension)]. *)
Definition file_path (s : state) (table_name : string) : string :=
  path_join (folder (self s)) (table_name +:+ extension (self s)).

(** [self.schemas.get(t, {})] *)
Definition schema_of (s : state) (table_name : string) : schema :=
  match schemas (self s) !! table_name with
  | Some sch => sch
  | None => []
  end.

(** The row objects [json.load] builds for an array; a document whose
    items are not all objects of scalars is outside the model. *)
Definition rows_of (j : json) : M (list loc) :=
  match j with
  | JArr items =>
      match load_rows items with
      | Some rows => alloc_rows rows
      | None => unmodelled
      end
  | _ => unmodelled
  end.

(* ===================================================================== *)
(** ** The GUI edition: [class MDB] of [maestrodatabase_gui.py] *)
(* ===================================================================== *)

Module Gui.

Definition _path (table_name : string) : M string :=
  gets (fun s => file_path s table_name).

Definition _check_table_exists (table_name : string) : M unit :=
  fun s =>
    match tables (self s) !! table_name with
    | Some _ => (Ok tt, s)
    | None => (Raise (ValueError (DoesNotExist table_name)), s)
    end.

(** The loop of [_validate_record] over [schema.items()]. *)
Fixpoint validate_columns (sch : schema) (r : record) : M unit :=
  match sch with
  | [] => ret tt
  | (col, dtype) :: sch' =>
      if negb (dict_mem r col) then raise (ValueError (MissingColumn col))
      else
        match dtype with
        | Some t =>
            if (negb (is_none (get r col)) && negb (isinstance (get r col) t))%bool
            then raise (TypeError col t)
            else validate_columns sch' r
        | None => validate_columns sch' r
        end
  end.

Definition _validate_record (table_name : string) (record : loc) : M unit :=
  fun s =>
    match schemas (self s) !! table_name with
    | None => (Ok tt, s)
    | Some sch => validate_columns sch (deref (heap s) record) s
    end.

(** The document [_save] and [backup_table] hand to [json.dump]. *)
Definition document (sch : schema) (rows : list record) : json :=
  JObj [("schema", render_schema sch); ("rows", dump_rows rows)].

(** In this module every [open] for writing, every write and every
    [os.remove] succeeds, as the specification assumes of local file I/O;
    [GuiIO] below has the same methods on a host where they can fail. *)
Definition _save (table_name : string) : M unit :=
  path <- _path table_name ;;
  sch <- gets (fun s => schema_of s table_name) ;;
  rows <- table_rows table_name ;;
  h <- gets heap ;;
  modify (emit (EWrite path (Json (document sch (view h rows))))).

Definition create_table (table_name : string) (sch : option schema) : M unit :=
  ts <- gets (fun s => tables (self s)) ;;
  match ts !! table_name with
  | Some _ => raise (ValueError (AlreadyExists table_name))
  | None =>
      modify (upd_tables (base.insert table_name [])) ;;;
      match truthy_schema sch with
      | Some sc => modify (upd_schemas (base.insert table_name sc))
      | None => ret tt
      end ;;;
      _save table_name
  end.

(** The kind inferred for a value of the first legacy row. *)
Definition infer_kind (v : value) : option pytype :=
  if isinstance v TInt then Some TInt
  else if isinstance v TFloat then Some TFloat
  else if isinstance v TStr then Some TStr
  else None.

Definition infer_schema (first : record) : schema :=
  fold_left (fun sch kv => dict_set sch (fst kv) (infer_kind (snd kv)))
    first [].

(** The kind a name of the [schema] field stands for:
    [v == "int"], [v == "float"], [v == "str"], else [None]. *)
Definition parse_kind (v : json) : option pytype :=
  match v with
  | JStr name =>
      if String.eqb name "int" then Some TInt
      else if String.eqb name "float" then Some TFloat
      else if String.eqb name "str" then Some TStr
      else None
  | _ => None
  end.

Definition parse_schema (schema_data : list (string * json)) : schema :=
  fold_left (fun sch kv => dict_set sch (fst kv) (parse_kind (snd kv)))
    schema_data [].

(** [data.get(k, default)] on the members of a JSON object. *)
Definition member (k : string) (default : json)
    (members : list (string * json)) : json :=
  match dict_lookup members k with Some j => j | None => default end.

Definition load_table (table_name : string) : M unit :=
  path <- _path table_name ;;
  found <- path_exists path ;;
  if found then
    data <- json_load path ;;
    match data with
    | JArr items =>
        rows <- rows_of data ;;
        modify (upd_tables (base.insert table_name rows)) ;;;
        h <- gets heap ;;
        match view h rows with
        | first :: _ =>
            modify (upd_schemas (base.insert table_name (infer_schema first)))
        | [] => modify (upd_schemas (base.insert table_name []))
        end
    | JObj members =>
        match member "schema" (JObj []) members with
        | JObj schema_data =>
            modify (upd_schemas (base.insert table_name (parse_schema schema_data))) ;;;
            rows <- rows_of (member "rows" (JArr []) members) ;;
            modify (upd_tables (base.insert table_name rows))
        | _ => raise AttributeError
        end
    | _ => raise (ValueError UnsupportedFormat)
    end
  else raise (FileNotFoundError table_name).

Definition drop_table (table_name : string) : M unit :=
  _check_table_exists table_name ;;;
  modify (upd_tables (base.delete table_name)) ;;;
  scs <- gets (fun s => schemas (self s)) ;;
  match scs !! table_name with
  | Some _ => modify (upd_schemas (base.delete table_name))
  | None => ret tt
  end ;;;
  path <- _path table_name ;;
  found <- path_exists path ;;
  when found (modify (emit (ERemove path))).

Definition insert (table_name : string) (record : loc)
    (key_column : option string) : M unit :=
  _check_table_exists table_name ;;;
  _validate_record table_name record ;;;
  match truthy_key key_column with
  | Some k =>
      rows <- table_rows table_name ;;
      h <- gets heap ;;
      check_duplicates k (deref h record) (view h rows)
  | None => ret tt
  end ;;;
  rows <- table_rows table_name ;;
  modify (upd_tables (base.insert table_name (rows ++ [record]))) ;;;
  _save table_name.

Definition update (table_name : string) (conditions updates : loc) : M value :=
  _check_table_exists table_name ;;;
  rows <- table_rows table_name ;;
  h <- gets heap ;;
  let '(h', updated_count) := update_rows conditions updates rows h 0 in
  modify (set_heap h') ;;;
  _save table_name ;;;
  ret (VInt updated_count).

Definition delete (table_name : string) (conditions : record) : M value :=
  bind_kwargs conditions ;;;
  _check_table_exists table_name ;;;
  rows <- table_rows table_name ;;
  let original_len := Z.of_nat (length rows) in
  h <- gets heap ;;
  modify (upd_tables (base.insert table_name (delete_rows conditions h rows))) ;;;
  rows' <- table_rows table_name ;;
  let deleted_count := original_len - Z.of_nat (length rows') in
  _save table_name ;;;
  ret (VInt deleted_count).

(** [stamp] is [datetime.now().strftime('%Y%m%d%H%M%S')]. *)
Definition backup_table (table_name stamp : string) : M unit :=
  _check_table_exists table_name ;;;
  path <- _path table_name ;;
  let backup_path := path +:+ ".backup." +:+ stamp in
  sch <- gets (fun s => schema_of s table_name) ;;
  rows <- table_rows table_name ;;
  h <- gets heap ;;
  modify (emit (EWrite backup_path (Json (document sch (view h rows))))).

(** The field names are the keys of the first row; [writerows] stops at
    the first row it refuses, with the lines before it written. *)
Definition export_csv (table_name csv_path : string) : M unit :=
  _check_table_exists table_name ;;;
  rows <- table_rows table_name ;;
  match rows with
  | [] => ret tt
  | first :: _ =>
      h <- gets heap ;;
      let fieldnames := map fst (deref h first) in
      let '(lines, complete) := csv_lines fieldnames (view h rows) in
      modify (emit (EExport csv_path (Csv fieldnames lines))) ;;;
      if complete then ret tt else raise (ValueError ExtraFields)
  end.

Definition begin_transaction (table_name : string) : M unit :=
  _check_table_exists table_name ;;;
  rows <- table_rows table_name ;;
  snapshot <- deepcopy rows ;;
  modify (upd_transactions (base.insert table_name snapshot)).

Definition rollback (table_name : string) : M unit :=
  txs <- gets (fun s => _transactions (self s)) ;;
  match txs !! table_name with
  | Some snapshot =>
      modify (upd_transactions (base.delete table_name)) ;;;
      modify (upd_tables (base.insert table_name snapshot))
  | None => ret tt
  end.

Definition commit (table_name : string) : M unit :=
  txs <- gets (fun s => _transactions (self s)) ;;
  match txs !! table_name with
  | Some _ =>
      modify (upd_transactions (base.delete table_name)) ;;;
      _save table_name
  | None => ret tt
  end.

End Gui.

(* ===================================================================== *)
(** ** The terminal edition: [class MDB] of [maestrodatabase_terminal.py] *)
(* ===================================================================== *)

Module Terminal.

Definition print (m : message) : M unit := modify (emit (EPrint m)).

Definition _path (table_name : string) : M string :=
  gets (fun s => file_path s table_name).

Definition _check_table_exists (table_name : string) : M unit :=
  fun s =>
    match tables (self s) !! table_name with
    | Some _ => (Ok tt, s)
    | None => (Raise (ValueError (DoesNotExist table_name)), s)
    end.

(** The loop of [_validate_record] over [schema.items()]. *)
Fixpoint validate_columns (sch : schema) (r : record) : M unit :=
  match sch with
  | [] => ret tt
  | (col, dtype) :: sch' =>
      if negb (dict_mem r col) then raise (ValueError (MissingColumn col))
      else
        match dtype with
        | Some t =>
            if negb (isinstance (get r col) t)
            then
              (* allow None *)
              if negb (is_none (get r col))
              then raise (TypeError col t)
              else validate_columns sch' r
            else validate_columns sch' r
        | None => validate_columns sch' r
        end
  end.

Definition _validate_record (table_name : string) (record : loc) : M unit :=
  fun s =>
    match schemas (self s) !! table_name with
    | None => (Ok tt, s)
    | Some sch => validate_columns sch (deref (heap s) record) s
    end.

(** The file is opened (and so truncated) before the table is looked up.
    In this module every [open] for writing, every write and every
    [os.remove] succeeds, as the specification assumes of local file I/O;
    [TerminalIO] below has the same methods on a host where they can
    fail. *)
Definition _save (table_name : string) : M unit :=
  path <- _path table_name ;;
  ts <- gets (fun s => tables (self s)) ;;
  match ts !! table_name with
  | Some rows =>
      h <- gets heap ;;
      modify (emit (EWrite path (Json (dump_rows (view h rows)))))
  | None =>
      modify (emit (EWrite path Empty)) ;;;
      raise (KeyError table_name)
  end.

Definition create_table (table_name : string) (sch : option schema) : M unit :=
  ts <- gets (fun s => tables (self s)) ;;
  match ts !! table_name with
  | Some _ => raise (ValueError (AlreadyExists table_name))
  | None =>
      modify (upd_tables (base.insert table_name [])) ;;;
      match truthy_schema sch with
      | Some sc => modify (upd_schemas (base.insert table_name sc))
      | None => ret tt
      end ;;;
      _save table_name ;;;
      print (MsgCreated table_name sch)
  end.

Definition load_table (table_name : string) : M unit :=
  path <- _path table_name ;;
  found <- path_exists path ;;
  if found then
    data <- json_load path ;;
    rows <- rows_of data ;;
    modify (upd_tables (base.insert table_name rows)) ;;;
    print (MsgLoaded table_name)
  else raise (FileNotFoundError table_name).

Definition drop_table (table_name : string) : M unit :=
  _check_table_exists table_name ;;;
  modify (upd_tables (base.delete table_name)) ;;;
  scs <- gets (fun s => schemas (self s)) ;;
  match scs !! table_name with
  | Some _ => modify (upd_schemas (base.delete table_name))
  | None => ret tt
  end ;;;
  path <- _path table_name ;;
  found <- path_exists path ;;
  when found (modify (emit (ERemove path))) ;;;
  print (MsgDropped table_name).

Definition insert (table_name : string) (record : loc)
    (key_column : option string) : M unit :=
  _check_table_exists table_name ;;;
  _validate_record table_name record ;;;
  match truthy_key key_column with
  | Some k =>
      rows <- table_rows table_name ;;
      h <- gets heap ;;
      check_duplicates k (deref h record) (view h rows)
  | None => ret tt
  end ;;;
  rows <- table_rows table_name ;;
  modify (upd_tables (base.insert table_name (rows ++ [record]))) ;;;
  _save table_name ;;;
  h <- gets heap ;;
  print (MsgInserted table_name (deref h record)).

(** The loop of [select]: [results.append(record)] for every match. *)
Fixpoint select_rows (conditions : record) (h : list record)
    (rows results : list loc) : list loc :=
  match rows with
  | [] => results
  | l :: rows' =>
      if holds conditions (deref h l)
      then select_rows conditions h rows' (results ++ [l])
      else select_rows conditions h rows' results
  end.

Definition select (table_name : string) (conditions : record) : M (list loc) :=
  bind_kwargs conditions ;;;
  _check_table_exists table_name ;;;
  rows <- table_rows table_name ;;
  h <- gets heap ;;
  ret (select_rows conditions h rows []).

(** No [return]: the count is only printed. *)
Definition update (table_name : string) (conditions updates : loc) : M value :=
  _check_table_exists table_name ;;;
  rows <- table_rows table_name ;;
  h <- gets heap ;;
  let '(h', updated_count) := update_rows conditions updates rows h 0 in
  modify (set_heap h') ;;;
  _save table_name ;;;
  print (MsgUpdated updated_count table_name) ;;;
  ret VNone.

Definition delete (table_name : string) (conditions : record) : M value :=
  bind_kwargs conditions ;;;
  _check_table_exists table_name ;;;
  rows <- table_rows table_name ;;
  let original_len := Z.of_nat (length rows) in
  h <- gets heap ;;
  modify (upd_tables (base.insert table_name (delete_rows conditions h rows))) ;;;
  rows' <- table_rows table_name ;;
  let deleted_count := original_len - Z.of_nat (length rows') in
  _save table_name ;;;
  print (MsgDeleted deleted_count table_name) ;;;
  ret VNone.

(** [stamp] is [datetime.now().strftime('%Y%m%d%H%M%S')]. *)
Definition backup_table (table_name stamp : string) : M unit :=
  _check_table_exists table_name ;;;
  path <- _path table_name ;;
  let backup_path := path +:+ ".backup." +:+ stamp in
  rows <- table_rows table_name ;;
  h <- gets heap ;;
  modify (emit (EWrite backup_path (Json (dump_rows (view h rows))))) ;;;
  print (MsgBackup table_name backup_path).

(** The field names are the keys of the first row; [writerows] stops at
    the first row it refuses, with the lines before it written. *)
Definition export_csv (table_name csv_path : string) : M unit :=
  _check_table_exists table_name ;;;
  rows <- table_rows table_name ;;
  match rows with
  | [] => print MsgNoData
  | first :: _ =>
      h <- gets heap ;;
      let fieldnames := map fst (deref h first) in
      let '(lines, complete) := csv_lines fieldnames (view h rows) in
      modify (emit (EExport csv_path (Csv fieldnames lines))) ;;;
      if complete then print (MsgExported table_name csv_path)
      else raise (ValueError ExtraFields)
  end.

Definition begin_transaction (table_name : string) : M unit :=
  _check_table_exists table_name ;;;
  rows <- table_rows table_name ;;
  snapshot <- deepcopy rows ;;
  modify (upd_transactions (base.insert table_name snapshot)) ;;;
  print (MsgTxStarted table_name).

Definition rollback (table_name : string) : M unit :=
  txs <- gets (fun s => _transactions (self s)) ;;
  match txs !! table_name with
  | Some snapshot =>
      modify (upd_transactions (base.delete table_name)) ;;;
      modify (upd_tables (base.insert table_name snapshot)) ;;;
      print (MsgTxRolledBack table_name)
  | None => print (MsgNoActiveTx table_name)
  end.

Definition commit (table_name : string) : M unit :=
  txs <- gets (fun s => _transactions (self s)) ;;
  match txs !! table_name with
  | Some _ =>
      modify (upd_transactions (base.delete table_name)) ;;;
      _save table_name ;;;
      print (MsgTxCommitted table_name)
  | None => print (MsgNoActiveTx table_name)
  end.

End Terminal.

(* ===================================================================== *)
(** ** The engine surface as data *)
(* ===================================================================== *)

(** A call of a client on the engine.  [New] is the client building a
    dict object (a record literal) to pass to [insert] later. *)
Inductive call :=
| New (r : record)
| CreateTable (t : string) (sch : option schema)
| LoadTable (t : string)
| DropTable (t : string)
| Insert (t : string) (record : loc) (key_column : option string)
| Select (t : string) (conditions : record)
| Update (t : string) (conditions updates : loc)
| Delete (t : string) (conditions : record)
| BackupTable (t stamp : string)
| BeginTransaction (t : string)
| Rollback (t : string)
| Commit (t : string)
| ExportCsv (t : string) (csv_path : string).

(** What a call hands back to the client. *)
Inductive retval :=
| RValue (v : value)
| RRows (rows : list loc)
| RRef (l : loc).

Definition returning {A} (f : A → retval) (c : M A) : M retval :=
  a <- c ;; ret (f a).

Definition nothing (_ : unit) : retval := RValue VNone.

(** The calls both editions answer ([select] is a method of the terminal
    edition only, and [load_table] is treated apart). *)
Definition common (c : call) : bool :=
  match c with
  | Select _ _ | LoadTable _ => false
  | _ => true
  end.

Definition gui_run (c : call) : M retval :=
  match c with
  | New r => returning RRef (alloc r)
  | CreateTable t sch => returning nothing (Gui.create_table t sch)
  | LoadTable t => returning nothing (Gui.load_table t)
  | DropTable t => returning nothing (Gui.drop_table t)
  | Insert t l k => returning nothing (Gui.insert t l k)
  | Select t _ => raise AttributeError
  | Update t cs us => returning RValue (Gui.update t cs us)
  | Delete t cs => returning RValue (Gui.delete t cs)
  | BackupTable t stamp => returning nothing (Gui.backup_table t stamp)
  | BeginTransaction t => returning nothing (Gui.begin_transaction t)
  | Rollback t => returning nothing (Gui.rollback t)
  | Commit t => returning nothing (Gui.commit t)
  | ExportCsv t csv_path => returning nothing (Gui.export_csv t csv_path)
  end.

Definition terminal_run (c : call) : M retval :=
  match c with
  | New r => returning RRef (alloc r)
  | CreateTable t sch => returning nothing (Terminal.create_table t sch)
  | LoadTable t => returning nothing (Terminal.load_table t)
  | DropTable t => returning nothing (Terminal.drop_table t)
  | Insert t l k => returning nothing (Terminal.insert t l k)
  | Select t cs => returning RRows (Terminal.select t cs)
  | Update t cs us => returning RValue (Terminal.update t cs us)
  | Delete t cs => returning RValue (Terminal.delete t cs)
  | BackupTable t stamp => returning nothing (Terminal.backup_table t stamp)
  | BeginTransaction t => returning nothing (Terminal.begin_transaction t)
  | Rollback t => returning nothing (Terminal.rollback t)
  | Commit t => returning nothing (Terminal.commit t)
  | ExportCsv t csv_path => returning nothing (Terminal.export_csv t csv_path)
  end.

(** A client session: the calls are made one after the other, and an
    exception of one call is caught by the client before the next. *)
Definition session (run : call → M retval) (cs : list call) (s : state) : state :=
  fold_left (fun st c => snd (run c st)) cs s.

(** [type(v)], when [v] is not [None]. *)
Definition type_of (v : value) : option pytype :=
  match v with
  | VNone => None
  | VBool _ => Some TBool
  | VInt _ => Some TInt
  | VFloat _ => Some TFloat
  | VStr _ => Some TStr
  end.

(* ===================================================================== *)
(** ** The editions on a host whose file operations can fail *)
(* ===================================================================== *)

(** The methods above run on a host where every [open] for writing,
    every write and every [os.remove] succeeds, which the specification
    assumes of local file I/O.  Below, the methods that write or remove a
    file run on any host.  [on_write path] says how a
    [with open(path, "w") as f:] block on [path] goes: it completes;
    [open] fails, and the file is not touched; or [open] succeeds, which
    truncates the file, and the writing fails, which leaves the beginning
    of the text.  [on_remove path] says whether [os.remove(path)]
    succeeds.  Each failure raises ([IOFailure]).  The other methods
    ([load_table], [select], [begin_transaction], [rollback]) write no
    file and are the ones above. *)
Inductive write_outcome :=
| Written
| OpenFails
| WriteFails.

Record host := mkHost {
  on_write : string → write_outcome;
  on_remove : string → bool
}.

Definition reliable : host := mkHost (fun _ => Written) (fun _ => true).

(** [with open(path, "w") as f: json.dump(doc, f, indent=2)], the
    document being evaluated before the file is opened. *)
Definition write_json (io : host) (path : string) (doc : json) : M unit :=
  match on_write io path with
  | Written => modify (emit (EWrite path (Json doc)))
  | OpenFails => raise IOFailure
  | WriteFails => modify (emit (EWrite path Partial)) ;;; raise IOFailure
  end.

(** [os.remove(path)] *)
Definition remove (io : host) (path : string) : M unit :=
  if on_remove io path then modify (emit (ERemove path)) else raise IOFailure.

Module GuiIO.

(** [data] is built, and [self.tables[table_name]] looked up, before the
    file is opened. *)
Definition _save (io : host) (table_name : string) : M unit :=
  path <- Gui._path table_name ;;
  sch <- gets (fun s => schema_of s table_name) ;;
  rows <- table_rows table_name ;;
  h <- gets heap ;;
  write_json io path (Gui.document sch (view h rows)).

Definition create_table (io : host) (table_name : string)
    (sch : option schema) : M unit :=
  ts <- gets (fun s => tables (self s)) ;;
  match ts !! table_name with
  | Some _ => raise (ValueError (AlreadyExists table_name))
  | None =>
      modify (upd_tables (base.insert table_name [])) ;;;
      match truthy_schema sch with
      | Some sc => modify (upd_schemas (base.insert table_name sc))
      | None => ret tt
      end ;;;
      _save io table_name
  end.

Definition drop_table (io : host) (table_name : string) : M unit :=
  Gui._check_table_exists table_name ;;;
  modify (upd_tables (base.delete table_name)) ;;;
  scs <- gets (fun s => schemas (self s)) ;;
  match scs !! table_name with
  | Some _ => modify (upd_schemas (base.delete table_name))
  | None => ret tt
  end ;;;
  path <- Gui._path table_name ;;
  found <- path_exists path ;;
  when found (remove io path).

Definition insert (io : host) (table_name : string) (record : loc)
    (key_column : option string) : M unit :=
  Gui._check_table_exists table_name ;;;
  Gui._validate_record table_name record ;;;
  match truthy_key key_column with
  | Some k =>
      rows <- table_rows table_name ;;
      h <- gets heap ;;
      check_duplicates k (deref h record) (view h rows)
  | None => ret tt
  end ;;;
  rows <- table_rows table_name ;;
  modify (upd_tables (base.insert table_name (rows ++ [record]))) ;;;
  _save io table_name.

Definition update (io : host) (table_name : string)
    (conditions updates : loc) : M value :=
  Gui._check_table_exists table_name ;;;
  rows <- table_rows table_name ;;
  h <- gets heap ;;
  let '(h', updated_count) := update_rows conditions updates rows h 0 in
  modify (set_heap h') ;;;
  _save io table_name ;;;
  ret (VInt updated_count).

Definition delete (io : host) (table_name : string) (conditions : record)
    : M value :=
  bind_kwargs conditions ;;;
  Gui._check_table_exists table_name ;;;
  rows <- table_rows table_name ;;
  let original_len := Z.of_nat (length rows) in
  h <- gets heap ;;
  modify (upd_tables (base.insert table_name (delete_rows conditions h rows))) ;;;
  rows' <- table_rows table_name ;;
  let deleted_count := original_len - Z.of_nat (length rows') in
  _save io table_name ;;;
  ret (VInt deleted_count).

(** The file is opened before the document is built; the table is live
    (it has been checked), so building it does not raise. *)
Definition backup_table (io : host) (table_name stamp : string) : M unit :=
  Gui._check_table_exists table_name ;;;
  path <- Gui._path table_name ;;
  let backup_path := path +:+ ".backup." +:+ stamp in
  sch <- gets (fun s => schema_of s table_name) ;;
  rows <- table_rows table_name ;;
  h <- gets heap ;;
  write_json io backup_path (Gui.document sch (view h rows)).

(** A failing write goes before the refusal of a row: the error of the
    writer, if any, is followed by the one of closing the file. *)
Definition export_csv (io : host) (table_name csv_path : string) : M unit :=
  Gui._check_table_exists table_name ;;;
  rows <- table_rows table_name ;;
  match rows with
  | [] => ret tt
  | first :: _ =>
      match on_write io csv_path with
      | OpenFails => raise IOFailure
      | WriteFails =>
          modify (emit (EExport csv_path PartialCsv)) ;;; raise IOFailure
      | Written =>
          h <- gets heap ;;
          let fieldnames := map fst (deref h first) in
          let '(lines, complete) := csv_lines fieldnames (view h rows) in
          modify (emit (EExport csv_path (Csv fieldnames lines))) ;;;
          if complete then ret tt else raise (ValueError ExtraFields)
      end
  end.

Definition commit (io : host) (table_name : string) : M unit :=
  txs <- gets (fun s => _transactions (self s)) ;;
  match txs !! table_name with
  | Some _ =>
      modify (upd_transactions (base.delete table_name)) ;;;
      _save io table_name
  | None => ret tt
  end.

End GuiIO.

Module TerminalIO.

(** The file is opened (and so truncated) before the table is looked up. *)
Definition _save (io : host) (table_name : string) : M unit :=
  path <- Terminal._path table_name ;;
  match on_write io path with
  | OpenFails => raise IOFailure
  | outcome =>
      ts <- gets (fun s => tables (self s)) ;;
      match ts !! table_name with
      | Some rows =>
          h <- gets heap ;;
          match outcome with
          | Written =>
              modify (emit (EWrite path (Json (dump_rows (view h rows)))))
          | _ => modify (emit (EWrite path Partial)) ;;; raise IOFailure
          end
      | None =>
          modify (emit (EWrite path Empty)) ;;;
          raise (KeyError table_name)
      end
  end.

Definition create_table (io : host) (table_name : string)
    (sch : option schema) : M unit :=
  ts <- gets (fun s => tables (self s)) ;;
  match ts !! table_name with
  | Some _ => raise (ValueError (AlreadyExists table_name))
  | None =>
      modify (upd_tables (base.insert table_name [])) ;;;
      match truthy_schema sch with
      | Some sc => modify (upd_schemas (base.insert table_name sc))
      | None => ret tt
      end ;;;
      _save io table_name ;;;
      Terminal.print (MsgCreated table_name sch)
  end.

Definition drop_table (io : host) (table_name : string) : M unit :=
  Terminal._check_table_exists table_name ;;;
  modify (upd_tables (base.delete table_name)) ;;;
  scs <- gets (fun s => schemas (self s)) ;;
  match scs !! table_name with
  | Some _ => modify (upd_schemas (base.delete table_name))
  | None => ret tt
  end ;;;
  path <- Terminal._path table_name ;;
  found <- path_exists path ;;
  when found (remove io path) ;;;
  Terminal.print (MsgDropped table_name).

Definition insert (io : host) (table_name : string) (record : loc)
    (key_column : option string) : M unit :=
  Terminal._check_table_exists table_name ;;;
  Terminal._validate_record table_name record ;;;
  match truthy_key key_column with
  | Some k =>
      rows <- table_rows table_name ;;
      h <- gets heap ;;
      check_duplicates k (deref h record) (view h rows)
  | None => ret tt
  end ;;;
  rows <- table_rows table_name ;;
  modify (upd_tables (base.insert table_name (rows ++ [record]))) ;;;
  _save io table_name ;;;
  h <- gets heap ;;
  Terminal.print (MsgInserted table_name (deref h record)).

Definition update (io : host) (table_name : string)
    (conditions updates : loc) : M value :=
  Terminal._check_table_exists table_name ;;;
  rows <- table_rows table_name ;;
  h <- gets heap ;;
  let '(h', updated_count) := update_rows conditions updates rows h 0 in
  modify (set_heap h') ;;;
  _save io table_name ;;;
  Terminal.print (MsgUpdated updated_count table_name) ;;;
  ret VNone.

Definition delete (io : host) (table_name : string) (conditions : record)
    : M value :=
  bind_kwargs conditions ;;;
  Terminal._check_table_exists table_name ;;;
  rows <- table_rows table_name ;;
  let original_len := Z.of_nat (length rows) in
  h <- gets heap ;;
  modify (upd_tables (base.insert table_name (delete_rows conditions h rows))) ;;;
  rows' <- table_rows table_name ;;
  let deleted_count := original_len - Z.of_nat (length rows') in
  _save io table_name ;;;
  Terminal.print (MsgDeleted deleted_count table_name) ;;;
  ret VNone.

Definition backup_table (io : host) (table_name stamp : string) : M unit :=
  Terminal._check_table_exists table_name ;;;
  path <- Terminal._path table_name ;;
  let backup_path := path +:+ ".backup." +:+ stamp in
  rows <- table_rows table_name ;;
  h <- gets heap ;;
  write_json io backup_path (dump_rows (view h rows)) ;;;
  Terminal.print (MsgBackup table_name backup_path).

Definition export_csv (io : host) (table_name csv_path : string) : M unit :=
  Terminal._check_table_exists table_name ;;;
  rows <- table_rows table_name ;;
  match rows with
  | [] => Terminal.print MsgNoData
  | first :: _ =>
      match on_write io csv_path with
      | OpenFails => raise IOFailure
      | WriteFails =>
          modify (emit (EExport csv_path PartialCsv)) ;;; raise IOFailure
      | Written =>
          h <- gets heap ;;
          let fieldnames := map fst (deref h first) in
          let '(lines, complete) := csv_lines fieldnames (view h rows) in
          modify (emit (EExport csv_path (Csv fieldnames lines))) ;;;
          if complete then Terminal.print (MsgExported table_name csv_path)
          else raise (ValueError ExtraFields)
      end
  end.

Definition commit (io : host) (table_name : string) : M unit :=
  txs <- gets (fun s => _transactions (self s)) ;;
  match txs !! table_name with
  | Some _ =>
      modify (upd_transactions (base.delete table_name)) ;;;
      _save io table_name ;;;
      Terminal.print (MsgTxCommitted table_name)
  | None => Terminal.print (MsgNoActiveTx table_name)
  end.

End TerminalIO.

Definition gui_run_on (io : host) (c : call) : M retval :=
  match c with
  | New r => returning RRef (alloc r)
  | CreateTable t sch => returning nothing (GuiIO.create_table io t sch)
  | LoadTable t => returning nothing (Gui.load_table t)
  | DropTable t => returning nothing (GuiIO.drop_table io t)
  | Insert t l k => returning nothing (GuiIO.insert io t l k)
  | Select t _ => raise AttributeError
  | Update t cs us => returning RValue (GuiIO.update io t cs us)
  | Delete t cs => returning RValue (GuiIO.delete io t cs)
  | BackupTable t stamp => returning nothing (GuiIO.backup_table io t stamp)
  | BeginTransaction t => returning nothing (Gui.begin_transaction t)
  | Rollback t => returning nothing (Gui.rollback t)
  | Commit t => returning nothing (GuiIO.commit io t)
  | ExportCsv t csv_path => returning nothing (GuiIO.export_csv io t csv_path)
  end.

Definition terminal_run_on (io : host) (c : call) : M retval :=
  match c with
  | New r => returning RRef (alloc r)
  | CreateTable t sch => returning nothing (TerminalIO.create_table io t sch)
  | LoadTable t => returning nothing (Terminal.load_table t)
  | DropTable t => returning nothing (TerminalIO.drop_table io t)
  | Insert t l k => returning nothing (TerminalIO.insert io t l k)
  | Select t cs => returning RRows (Terminal.select t cs)
  | Update t cs us => returning RValue (TerminalIO.update io t cs us)
  | Delete t cs => returning RValue (TerminalIO.delete io t cs)
  | BackupTable t stamp =>
      returning nothing (TerminalIO.backup_table io t stamp)
  | BeginTransaction t => returning nothing (Terminal.begin_transaction t)
  | Rollback t => returning nothing (Terminal.rollback t)
  | Commit t => returning nothing (TerminalIO.commit io t)
  | ExportCsv t csv_path =>
      returning nothing (TerminalIO.export_csv io t csv_path)
  end.

(* ===================================================================== *)
(** ** The checks of [insert] *)
(* ===================================================================== *)

(** The outcomes of the two checks of [insert] that read the record. *)
Definition is_validation_error (e : exn) : Prop :=
  match e with
  | ValueError (MissingColumn _) => True
  | TypeError _ _ => True
  | _ => False
  end.

Definition is_duplicate_error (e : exn) : Prop :=
  match e with
  | ValueError (DuplicateEntry _ _) => True
  | _ => False
  end.

(** The reasons for which [insert] fails. *)
Definition is_insert_error (t : string) (e : exn) : Prop :=
  e = ValueError (DoesNotExist t) ∨ is_validation_error e ∨ is_duplicate_error e.

(** The checks of [insert], which read the state and leave it alone: the
    error raised, or the rows of the table when all of them pass. *)
Definition insert_checks (t : string) (record : nat)
    (key_column : option string) (s : state) : exn + list nat :=
  match tables (self s) !! t with
  | None => inl (ValueError (DoesNotExist t))
  | Some rows =>
      match fst (Gui._validate_record t record s) with
      | Raise e => inl e
      | _ =>
          match truthy_key key_column with
          | Some k =>
              match fst (check_duplicates k (deref (heap s) record)
                           (view (heap s) rows) s) with
              | Raise e => inl e
              | _ => inr rows
              end
          | None => inr rows
          end
      end
  end.

(* ===================================================================== *)
(** ** The calls as state transformers *)
(* ===================================================================== *)

(** The state after a successful load: the schema is bound and the rows
    are fresh objects at the end of the heap. *)
Definition loaded (t : string) (sch : list (string * option pytype))
    (rows : list (list (string * value))) (s : state) : state :=
  upd_tables (base.insert t (seq (length (heap s)) (length rows)))
    (set_heap (heap s ++ rows) (upd_schemas (base.insert t sch) s)).

(** What the GUI edition writes for table [t] in state [s]. *)
Definition gui_write (path t : string) (s : state) : event :=
  EWrite path
    (Json (Gui.document (schema_of s t)
             (view (heap s) (default [] (tables (self s) !! t))))).

(** What the terminal edition writes for table [t] in state [s]. *)
Definition terminal_write (path t : string) (s : state) : event :=
  EWrite path
    (Json (dump_rows (view (heap s) (default [] (tables (self s) !! t))))).

Definition gui_saved (t : string) (s : state) : state :=
  emit (gui_write (file_path s t) t s) s.

Definition terminal_saved (t : string) (s : state) : state :=
  emit (terminal_write (file_path s t) t s) s.

Definition created (t : string) (sch : option (list (string * option pytype)))
    (s : state) : state :=
  match truthy_schema sch with
  | Some sc => upd_schemas (base.insert t sc) (upd_tables (base.insert t []) s)
  | None => upd_tables (base.insert t []) s
  end.

Definition dropped (t : string) (s : state) : state :=
  let s1 := upd_tables (base.delete t) s in
  let s2 := match schemas (self s1) !! t with
            | Some _ => upd_schemas (base.delete t) s1
            | None => s1
            end in
  match disk s2 !! file_path s2 t with
  | Some _ => emit (ERemove (file_path s2 t)) s2
  | None => s2
  end.

Definition inserted (t : string) (rows : list nat) (record : nat)
    (s : state) : state :=
  upd_tables (base.insert t (rows ++ [record])) s.

Definition updated (t : string) (conditions updates : nat)
    (rows : list nat) (s : state) : state :=
  set_heap (fst (update_rows conditions updates rows (heap s) 0)) s.

Definition updated_count (conditions updates : nat)
    (rows : list nat) (s : state) : Z :=
  snd (update_rows conditions updates rows (heap s) 0).

Definition deleted (t : string) (conditions : list (string * value))
    (rows : list nat) (s : state) : state :=
  upd_tables (base.insert t (delete_rows conditions (heap s) rows)) s.

Definition deleted_count (conditions : list (string * value))
    (rows : list nat) (s : state) : Z :=
  Z.of_nat (length rows)
  - Z.of_nat (length (delete_rows conditions (heap s) rows)).

Definition backup_path (t stamp : string) (s : state) : string :=
  file_path s t +:+ ".backup." +:+ stamp.

Definition begun (t : string) (rows : list nat) (s : state) : state :=
  let '(snapshot, h') := deepcopy_rows ∅ rows (heap s) in
  upd_transactions (base.insert t snapshot) (set_heap h' s).

Definition rolled_back (t : string) (snapshot : list nat) (s : state) : state :=
  upd_tables (base.insert t snapshot) (upd_transactions (base.delete t) s).

Definition committed (t : string) (s : state) : state :=
  upd_transactions (base.delete t) s.

(** The CSV document of [export_csv] for the rows of a table, and
    whether [writerows] accepted every row. *)
Definition csv_document (rows : list nat) (s : state) : file :=
  match rows with
  | [] => Empty
  | first :: _ =>
      Csv (map fst (deref (heap s) first))
        (fst (csv_lines (map fst (deref (heap s) first)) (view (heap s) rows)))
  end.

Definition export_complete (rows : list nat) (s : state) : bool :=
  match rows with
  | [] => true
  | first :: _ =>
      snd (csv_lines (map fst (deref (heap s) first)) (view (heap s) rows))
  end.

Definition exported (csv_path : string) (rows : list nat) (s : state) : state :=
  match rows with
  | [] => s
  | _ :: _ => emit (EExport csv_path (csv_document rows s)) s
  end.

(** How a call whose last file operation is a [with open(path, "w")]
    block ends on a host: with result [a] in state [after] when the block
    completes; raising, in the state [before] in which the file is
    opened, when [open] fails; raising, with the file truncated, when
    the writing fails. *)
Definition written_on {A} (io : host) (path : string) (a : A)
    (after before : state) : outcome A * state :=
  match on_write io path with
  | Written => (Ok a, after)
  | OpenFails => (Raise IOFailure, before)
  | WriteFails => (Raise IOFailure, emit (EWrite path Partial) before)
  end.

(** The memory of the engine once [drop_table] has forgotten the table,
    before the file is looked at. *)
Definition unregistered (t : string) (s : state) : state :=
  let s1 := upd_tables (base.delete t) s in
  match schemas (self s1) !! t with
  | Some _ => upd_schemas (base.delete t) s1
  | None => s1
  end.

(** One step of [update] on a record. *)
Definition update_record (conditions updates r : list (string * value))
    : list (string * value) :=
  if holds conditions r then apply_updates updates r else r.

(* ===================================================================== *)
(** ** Notions of the statements *)
(* ===================================================================== *)

(** The kind inferred from a value of the first legacy row, case by case. *)
Definition legacy_kind (v : value) : option pytype :=
  match v with
  | VInt _ | VBool _ => Some TInt
  | VFloat _ => Some TFloat
  | VStr _ => Some TStr
  | VNone => None
  end.

(** The kinds the GUI edition reads back: every kind but [bool]. *)
Definition persistent_kind (dtype : option pytype) : Prop :=
  dtype ≠ Some TBool.

(** Every row of every table is a live object. *)
Definition valid_refs (s : state) : Prop :=
  map_Forall (fun _ rows => Forall (fun l => (l < length (heap s))%nat) rows)
    (tables (self s)).

(** Table [t] has a pending snapshot whose records hold [content] and are
    referenced by no table. *)
Definition sealed (t : string) (content : list (list (string * value)))
    (snapshot : list nat) (s : state) : Prop :=
  _transactions (self s) !! t = Some snapshot ∧
  view (heap s) snapshot = content ∧
  Forall (fun l => (l < length (heap s))%nat) snapshot ∧
  map_Forall (fun _ rows => ∀ l, l ∈ rows → l ∉ snapshot) (tables (self s)).

(** The calls that change rows: building a record, [insert], [update]
    and [delete]. *)
Definition is_row_mutation (c : call) : bool :=
  match c with
  | New _ | Insert _ _ _ | Update _ _ _ | Delete _ _ => true
  | _ => false
  end.

(** The client holds no reference to the records of a snapshot, so none
    is ever passed to [insert]. *)
Definition inserts_outside (snapshot : list nat) (c : call) : Prop :=
  match c with
  | Insert _ record _ => record ∉ snapshot
  | _ => True
  end.

(** What the theorem of C6 states of an edition [run]. *)
Definition rollback_restores (run : call → M retval) (s : state) (t : string)
    (rows : list nat) (cs : list call) : Prop :=
  let s1 := snd (run (BeginTransaction t) s) in
  let s2 := session run cs s1 in
  let s3 := snd (run (Rollback t) s2) in
  let s4 := snd (run (Rollback t) s3) in
  fst (run (BeginTransaction t) s) = Ok (RValue VNone) ∧
  fst (run (Rollback t) s2) = Ok (RValue VNone) ∧
  (∃ rows3, tables (self s3) !! t = Some rows3 ∧
            view (heap s3) rows3 = view (heap s) rows) ∧
  _transactions (self s3) !! t = None ∧
  fst (run (Rollback t) s3) = Ok (RValue VNone) ∧
  self s4 = self s3 ∧ heap s4 = heap s3 ∧ disk s4 = disk s3.

(** The Current shape: an object with a [schema] member mapping columns
    to kind names or null and a [rows] member holding a list of objects. *)
Definition current_shape (content : file) : Prop :=
  ∃ cols rows,
    content = Json (JObj [("schema", JObj cols); ("rows", JArr rows)]) ∧
    Forall (fun kv => snd kv = JNull ∨ ∃ ty, snd kv = JStr (type_name ty)) cols ∧
    Forall (fun r => ∃ members, r = JObj members) rows.

(** The Current-shape document of table [t] as it is in state [s]. *)
Definition live_document (t : string) (s : state) : file :=
  Json (Gui.document (schema_of s t)
          (view (heap s) (default [] (tables (self s) !! t)))).

(** The table a call names. *)
Definition table_of (c : call) : string :=
  match c with
  | New _ => ""
  | CreateTable t _ | LoadTable t | DropTable t | Insert t _ _ | Select t _
  | Update t _ _ | Delete t _ | BackupTable t _ | BeginTransaction t
  | Rollback t | Commit t | ExportCsv t _ => t
  end.




(** The calls that persist the table when they succeed. *)
Definition persists (c : call) : bool :=
  match c with
  | CreateTable _ _ | Insert _ _ _ | Update _ _ _ | Delete _ _ => true
  | _ => false
  end.

(** What a call of the GUI edition adds to the trace: nothing, the
    removal of a file, one write of the live document of its table (to
    the file of the table or, for a backup, to a file beside it), or one
    CSV export. *)
Definition gui_trace (c : call) (s s' : state) (evs : list event) : Prop :=
  evs = [] ∨
  (∃ p, evs = [ERemove p]) ∨
  (∃ p, evs = [EWrite p (live_document (table_of c) s')] ∧
        disk s' !! p = Some (live_document (table_of c) s') ∧
        (p = file_path s' (table_of c) ∨ ∃ stamp, c = BackupTable (table_of c) stamp)) ∨
  (∃ p content, evs = [EExport p content]).

(* ===================================================================== *)
(** ** Concrete states and sessions *)
(* ===================================================================== *)

(** The state of the counterexample of C2: table [t] declares the column
    [n] of kind Integer, and the record at location 0 is [{"n": True}]. *)
Definition bool_in_int_state : state :=
  mkState (mkMDB "data" ".mdb" {[ "t" := [] ]} {[ "t" := [("n", Some TInt)] ]} ∅)
    [[("n", VBool true)]] ∅ [].

(** The other state of the witness of C2: the column [x] is declared
    Float and the record at location 0 is [{"x": 1}]. *)
Definition int_in_float_state : state :=
  mkState (mkMDB "data" ".mdb" {[ "t" := [] ]} {[ "t" := [("x", Some TFloat)] ]} ∅)
    [[("x", VInt 1)]] ∅ [].

(** The session of C7: a table with one row, a transaction begun on it,
    and the table dropped. *)
Definition drop_with_pending : list call :=
  [CreateTable "t" None; New [("id", VInt 1)]; Insert "t" 0%nat None;
   BeginTransaction "t"; DropTable "t"].

(** The state of the counterexample of C1: table [t] is empty and its
    schema declares the column [flag] of kind Boolean. *)
Definition bool_schema_state : state :=
  mkState (mkMDB "data" ".mdb" {[ "t" := [] ]}
             {[ "t" := [("flag", Some TBool)] ]} ∅)
    [] ∅ [].

(** The state of the counterexample of C4: no table is open and the file
    of [t] holds the legacy document [[{"flag": true}]]. *)
Definition legacy_bool_state : state :=
  mkState (mkMDB "data" ".mdb" ∅ ∅ ∅) []
    {[ "data/t.mdb" := Json (JArr [JObj [("flag", JBool true)]]) ]} [].

(** The states of the witness of C4: the file of [t] holds a legacy list,
    a Current object, and a bare string. *)
Definition legacy_file_state : state :=
  mkState (mkMDB "data" ".mdb" ∅ ∅ ∅) []
    {[ "data/t.mdb" :=
         Json (JArr [JObj [("id", JInt 1); ("ok", JBool true);
                           ("name", JStr "Ann"); ("note", JNull)];
                     JObj [("id", JInt 2)]]) ]} [].

Definition current_file_state : state :=
  mkState (mkMDB "data" ".mdb" ∅ ∅ ∅) []
    {[ "data/t.mdb" :=
         Json (JObj [("schema", JObj [("id", JStr "int"); ("ok", JStr "bool");
                                      ("note", JNull)]);
                     ("rows", JArr [JObj [("id", JInt 1); ("ok", JBool true);
                                          ("note", JNull)]])]) ]} [].

Definition string_file_state : state :=
  mkState (mkMDB "data" ".mdb" ∅ ∅ ∅) []
    {[ "data/t.mdb" := Json (JStr "rows") ]} [].

(** The states of the counterexample of C9.  In each, the dicts at
    locations 1 and 2 are the conditions [{"a": 1}] and the updates
    [{"a": 2}] of the client.  The table holds the single row [{"a": 1}];
    or one record object [{"a": 1}] twice; or the rows [{"a": 1}] and
    [{"a": 2}], the first of which the client passes as conditions. *)
Definition one_row_state : state :=
  mkState (mkMDB "data" ".mdb" {[ "t" := [0%nat] ]} ∅ ∅)
    [[("a", VInt 1)]; [("a", VInt 1)]; [("a", VInt 2)]] ∅ [].

Definition shared_row_state : state :=
  mkState (mkMDB "data" ".mdb" {[ "t" := [0%nat; 0%nat] ]} ∅ ∅)
    [[("a", VInt 1)]; [("a", VInt 1)]; [("a", VInt 2)]] ∅ [].

(** The state of the witness of C9: five rows, and the client dicts
    [{"k": 9}], [{"k": 0}] and [{"k": 1}] at locations 5, 6 and 7. *)
Definition five_rows_state : state :=
  mkState (mkMDB "data" ".mdb" {[ "t" := [0; 1; 2; 3; 4]%nat ]} ∅ ∅)
    [[("k", VInt 1)]; [("k", VInt 2)]; [("k", VInt 1)];
     [("k", VInt 3)]; [("k", VInt 4)];
     [("k", VInt 9)]; [("k", VInt 0)]; [("k", VInt 1)]] ∅ [].

Definition row_as_conditions_state : state :=
  mkState (mkMDB "data" ".mdb" {[ "t" := [0%nat; 3%nat] ]} ∅ ∅)
    [[("a", VInt 1)]; [("a", VInt 1)]; [("a", VInt 2)]; [("a", VInt 2)]] ∅ [].

(** The session of the witness of C6: three records are built and
    inserted, every row is updated (with empty conditions, the dicts at
    locations 7 and 8) and one is deleted. *)
Definition three_inserts : list call :=
  [New [("id", VInt 3)]; Insert "t" 4%nat None;
   New [("id", VInt 4)]; Insert "t" 5%nat (Some "id");
   New [("id", VInt 5)]; Insert "t" 6%nat None;
   New []; New [("seen", VBool true)]; Update "t" 7%nat 8%nat;
   Delete "t" [("id", VInt 1)]].

Definition two_rows_state : state :=
  mkState (mkMDB "data" ".mdb" {[ "t" := [0; 1]%nat ]} ∅ ∅)
    [[("id", VInt 1)]; [("id", VInt 2)]] ∅ [].

(* ===================================================================== *)
(** ** Further notions: validation, invariants, failures *)
(* ===================================================================== *)

(** What [_validate_record] asks of a record for one declared column:
    the column is present, and its value is [None] or an instance of the
    declared type when a type is declared. *)
Definition column_ok (r : list (string * value))
    (cd : string * option pytype) : Prop :=
  dict_mem r (fst cd) = true ∧
  match snd cd with
  | Some ty => get r (fst cd) = VNone ∨ isinstance (get r (fst cd)) ty = true
  | None => True
  end.

(** The float [nan], the one record value that is not equal to itself. *)
Definition is_nan (v : value) : bool :=
  match v with
  | VFloat S754_nan => true
  | _ => false
  end.

(** No value of the record is [nan]. *)
Definition nan_free (r : list (string * value)) : Prop :=
  Forall (fun kv => is_nan (snd kv) = false) r.

(** Every bound schema belongs to a live table. *)
Definition schemas_live (s : state) : Prop :=
  ∀ t, is_Some (schemas (self s) !! t) → is_Some (tables (self s) !! t).

(** Table names that [os.path.join] keeps under the folder: the non-empty
    names that do not begin with a slash. *)
Definition relative_name (t : string) : Prop :=
  match t with
  | String c _ => c ≠ "/"%char
  | EmptyString => False
  end.

(** The predicate of the specification of [select]: every pair of the
    conditions satisfies [record[column] == value], the column being
    there. *)
Definition index_holds (conditions r : list (string * value)) : bool :=
  forallb (fun kv => match dict_lookup r (fst kv) with
                     | Some v => py_eq v (snd kv)
                     | None => false
                     end) conditions.

(** The conditions under which [insert] appends the record. *)
Definition insertable (t : string) (record : nat) (key_column : option string)
    (rows : list nat) (s : state) : Prop :=
  tables (self s) !! t = Some rows ∧
  Forall (column_ok (deref (heap s) record)) (schema_of s t) ∧
  ∀ key, truthy_key key_column = Some key →
         Forall (fun e => py_eq (get e key) (get (deref (heap s) record) key)
                          = false)
           (view (heap s) rows).

(** The engine after a restart of the program on the same folder: a new
    [MDB] instance, with no table loaded, over the files of [s]. *)
Definition restarted (s : state) : state :=
  init (folder (self s)) (extension (self s)) [] (disk s).

(** No call of the session meets a file that is outside the model. *)
Fixpoint modelled (run : call → M retval) (cs : list call) (s : state) : Prop :=
  match cs with
  | [] => True
  | c :: cs' => fst (run c s) ≠ Unmodelled ∧ modelled run cs' (snd (run c s))
  end.

(** The calls that begin with [_check_table_exists]. *)
Definition needs_table (c : call) : bool :=
  match c with
  | DropTable _ | Insert _ _ _ | Select _ _ | Update _ _ _ | Delete _ _
  | BackupTable _ _ | BeginTransaction _ | ExportCsv _ _ => true
  | _ => false
  end.

(** The keyword arguments of a call: the conditions of [select] and
    [delete]. *)
Definition kwargs_of (c : call) : list (string * value) :=
  match c with
  | Select _ conditions | Delete _ conditions => conditions
  | _ => []
  end.

Definition is_select (c : call) : bool :=
  match c with
  | Select _ _ => true
  | _ => false
  end.

(** What a call on table [t] may have changed between [s] and [s'] in
    the registry of the engine and on the disk: nothing of the other
    tables (their row lists, schemas and pending snapshots) and the
    content under no path but the path of the file of [t] and of its
    backups.  The disk is a map from path strings: two spellings of one
    file are not told apart.  The content of the records is the matter of
    [kept] below. *)
Definition frame (t : string) (s s' : state) : Prop :=
  folder (self s') = folder (self s) ∧
  extension (self s') = extension (self s) ∧
  (∀ t', t' ≠ t →
         tables (self s') !! t' = tables (self s) !! t' ∧
         schemas (self s') !! t' = schemas (self s) !! t' ∧
         _transactions (self s') !! t' = _transactions (self s) !! t') ∧
  (∀ p, p ≠ file_path s t → (∀ stamp, p ≠ backup_path t stamp s) →
        disk s' !! p = disk s !! p).

(** The calls of a client that works on table [t] only; [export_csv]
    is left out, as it writes the path it is given. *)
Definition on_table (t : string) (c : call) : Prop :=
  match c with
  | New _ => True
  | ExportCsv _ _ => False
  | _ => table_of c = t
  end.

(** The records at [protected] are live objects that are neither rows of
    table [t] nor records of its pending snapshot. *)
Definition apart (t : string) (protected : list nat) (s : state) : Prop :=
  Forall (fun l => (l < length (heap s))%nat) protected ∧
  (∀ l, l ∈ protected → l ∉ default [] (tables (self s) !! t)) ∧
  (∀ l, l ∈ protected → l ∉ default [] (_transactions (self s) !! t)).

(** From [s] to [s'] the records at [protected] have kept their content,
    and they are still apart from table [t]. *)
Definition kept (t : string) (protected : list nat) (s s' : state) : Prop :=
  apart t protected s' ∧
  ∀ l, l ∈ protected → deref (heap s') l = deref (heap s) l.

(** The lines printed among the events. *)
Definition prints (evs : list event) : list message :=
  omap (fun e => match e with EPrint m => Some m | _ => None end) evs.

(** What a raising call of the terminal edition has added to the
    trace: nothing; or, when a write failed once the file was open, the
    truncated file; or, for a [commit] of a table that is not live, the
    empty file; or, for an [export_csv] that refuses a row, the lines
    before that row. *)
Definition raise_trace (io : host) (c : call) (s : state) (e : exn)
    (evs : list event) : Prop :=
  evs = [] ∨
  (e = IOFailure ∧
   ∃ p, on_write io p = WriteFails ∧
        (evs = [EWrite p Partial] ∨ evs = [EExport p PartialCsv])) ∨
  (∃ t, c = Commit t ∧ e = KeyError t ∧
        evs = [EWrite (file_path s t) Empty]) ∨
  (∃ t p fieldnames lines,
     c = ExportCsv t p ∧ e = ValueError ExtraFields ∧
     evs = [EExport p (Csv fieldnames lines)]).

(** The calls that print nothing when they succeed: building a record
    and [select]. *)
Definition is_silent (c : call) : bool :=
  match c with
  | New _ | Select _ _ => true
  | _ => false
  end.

(* ===================================================================== *)
(** ** The callers: the GUI's schema dialog and the web viewers *)
(* ===================================================================== *)

(** The schema dialog of [MDBGUI.create_table], from the parsed schema
    ([json.loads(schema_str)], an object with unique keys) on.  Strings
    are byte sequences; [lower] maps the ASCII capitals, which decides
    the three comparisons as Python's [str.lower] does (no other
    character lowers to a letter of ["int"], ["str"] or ["float"]). *)
Module GuiClient.

Definition ascii_lower (c : ascii) : ascii :=
  let n := nat_of_ascii c in
  if ((65 <=? n)%nat && (n <=? 90)%nat)%bool then ascii_of_nat (n + 32) else c.

Fixpoint lower (v : string) : string :=
  match v with
  | EmptyString => EmptyString
  | String c v' => String (ascii_lower c) (lower v')
  end.

(** [int] if [v.lower() == "int"], [str] if [v.lower() == "str"], [float]
    if [v.lower() == "float"], else [None]. *)
Definition dialog_kind (v : string) : option pytype :=
  if String.eqb (lower v) "int" then Some TInt
  else if String.eqb (lower v) "str" then Some TStr
  else if String.eqb (lower v) "float" then Some TFloat
  else None.

(** The loop over [schema_dict.items()]; a value that is not a string has
    no [lower]. *)
Fixpoint dialog_schema (items : list (string * json)) (sch : schema)
    : exn + schema :=
  match items with
  | [] => inr sch
  | (k, JStr v) :: items' => dialog_schema items' (dict_set sch k (dialog_kind v))
  | (k, _) :: _ => inl AttributeError
  end.

(** [create_table] of the client, inside its [try]: nothing is done for an
    empty name; a schema that is not an object has no [items]. *)
Definition create_table (name : string) (schema_dict : json) : M unit :=
  if String.eqb name "" then ret tt
  else
    match schema_dict with
    | JObj items =>
        match dialog_schema items [] with
        | inr sch => Gui.create_table name (Some sch)
        | inl e => raise e
        end
    | _ => raise AttributeError
    end.

End GuiClient.

(** [load_table] of the two web viewers ([dataviewer.py] and
    [mdb_airport_web_dynamic.py]): the document of the file as it is, or
    the empty list when there is no file. *)
Module Viewer.

Definition DATA_FOLDER : string := "data".
Definition EXTENSION : string := ".mdb".

Definition load_table (table_name : string) : M json :=
  let path := path_join DATA_FOLDER (table_name +:+ EXTENSION) in
  found <- path_exists path ;;
  if negb found then ret (JArr []) else json_load path.

End Viewer.

(* ===================================================================== *)
(** ** Basic facts *)
(* ===================================================================== *)

Ltac munfold :=
  unfold when, returning, nothing, path_exists, table_rows, json_load, alloc,
    deepcopy in *;
  unfold bind, ret, gets, modify, raise, unmodelled in *;
  cbv beta in *.

Lemma returning_snd {A} (f : A → retval) (w : outcome A * state) :
  snd (let (o, s') := w in
       match o with
       | Ok a => (Ok (f a), s')
       | Raise e => (Raise e, s')
       | Unmodelled => (Unmodelled, s')
       end) = snd w.
Proof. by destruct w as [[] ?]. Qed.

Lemma returning_modelled {A} (f : A → retval) (w : outcome A * state) :
  fst w ≠ Unmodelled →
  fst (let (o, s') := w in
       match o with
       | Ok a => (Ok (f a), s')
       | Raise e => (Raise e, s')
       | Unmodelled => (Unmodelled, s')
       end) ≠ Unmodelled.
Proof. by destruct w as [[] ?]. Qed.

Lemma returning_raise {A} (f : A → retval) (w : outcome A * state) e s' :
  (let (o, s1) := w in
   match o with
   | Ok a => (Ok (f a), s1)
   | Raise e => (Raise e, s1)
   | Unmodelled => (Unmodelled, s1)
   end) = (Raise e, s') →
  w = (Raise e, s').
Proof. destruct w as [[] ?]; by intros [= <- <-]. Qed.

Arguments file_path : simpl never.
Arguments path_join : simpl never.
Arguments Gui.member : simpl never.
Arguments Gui._save : simpl never.
Arguments Terminal._save : simpl never.
Arguments session : simpl never.
Arguments gui_run : simpl never.
Arguments terminal_run : simpl never.

Lemma Forall_forallb_holds (conditions r : record) :
  holds conditions r = true ↔
  ∀ k v, In (k, v) conditions → py_eq (get r k) v = true.
Proof.
  unfold holds. rewrite forallb_forall. split.
  - intros H k v Hin. apply (H (k, v) Hin).
  - intros H [k v] Hin. simpl. auto.
Qed.

Lemma select_rows_filter conditions h rows results :
  Terminal.select_rows conditions h rows results =
  results ++ List.filter (fun l => holds conditions (deref h l)) rows.
Proof.
  revert results. induction rows as [|l rows IH]; intros results; simpl.
  - by rewrite app_nil_r.
  - destruct (holds conditions (deref h l)); rewrite IH; [|done].
    by rewrite <- app_assoc.
Qed.

Lemma filter_sublist {A} (f : A → bool) (l : list A) :
  sublist (List.filter f l) l.
Proof.
  induction l as [|x l IH]; simpl; [constructor|].
  destruct (f x); by constructor.
Qed.

Lemma filter_all {A} (f : A → bool) (l : list A) :
  (∀ x, f x = true) → List.filter f l = l.
Proof.
  intros H. induction l as [|x l IH]; simpl; [done|].
  by rewrite H, IH.
Qed.

(* ===================================================================== *)
(** ** Selection *)
(* ===================================================================== *)

Lemma terminal_select_eq t cs s :
  Terminal.select t cs s
  = if kwargs_ok cs then
      match tables (self s) !! t with
      | Some rows =>
          (Ok (List.filter (fun l => holds cs (deref (heap s) l)) rows), s)
      | None => (Raise (ValueError (DoesNotExist t)), s)
      end
    else (Raise TypeErrorMultipleValues, s).
Proof.
  unfold Terminal.select, Terminal._check_table_exists, bind_kwargs. munfold.
  destruct (kwargs_ok cs); simpl; [|done].
  destruct (tables (self s) !! t) eqn:Ht; repeat (rewrite Ht; simpl); [|done].
  by rewrite select_rows_filter.
Qed.

Lemma holds_index_holds (conditions r : list (string * value)) :
  (∀ k v, In (k, v) conditions → dict_mem r k = true) →
  holds conditions r = index_holds conditions r.
Proof.
  unfold holds, index_holds.
  induction conditions as [|[k v] conditions IH]; intros H; simpl; [done|].
  rewrite IH by (intros k' v' Hin; apply (H k' v'); by right).
  specialize (H k v (or_introl eq_refl)).
  unfold get, dict_mem in *. by destruct (dict_lookup r k).
Qed.

(** C8, as stated, fails twice.  A record that lacks a column is selected
    by a condition asking [None] of that column, although
    [record[column]] does not exist; and a condition on a column named
    [table_name] (or [self]) makes the call raise [TypeError] instead of
    returning rows. *)
Lemma select_reads_absent_as_none :
  let s := mkState (mkMDB "data" ".mdb" {[ "t" := [0%nat] ]} ∅ ∅)
             [[("a", VInt 1)]] ∅ [] in
  Terminal.select "t" [("b", VNone)] s = (Ok [0%nat], s) ∧
  List.filter (fun l => index_holds [("b", VNone)] (deref (heap s) l)) [0%nat]
  = [] ∧
  Terminal.select "t" [("table_name", VInt 1)] s
  = (Raise TypeErrorMultipleValues, s) ∧
  Terminal.select "t" [("self", VInt 1)] s
  = (Raise TypeErrorMultipleValues, s).
Proof. vm_compute. repeat split; reflexivity. Qed.

(** C8, amended. For every live table and every conditions mapping with
    no key named [self] or [table_name], [select] returns exactly the
    ordered subsequence of the table's records for which every (column,
    value) pair of the conditions satisfies [record.get(column) == value]
    (a conjunction; the value of an absent column is [None]), leaving the
    state as it was; where every column of the conditions is present in
    every record this is the subsequence of the records with
    [record[column] == value].  With empty conditions it returns all rows
    in insertion order.  With a key named [self] or [table_name] the call
    raises [TypeError] and returns nothing. *)
Theorem select_filter (s : state) (t : string) (conditions : record)
    (rows : list loc) :
  tables (self s) !! t = Some rows →
  let result :=
    List.filter (fun l => holds conditions (deref (heap s) l)) rows in
  (kwargs_ok conditions = true →
   Terminal.select t conditions s = (Ok result, s) ∧
   sublist result rows ∧
   (∀ l, In l result ↔
         In l rows ∧
         ∀ k v, In (k, v) conditions →
                py_eq (get (deref (heap s) l) k) v = true) ∧
   ((∀ l k v, In l rows → In (k, v) conditions →
              dict_mem (deref (heap s) l) k = true) →
    result
    = List.filter (fun l => index_holds conditions (deref (heap s) l)) rows)) ∧
  (kwargs_ok conditions = false →
   Terminal.select t conditions s = (Raise TypeErrorMultipleValues, s)) ∧
  (conditions = [] → Terminal.select t conditions s = (Ok rows, s)).
Proof.
  intros Ht result. rewrite terminal_select_eq, Ht.
  split; [|split].
  - intros ->. split; [done|]. split; [apply filter_sublist|]. split.
    + intros l. unfold result. rewrite filter_In, Forall_forallb_holds. tauto.
    + intros Hmem. unfold result. apply filter_ext_in. intros l Hl.
      apply holds_index_holds. intros k v Hin. by apply (Hmem l k v).
  - by intros ->.
  - intros ->. simpl. by rewrite filter_all.
Qed.

Lemma select_filter_witness :
  let s := mkState (mkMDB "data" ".mdb" {[ "t" := [0%nat; 1%nat; 2%nat] ]} ∅ ∅)
             [[("a", VInt 1); ("b", VStr "x")];
              [("a", VInt 1); ("b", VStr "y")];
              [("a", VBool true); ("b", VStr "x")]] ∅ [] in
  Terminal.select "t" [("a", VInt 1); ("b", VStr "x")] s
  = (Ok [0%nat; 2%nat], s).
Proof.
  intros s.
  exact (proj1 (proj1 (select_filter s "t" [("a", VInt 1); ("b", VStr "x")]
                         [0%nat; 1%nat; 2%nat] eq_refl) eq_refl)).
Defined.

(* ===================================================================== *)
(** ** Validation *)
(* ===================================================================== *)

Lemma terminal_validate_columns sch r :
  Terminal.validate_columns sch r = Gui.validate_columns sch r.
Proof.
  induction sch as [|[col dtype] sch IH]; simpl; [done|].
  destruct (dict_mem r col); simpl; [|done].
  destruct dtype as [ty|]; [|done].
  destruct (is_none (get r col)), (isinstance (get r col) ty); simpl; done.
Qed.

Lemma terminal_validate_record t record s :
  Terminal._validate_record t record s = Gui._validate_record t record s.
Proof.
  unfold Terminal._validate_record, Gui._validate_record.
  destruct (schemas (self s) !! t); [|done].
  by rewrite terminal_validate_columns.
Qed.

Lemma validate_columns_pure sch r s :
  Gui.validate_columns sch r s = (Ok tt, s) ∨
  ∃ e, is_validation_error e ∧ Gui.validate_columns sch r s = (Raise e, s).
Proof.
  induction sch as [|[col dtype] sch IH]; simpl; [by left|].
  destruct (dict_mem r col); simpl;
    [|right; eexists; (split; [|reflexivity]); exact I].
  destruct dtype as [ty|]; [|done].
  destruct (negb (is_none (get r col)) && negb (isinstance (get r col) ty))%bool;
    [right; eexists; (split; [|reflexivity]); exact I|done].
Qed.

Lemma validate_record_pure t record s :
  Gui._validate_record t record s = (Ok tt, s) ∨
  ∃ e, is_validation_error e ∧ Gui._validate_record t record s = (Raise e, s).
Proof.
  unfold Gui._validate_record.
  destruct (schemas (self s) !! t); [apply validate_columns_pure|by left].
Qed.

Lemma check_duplicates_pure k r existing s :
  check_duplicates k r existing s = (Ok tt, s) ∨
  ∃ e, is_duplicate_error e ∧ check_duplicates k r existing s = (Raise e, s).
Proof.
  induction existing as [|x existing IH]; simpl; [by left|].
  destruct (py_eq (get x k) (get r k)); [|done].
  right. eexists. split; [|reflexivity]. exact I.
Qed.

Lemma validate_columns_app pre post r s :
  Gui.validate_columns pre r s = (Ok tt, s) →
  Gui.validate_columns (pre ++ post) r s = Gui.validate_columns post r s.
Proof.
  induction pre as [|[col dtype] pre IH]; simpl; [done|].
  destruct (dict_mem r col); simpl; [|discriminate].
  destruct dtype as [ty|]; [|done].
  destruct (negb (is_none (get r col)) && negb (isinstance (get r col) ty))%bool;
    [discriminate|done].
Qed.

Lemma isinstance_type_of v ty :
  isinstance v ty = true ↔
  type_of v = Some ty ∨ (type_of v = Some TBool ∧ ty = TInt).
Proof.
  destruct v, ty; simpl; split; intros H;
    try done; try (by left); try (by right);
    destruct H as [H|[H1 H2]]; congruence.
Qed.

(** C2, as stated, fails: a record whose value for an Integer column is
    [True] passes validation in both editions. *)
Lemma bool_passes_int_column :
  Gui._validate_record "t" 0%nat bool_in_int_state = (Ok tt, bool_in_int_state) ∧
  Terminal._validate_record "t" 0%nat bool_in_int_state
  = (Ok tt, bool_in_int_state).
Proof. split; reflexivity. Qed.

(** C2, amended. For every table whose schema declares a column of some
    kind, and every record that passes the columns declared before it and
    has a value for it: both editions validate alike; the column is passed
    (validation goes on with the columns declared after it) when the value
    is [None], when its type is the declared one, and also when it is a
    Boolean and the column is declared Integer; for every other pair of
    kinds validation fails with the [TypeError] of that column. *)
Theorem validate_kind_check (s : state) (t : string) (record : loc)
    (pre post : schema) (col : string) (ty : pytype) (v : value) :
  schemas (self s) !! t = Some (pre ++ (col, Some ty) :: post) →
  Gui.validate_columns pre (deref (heap s) record) s = (Ok tt, s) →
  dict_lookup (deref (heap s) record) col = Some v →
  Terminal._validate_record t record s = Gui._validate_record t record s ∧
  (v = VNone ∨ type_of v = Some ty ∨ (type_of v = Some TBool ∧ ty = TInt) →
   Gui._validate_record t record s
   = Gui.validate_columns post (deref (heap s) record) s) ∧
  (v ≠ VNone → type_of v ≠ Some ty → ¬ (type_of v = Some TBool ∧ ty = TInt) →
   Gui._validate_record t record s = (Raise (TypeError col ty), s)).
Proof.
  intros Hsch Hpre Hv. split; [apply terminal_validate_record|].
  unfold Gui._validate_record. rewrite Hsch.
  rewrite (validate_columns_app _ _ _ _ Hpre). simpl.
  unfold dict_mem, get. rewrite Hv. simpl. split.
  - intros [->|H]; [done|].
    apply isinstance_type_of in H. rewrite H.
    by rewrite andb_false_r.
  - intros Hnone Hty Hbool.
    destruct (isinstance v ty) eqn:Hi.
    + apply isinstance_type_of in Hi. tauto.
    + by destruct v.
Qed.

Lemma validate_kind_check_witness :
  Gui._validate_record "t" 0%nat bool_in_int_state
  = Gui.validate_columns [] (deref (heap bool_in_int_state) 0%nat)
      bool_in_int_state ∧
  Gui._validate_record "t" 0%nat int_in_float_state
  = (Raise (TypeError "x" TFloat), int_in_float_state).
Proof.
  split.
  - refine (proj1 (proj2 (validate_kind_check bool_in_int_state "t" 0%nat
                            [] [] "n" TInt (VBool true)
                            eq_refl eq_refl eq_refl)) _).
    right. right. split; reflexivity.
  - refine (proj2 (proj2 (validate_kind_check int_in_float_state "t" 0%nat
                            [] [] "x" TFloat (VInt 1)
                            eq_refl eq_refl eq_refl)) _ _ _).
    + discriminate.
    + discriminate.
    + intros [H _]. discriminate.
Defined.

(* ===================================================================== *)
(** ** Dropping a table with a pending transaction *)
(* ===================================================================== *)

Lemma gui_drop_table_transactions t s :
  _transactions (self (snd (Gui.drop_table t s))) = _transactions (self s).
Proof.
  unfold Gui.drop_table, Gui._check_table_exists, Gui._path. munfold.
  destruct (tables (self s) !! t); simpl; [|done].
  destruct (schemas (self s) !! t); simpl;
    match goal with |- context [disk s !! ?p] => destruct (disk s !! p) end;
    done.
Qed.

Lemma terminal_drop_table_transactions t s :
  _transactions (self (snd (Terminal.drop_table t s))) = _transactions (self s).
Proof.
  unfold Terminal.drop_table, Terminal._check_table_exists, Terminal._path,
    Terminal.print.
  munfold.
  destruct (tables (self s) !! t); simpl; [|done].
  destruct (schemas (self s) !! t); simpl;
    match goal with |- context [disk s !! ?p] => destruct (disk s !! p) end;
    done.
Qed.

(** C7 at its failing input. After [drop_table] the table is gone from
    the registry and from the disk, but its pending snapshot is still in
    the transaction log, in both editions: a later [rollback] registers
    the dropped table again, with the snapshot as its rows. *)
Theorem drop_table_keeps_pending_snapshot :
  let s0 := init "data" ".mdb" [] ∅ in
  let g := session gui_run drop_with_pending s0 in
  let m := session terminal_run drop_with_pending s0 in
  tables (self g) !! "t" = None ∧
  disk g !! "data/t.mdb" = None ∧
  _transactions (self g) !! "t" = Some [1%nat] ∧
  tables (self (snd (Gui.rollback "t" g))) !! "t" = Some [1%nat] ∧
  tables (self m) !! "t" = None ∧
  disk m !! "data/t.mdb" = None ∧
  _transactions (self m) !! "t" = Some [1%nat] ∧
  tables (self (snd (Terminal.rollback "t" m))) !! "t" = Some [1%nat].
Proof. vm_compute. repeat split; reflexivity. Qed.

(* ===================================================================== *)
(** ** Dicts built key by key, and the JSON codec *)
(* ===================================================================== *)

Lemma dict_set_fresh {V} (d : list (string * V)) k v :
  k ∉ map fst d → dict_set d k v = d ++ [(k, v)].
Proof.
  induction d as [|[k' v'] d IH]; simpl; [done|].
  intros Hk. apply not_elem_of_cons in Hk as [Hne Hk].
  destruct (String.eqb_spec k' k) as [->|_]; [done|].
  by rewrite IH.
Qed.

(** A dict filled by [d[k] = f(v)] over the items of another dict has the
    items of that dict, mapped, in the same order. *)
Lemma fold_dict_set_map {V W} (f : V → W) (l : list (string * V))
    (acc : list (string * W)) :
  NoDup (map fst acc ++ map fst l) →
  fold_left (fun a kv => dict_set a (fst kv) (f (snd kv))) l acc
  = acc ++ map (fun kv => (fst kv, f (snd kv))) l.
Proof.
  revert acc. induction l as [|[k v] l IH]; intros acc Hnd; simpl.
  - by rewrite app_nil_r.
  - rewrite dict_set_fresh.
    + rewrite IH; [by rewrite <- app_assoc|].
      rewrite map_app. simpl. rewrite <- app_assoc. done.
    + apply NoDup_app in Hnd as (_ & Hdisj & _).
      intros Hin. apply (Hdisj k Hin). simpl. left.
Qed.

Lemma load_dump_record (r : list (string * value)) :
  load_record (dump_record r) = Some r.
Proof.
  unfold load_record, dump_record. apply mapM_Some.
  induction r as [|[k v] r IH]; simpl; constructor; [|done].
  unfold load_member. simpl. by destruct v.
Qed.

Lemma load_dump_rows (rows : list (list (string * value))) :
  load_rows (map dump_record rows) = Some rows.
Proof.
  unfold load_rows. apply mapM_Some.
  induction rows as [|r rows IH]; simpl; constructor; [|done].
  apply load_dump_record.
Qed.

Lemma alloc_rows_spec (rows : list (list (string * value))) s :
  alloc_rows rows s
  = (Ok (seq (length (heap s)) (length rows)), set_heap (heap s ++ rows) s).
Proof.
  revert s. induction rows as [|r rows IH]; intros s; simpl.
  - unfold ret, set_heap. rewrite app_nil_r. by destruct s.
  - munfold. rewrite IH. unfold set_heap. simpl.
    rewrite length_app. simpl. rewrite Nat.add_1_r.
    by rewrite <- app_assoc.
Qed.

Lemma deref_app_l h ext l :
  (l < length h)%nat → deref (h ++ ext) l = deref h l.
Proof. intros H. unfold deref. by rewrite lookup_app_l. Qed.

Lemma view_app_l h ext ls :
  Forall (fun l => (l < length h)%nat) ls → view (h ++ ext) ls = view h ls.
Proof.
  unfold view. induction 1 as [|l ls Hl _ IH]; simpl; [done|].
  by rewrite deref_app_l, IH.
Qed.

Lemma view_fresh h (rows : list (list (string * value))) :
  view (h ++ rows) (seq (length h) (length rows)) = rows.
Proof.
  revert h. induction rows as [|r rows IH]; intros h; simpl; [done|].
  f_equal.
  - unfold deref. rewrite lookup_app_r; [|lia].
    by rewrite Nat.sub_diag.
  - specialize (IH (h ++ [r])). rewrite length_app in IH. simpl in IH.
    rewrite Nat.add_1_r, <- app_assoc in IH. done.
Qed.

Lemma infer_kind_cases v : Gui.infer_kind v = legacy_kind v.
Proof. by destruct v. Qed.

Lemma infer_schema_map (first : list (string * value)) :
  wf_dict first →
  Gui.infer_schema first = map (fun kv => (fst kv, legacy_kind (snd kv))) first.
Proof.
  intros Hwf. unfold Gui.infer_schema.
  rewrite (fold_dict_set_map Gui.infer_kind first []); [|done].
  simpl. apply map_ext. intros [k v]. simpl. by rewrite infer_kind_cases.
Qed.

Lemma parse_schema_map (schema_data : list (string * json)) :
  wf_dict schema_data →
  Gui.parse_schema schema_data
  = map (fun kv => (fst kv, Gui.parse_kind (snd kv))) schema_data.
Proof.
  intros Hwf. unfold Gui.parse_schema.
  by rewrite (fold_dict_set_map Gui.parse_kind schema_data []).
Qed.

Lemma parse_render_schema (sch : list (string * option pytype)) :
  wf_dict sch →
  Forall (fun cd => persistent_kind (snd cd)) sch →
  match render_schema sch with
  | JObj schema_data => Gui.parse_schema schema_data = sch
  | _ => False
  end.
Proof.
  intros Hwf Hk. unfold render_schema.
  rewrite parse_schema_map.
  - rewrite map_map. simpl.
    induction Hk as [|[col dtype] sch Hd _ IH]; simpl; [done|].
    rewrite IH; [|by inversion Hwf].
    f_equal. f_equal. unfold persistent_kind in Hd. simpl in Hd.
    by destruct dtype as [[]|].
  - unfold wf_dict. rewrite map_map. simpl. exact Hwf.
Qed.

(* ===================================================================== *)
(** ** Saving and loading in the GUI edition *)
(* ===================================================================== *)

Lemma gui_save_ok t s rows :
  tables (self s) !! t = Some rows →
  Gui._save t s
  = (Ok tt,
     emit (EWrite (file_path s t)
             (Json (Gui.document (schema_of s t) (view (heap s) rows)))) s).
Proof.
  intros Ht. unfold Gui._save, Gui._path. munfold. by rewrite Ht.
Qed.

Lemma gui_save_missing t s :
  tables (self s) !! t = None → Gui._save t s = (Raise (KeyError t), s).
Proof.
  intros Ht. unfold Gui._save, Gui._path. munfold. by rewrite Ht.
Qed.

Lemma loaded_schema t sch rows s :
  schemas (self (loaded t sch rows s)) !! t = Some sch.
Proof. unfold loaded. simpl. apply lookup_insert_eq. Qed.

Lemma loaded_rows t sch rows s :
  ∃ locs, tables (self (loaded t sch rows s)) !! t = Some locs ∧
          view (heap (loaded t sch rows s)) locs = rows.
Proof.
  eexists. unfold loaded. simpl. rewrite lookup_insert_eq.
  split; [done|]. apply view_fresh.
Qed.

Lemma gui_load_current t s members schema_data items rows :
  disk s !! file_path s t = Some (Json (JObj members)) →
  Gui.member "schema" (JObj []) members = JObj schema_data →
  Gui.member "rows" (JArr []) members = JArr items →
  load_rows items = Some rows →
  Gui.load_table t s = (Ok tt, loaded t (Gui.parse_schema schema_data) rows s).
Proof.
  intros Hd Hs Hr Hl. unfold Gui.load_table, Gui._path, rows_of. munfold.
  repeat (first [rewrite Hd|rewrite Hs|rewrite Hr|rewrite Hl
                |rewrite alloc_rows_spec]; simpl).
  done.
Qed.

Lemma gui_load_legacy t s items rows :
  disk s !! file_path s t = Some (Json (JArr items)) →
  load_rows items = Some rows →
  Gui.load_table t s
  = (Ok tt,
     loaded t (match rows with
               | first :: _ => Gui.infer_schema first
               | [] => []
               end) rows s).
Proof.
  intros Hd Hl. unfold Gui.load_table, Gui._path, rows_of. munfold.
  repeat (first [rewrite Hd|rewrite Hl|rewrite alloc_rows_spec
                |rewrite view_fresh]; simpl).
  unfold loaded. by destruct rows.
Qed.

Lemma gui_load_other t s data :
  disk s !! file_path s t = Some (Json data) →
  (∀ items, data ≠ JArr items) →
  (∀ members, data ≠ JObj members) →
  Gui.load_table t s = (Raise (ValueError UnsupportedFormat), s).
Proof.
  intros Hd Ha Ho. unfold Gui.load_table, Gui._path. munfold.
  repeat (rewrite Hd; simpl). destruct data; try done.
  - by destruct (Ha items).
  - by destruct (Ho members).
Qed.

Lemma terminal_load_legacy t s items rows :
  disk s !! file_path s t = Some (Json (JArr items)) →
  load_rows items = Some rows →
  Terminal.load_table t s
  = (Ok tt,
     emit (EPrint (MsgLoaded t))
       (upd_tables (base.insert t (seq (length (heap s)) (length rows)))
          (set_heap (heap s ++ rows) s))).
Proof.
  intros Hd Hl.
  unfold Terminal.load_table, Terminal._path, Terminal.print, rows_of.
  munfold.
  repeat (first [rewrite Hd|rewrite Hl|rewrite alloc_rows_spec]; simpl).
  done.
Qed.

(** C1, as stated, fails: written and loaded again, a schema that
    declares a Boolean column comes back declaring that column [Any]. *)
Lemma bool_kind_lost_on_reload :
  let s1 := snd (Gui._save "t" bool_schema_state) in
  let s2 := snd (Gui.load_table "t" s1) in
  fst (Gui._save "t" bool_schema_state) = Ok tt ∧
  fst (Gui.load_table "t" s1) = Ok tt ∧
  schemas (self bool_schema_state) !! "t" = Some [("flag", Some TBool)] ∧
  schemas (self s2) !! "t" = Some [("flag", None)].
Proof. vm_compute. repeat split; reflexivity. Qed.

(** C1, amended. For every table of the GUI edition with a bound schema
    that declares no Boolean column (the kinds are Integer, Float, Text
    and Any) and any row sequence, writing the table with [_save] and then
    loading it with [load_table] both succeed and yield a schema equal to
    the one before the write and a row sequence whose records are equal,
    in order, to the ones before the write. *)
Theorem save_load_roundtrip (s : state) (t : string)
    (sch : list (string * option pytype)) (rows : list nat) :
  tables (self s) !! t = Some rows →
  schemas (self s) !! t = Some sch →
  wf_dict sch →
  Forall (fun cd => persistent_kind (snd cd)) sch →
  ∃ s1 s2 rows',
    Gui._save t s = (Ok tt, s1) ∧
    Gui.load_table t s1 = (Ok tt, s2) ∧
    schemas (self s2) !! t = Some sch ∧
    tables (self s2) !! t = Some rows' ∧
    view (heap s2) rows' = view (heap s) rows.
Proof.
  intros Ht Hs Hwf Hk.
  pose proof (parse_render_schema sch Hwf Hk) as Hp.
  destruct (render_schema sch) as [| | | | | |schema_data] eqn:Hr; try done.
  set (doc := Gui.document sch (view (heap s) rows)).
  set (s1 := emit (EWrite (file_path s t) (Json doc)) s).
  assert (Hsave : Gui._save t s = (Ok tt, s1)).
  { rewrite (gui_save_ok t s rows Ht). unfold schema_of. by rewrite Hs. }
  assert (Hload : Gui.load_table t s1
                  = (Ok tt, loaded t (Gui.parse_schema schema_data)
                              (view (heap s) rows) s1)).
  { eapply gui_load_current.
    - unfold s1, emit. simpl. apply lookup_insert_eq.
    - unfold doc, Gui.document, Gui.member. simpl. exact Hr.
    - unfold doc, Gui.document, Gui.member, dump_rows. simpl. reflexivity.
    - apply load_dump_rows. }
  destruct (loaded_rows t (Gui.parse_schema schema_data)
              (view (heap s) rows) s1) as (rows' & Hrows' & Hview).
  exists s1, (loaded t (Gui.parse_schema schema_data) (view (heap s) rows) s1),
    rows'.
  repeat split; try done.
  by rewrite loaded_schema, Hp.
Qed.

Lemma save_load_roundtrip_witness :
  let s := mkState (mkMDB "data" ".mdb" {[ "users" := [0%nat; 1%nat] ]}
                      {[ "users" := [("id", Some TInt); ("name", Some TStr);
                                     ("note", None)] ]} ∅)
             [[("id", VInt 1); ("name", VStr "Alice"); ("note", VNone)];
              [("id", VInt 2); ("name", VStr "Bob"); ("note", VBool true)]]
             ∅ [] in
  ∃ s1 s2 rows',
    Gui._save "users" s = (Ok tt, s1) ∧
    Gui.load_table "users" s1 = (Ok tt, s2) ∧
    schemas (self s2) !! "users"
    = Some [("id", Some TInt); ("name", Some TStr); ("note", None)] ∧
    tables (self s2) !! "users" = Some rows' ∧
    view (heap s2) rows' = view (heap s) [0%nat; 1%nat].
Proof.
  intros s.
  apply (save_load_roundtrip s "users"
           [("id", Some TInt); ("name", Some TStr); ("note", None)]
           [0%nat; 1%nat] eq_refl eq_refl).
  - unfold wf_dict. refine (bool_decide_unpack (NoDup _) _).
    vm_compute. exact I.
  - repeat constructor; discriminate.
Defined.

(* ===================================================================== *)
(** ** Format detection on load *)
(* ===================================================================== *)

(** C4, as stated, fails: from a Boolean in the first legacy record the
    GUI edition infers the kind Integer, not [Any]; and the terminal
    edition accepts the rows without inferring any schema. *)
Lemma legacy_bool_inferred_integer :
  fst (Gui.load_table "t" legacy_bool_state) = Ok tt ∧
  schemas (self (snd (Gui.load_table "t" legacy_bool_state))) !! "t"
  = Some [("flag", Some TInt)] ∧
  fst (Terminal.load_table "t" legacy_bool_state) = Ok tt ∧
  schemas (self (snd (Terminal.load_table "t" legacy_bool_state))) !! "t"
  = None.
Proof. vm_compute. repeat split; reflexivity. Qed.

(** C4, amended. For every persisted file holding a JSON document, the
    GUI edition's [load_table] detects the format.
    - A bare list of records (Legacy) is accepted: the rows are the
      records of the list and the schema is inferred from the first
      record, column by column: an Integer or a Boolean value gives
      Integer, a Float gives Float, a Text gives Text, [None] gives [Any];
      an empty list gives the empty schema.
    - An object (Current) whose [schema] member is an object and whose
      [rows] member is a list of records is accepted (an absent [schema]
      counts as empty, absent [rows] as an empty list): the rows are those
      records and each column's kind is read from its name, ["int"],
      ["float"] or ["str"], anything else being [Any].
    - Any other top-level shape fails with the [ValueError] of an
      unsupported format, and the state is unchanged.
    The terminal edition's [load_table] accepts a bare list of records
    as the rows and leaves the schemas as they are. *)
Theorem load_table_formats (s : state) (t : string) (data : json) :
  disk s !! file_path s t = Some (Json data) →
  (∀ items rows,
     data = JArr items → load_rows items = Some rows →
     match rows with first :: _ => wf_dict first | [] => True end →
     ∃ s' locs,
       Gui.load_table t s = (Ok tt, s') ∧
       tables (self s') !! t = Some locs ∧
       view (heap s') locs = rows ∧
       schemas (self s') !! t
       = Some (match rows with
               | first :: _ =>
                   map (fun kv => (fst kv, legacy_kind (snd kv))) first
               | [] => []
               end)) ∧
  (∀ members schema_data items rows,
     data = JObj members →
     Gui.member "schema" (JObj []) members = JObj schema_data →
     wf_dict schema_data →
     Gui.member "rows" (JArr []) members = JArr items →
     load_rows items = Some rows →
     ∃ s' locs,
       Gui.load_table t s = (Ok tt, s') ∧
       tables (self s') !! t = Some locs ∧
       view (heap s') locs = rows ∧
       schemas (self s') !! t
       = Some (map (fun kv => (fst kv, Gui.parse_kind (snd kv))) schema_data)) ∧
  ((∀ items, data ≠ JArr items) → (∀ members, data ≠ JObj members) →
   Gui.load_table t s = (Raise (ValueError UnsupportedFormat), s)) ∧
  (∀ items rows,
     data = JArr items → load_rows items = Some rows →
     ∃ s' locs,
       Terminal.load_table t s = (Ok tt, s') ∧
       tables (self s') !! t = Some locs ∧
       view (heap s') locs = rows ∧
       schemas (self s') = schemas (self s)).
Proof.
  intros Hd. split; [|split; [|split]].
  - intros items rows -> Hl Hwf.
    pose proof (gui_load_legacy t s items rows Hd Hl) as Hload.
    destruct (loaded_rows t (match rows with
                             | first :: _ => Gui.infer_schema first
                             | [] => []
                             end) rows s) as (locs & Hlocs & Hview).
    eexists _, locs. split; [exact Hload|].
    split; [exact Hlocs|]. split; [exact Hview|].
    rewrite loaded_schema. destruct rows as [|first rows]; [done|].
    by rewrite infer_schema_map.
  - intros members schema_data items rows -> Hs Hwf Hr Hl.
    pose proof (gui_load_current t s members schema_data items rows
                  Hd Hs Hr Hl) as Hload.
    destruct (loaded_rows t (Gui.parse_schema schema_data) rows s)
      as (locs & Hlocs & Hview).
    eexists _, locs. split; [exact Hload|].
    split; [exact Hlocs|]. split; [exact Hview|].
    by rewrite loaded_schema, parse_schema_map.
  - by apply gui_load_other.
  - intros items rows -> Hl. eexists _, _.
    rewrite (terminal_load_legacy t s items rows Hd Hl).
    split; [reflexivity|]. simpl. rewrite lookup_insert_eq.
    split; [done|]. split; [apply view_fresh|done].
Qed.

Lemma load_table_formats_witness :
  (∃ s' locs,
     Gui.load_table "t" legacy_file_state = (Ok tt, s') ∧
     tables (self s') !! "t" = Some locs ∧
     view (heap s') locs
     = [[("id", VInt 1); ("ok", VBool true); ("name", VStr "Ann");
         ("note", VNone)];
        [("id", VInt 2)]] ∧
     schemas (self s') !! "t"
     = Some [("id", Some TInt); ("ok", Some TInt); ("name", Some TStr);
             ("note", None)]) ∧
  (∃ s' locs,
     Gui.load_table "t" current_file_state = (Ok tt, s') ∧
     tables (self s') !! "t" = Some locs ∧
     view (heap s') locs = [[("id", VInt 1); ("ok", VBool true); ("note", VNone)]] ∧
     schemas (self s') !! "t"
     = Some [("id", Some TInt); ("ok", None); ("note", None)]) ∧
  Gui.load_table "t" string_file_state
  = (Raise (ValueError UnsupportedFormat), string_file_state).
Proof.
  split; [|split].
  - refine (proj1 (load_table_formats legacy_file_state "t" _ eq_refl)
              _ _ eq_refl eq_refl _).
    refine (bool_decide_unpack (NoDup _) _). vm_compute. exact I.
  - refine (proj1 (proj2 (load_table_formats current_file_state "t" _ eq_refl))
              _ _ _ _ eq_refl eq_refl _ eq_refl eq_refl).
    refine (bool_decide_unpack (NoDup _) _). vm_compute. exact I.
  - apply (proj1 (proj2 (proj2
             (load_table_formats string_file_state "t" _ eq_refl))));
      discriminate.
Defined.

(* ===================================================================== *)
(** ** The equations of the calls *)
(* ===================================================================== *)

Lemma gui_save_live t s :
  is_Some (tables (self s) !! t) → Gui._save t s = (Ok tt, gui_saved t s).
Proof.
  intros [rows Ht]. rewrite (gui_save_ok t s rows Ht).
  unfold gui_saved, gui_write. by rewrite Ht.
Qed.

Lemma terminal_save_live t s :
  is_Some (tables (self s) !! t) →
  Terminal._save t s = (Ok tt, terminal_saved t s).
Proof.
  intros [rows Ht]. unfold Terminal._save, Terminal._path. munfold.
  rewrite Ht. unfold terminal_saved, terminal_write. by rewrite Ht.
Qed.

Lemma terminal_save_missing t s :
  tables (self s) !! t = None →
  Terminal._save t s
  = (Raise (KeyError t), emit (EWrite (file_path s t) Empty) s).
Proof.
  intros Ht. unfold Terminal._save, Terminal._path. munfold. by rewrite Ht.
Qed.

(** [create_table] *)

Lemma created_live t sch s : tables (self (created t sch s)) !! t = Some [].
Proof.
  unfold created. destruct (truthy_schema sch); simpl; apply lookup_insert_eq.
Qed.

Lemma gui_create_table_eq t sch s :
  Gui.create_table t sch s
  = match tables (self s) !! t with
    | Some _ => (Raise (ValueError (AlreadyExists t)), s)
    | None => (Ok tt, gui_saved t (created t sch s))
    end.
Proof.
  unfold Gui.create_table. munfold.
  destruct (tables (self s) !! t) eqn:Ht; [done|].
  pose proof (gui_save_live t (created t sch s)) as Hs.
  rewrite created_live in Hs. specialize (Hs (mk_is_Some _ _ eq_refl)).
  unfold created in *. destruct (truthy_schema sch); by rewrite Hs.
Qed.

Lemma terminal_create_table_eq t sch s :
  Terminal.create_table t sch s
  = match tables (self s) !! t with
    | Some _ => (Raise (ValueError (AlreadyExists t)), s)
    | None =>
        (Ok tt,
         emit (EPrint (MsgCreated t sch)) (terminal_saved t (created t sch s)))
    end.
Proof.
  unfold Terminal.create_table, Terminal.print. munfold.
  destruct (tables (self s) !! t) eqn:Ht; [done|].
  pose proof (terminal_save_live t (created t sch s)) as Hs.
  rewrite created_live in Hs. specialize (Hs (mk_is_Some _ _ eq_refl)).
  unfold created in *. destruct (truthy_schema sch); by rewrite Hs.
Qed.

(** [drop_table] *)

Lemma gui_drop_table_eq t s :
  Gui.drop_table t s
  = match tables (self s) !! t with
    | Some _ => (Ok tt, dropped t s)
    | None => (Raise (ValueError (DoesNotExist t)), s)
    end.
Proof.
  unfold Gui.drop_table, Gui._check_table_exists, Gui._path, dropped. munfold.
  destruct (tables (self s) !! t); [|done]. simpl.
  destruct (schemas (self s) !! t); simpl;
    match goal with |- context [disk s !! ?p] => destruct (disk s !! p) end;
    done.
Qed.

Lemma terminal_drop_table_eq t s :
  Terminal.drop_table t s
  = match tables (self s) !! t with
    | Some _ => (Ok tt, emit (EPrint (MsgDropped t)) (dropped t s))
    | None => (Raise (ValueError (DoesNotExist t)), s)
    end.
Proof.
  unfold Terminal.drop_table, Terminal._check_table_exists, Terminal._path,
    Terminal.print, dropped.
  munfold.
  destruct (tables (self s) !! t); [|done]. simpl.
  destruct (schemas (self s) !! t); simpl;
    match goal with |- context [disk s !! ?p] => destruct (disk s !! p) end;
    done.
Qed.

(** [insert] *)

Lemma gui_insert_eq t record key s :
  Gui.insert t record key s
  = match insert_checks t record key s with
    | inl e => (Raise e, s)
    | inr rows => (Ok tt, gui_saved t (inserted t rows record s))
    end.
Proof.
  unfold Gui.insert, Gui._check_table_exists, insert_checks. munfold.
  destruct (tables (self s) !! t) as [rows|] eqn:Ht; [|done].
  assert (Hs : Gui._save t (inserted t rows record s)
               = (Ok tt, gui_saved t (inserted t rows record s))).
  { apply gui_save_live. unfold inserted. simpl.
    rewrite lookup_insert_eq. by eexists. }
  destruct (validate_record_pure t record s) as [->|(e & He & ->)]; simpl;
    [|by destruct e as [[]| | | | | | |]].
  destruct (truthy_key key) as [k|].
  - rewrite Ht.
    destruct (check_duplicates_pure k (deref (heap s) record)
                (view (heap s) rows) s) as [->|(e & He & ->)]; simpl;
      [|by destruct e as [[]| | | | | | |]].
    rewrite Ht. unfold inserted in Hs. by rewrite Hs.
  - rewrite Ht. unfold inserted in Hs. by rewrite Hs.
Qed.

Lemma terminal_insert_eq t record key s :
  Terminal.insert t record key s
  = match insert_checks t record key s with
    | inl e => (Raise e, s)
    | inr rows =>
        (Ok tt,
         emit (EPrint (MsgInserted t (deref (heap s) record)))
           (terminal_saved t (inserted t rows record s)))
    end.
Proof.
  unfold Terminal.insert, Terminal._check_table_exists, Terminal.print,
    insert_checks.
  munfold.
  destruct (tables (self s) !! t) as [rows|] eqn:Ht; [|done].
  assert (Hs : Terminal._save t (inserted t rows record s)
               = (Ok tt, terminal_saved t (inserted t rows record s))).
  { apply terminal_save_live. unfold inserted. simpl.
    rewrite lookup_insert_eq. by eexists. }
  rewrite terminal_validate_record.
  destruct (validate_record_pure t record s) as [->|(e & He & ->)]; simpl;
    [|by destruct e as [[]| | | | | | |]].
  destruct (truthy_key key) as [k|].
  - rewrite Ht.
    destruct (check_duplicates_pure k (deref (heap s) record)
                (view (heap s) rows) s) as [->|(e & He & ->)]; simpl;
      [|by destruct e as [[]| | | | | | |]].
    rewrite Ht. unfold inserted in Hs. by rewrite Hs.
  - rewrite Ht. unfold inserted in Hs. by rewrite Hs.
Qed.

(** [update] *)

Lemma gui_update_eq t cs us s :
  Gui.update t cs us s
  = match tables (self s) !! t with
    | Some rows =>
        (Ok (VInt (updated_count cs us rows s)),
         gui_saved t (updated t cs us rows s))
    | None => (Raise (ValueError (DoesNotExist t)), s)
    end.
Proof.
  unfold Gui.update, Gui._check_table_exists, updated, updated_count. munfold.
  destruct (tables (self s) !! t) as [rows|] eqn:Ht; [|done].
  repeat (rewrite Ht; simpl).
  destruct (update_rows cs us rows (heap s) 0) as [h' n] eqn:Hu. simpl.
  rewrite gui_save_live; [done|]. simpl. by rewrite Ht.
Qed.

Lemma terminal_update_eq t cs us s :
  Terminal.update t cs us s
  = match tables (self s) !! t with
    | Some rows =>
        (Ok VNone,
         emit (EPrint (MsgUpdated (updated_count cs us rows s) t))
           (terminal_saved t (updated t cs us rows s)))
    | None => (Raise (ValueError (DoesNotExist t)), s)
    end.
Proof.
  unfold Terminal.update, Terminal._check_table_exists, Terminal.print,
    updated, updated_count.
  munfold.
  destruct (tables (self s) !! t) as [rows|] eqn:Ht; [|done].
  repeat (rewrite Ht; simpl).
  destruct (update_rows cs us rows (heap s) 0) as [h' n] eqn:Hu. simpl.
  rewrite terminal_save_live; [done|]. simpl. by rewrite Ht.
Qed.

(** [delete] *)

Lemma gui_delete_eq t cs s :
  Gui.delete t cs s
  = if kwargs_ok cs then
      match tables (self s) !! t with
      | Some rows =>
          (Ok (VInt (deleted_count cs rows s)),
           gui_saved t (deleted t cs rows s))
      | None => (Raise (ValueError (DoesNotExist t)), s)
      end
    else (Raise TypeErrorMultipleValues, s).
Proof.
  unfold Gui.delete, Gui._check_table_exists, deleted, deleted_count,
    bind_kwargs.
  munfold.
  destruct (kwargs_ok cs); simpl; [|done].
  destruct (tables (self s) !! t) as [rows|] eqn:Ht; [|done].
  repeat (rewrite Ht; simpl). rewrite lookup_insert_eq.
  rewrite gui_save_live; [done|]. simpl. rewrite lookup_insert_eq. by eexists.
Qed.

Lemma terminal_delete_eq t cs s :
  Terminal.delete t cs s
  = if kwargs_ok cs then
      match tables (self s) !! t with
      | Some rows =>
          (Ok VNone,
           emit (EPrint (MsgDeleted (deleted_count cs rows s) t))
             (terminal_saved t (deleted t cs rows s)))
      | None => (Raise (ValueError (DoesNotExist t)), s)
      end
    else (Raise TypeErrorMultipleValues, s).
Proof.
  unfold Terminal.delete, Terminal._check_table_exists, Terminal.print,
    deleted, deleted_count, bind_kwargs.
  munfold.
  destruct (kwargs_ok cs); simpl; [|done].
  destruct (tables (self s) !! t) as [rows|] eqn:Ht; [|done].
  repeat (rewrite Ht; simpl). rewrite lookup_insert_eq.
  rewrite terminal_save_live; [done|]. simpl. rewrite lookup_insert_eq.
  by eexists.
Qed.

(** [backup_table] *)

Lemma gui_backup_table_eq t stamp s :
  Gui.backup_table t stamp s
  = match tables (self s) !! t with
    | Some _ => (Ok tt, emit (gui_write (backup_path t stamp s) t s) s)
    | None => (Raise (ValueError (DoesNotExist t)), s)
    end.
Proof.
  unfold Gui.backup_table, Gui._check_table_exists, Gui._path, gui_write,
    backup_path.
  munfold.
  destruct (tables (self s) !! t) as [rows|] eqn:Ht; [|done].
  by repeat (rewrite Ht; simpl).
Qed.

Lemma terminal_backup_table_eq t stamp s :
  Terminal.backup_table t stamp s
  = match tables (self s) !! t with
    | Some _ =>
        (Ok tt,
         emit (EPrint (MsgBackup t (backup_path t stamp s)))
           (emit (terminal_write (backup_path t stamp s) t s) s))
    | None => (Raise (ValueError (DoesNotExist t)), s)
    end.
Proof.
  unfold Terminal.backup_table, Terminal._check_table_exists, Terminal._path,
    Terminal.print, terminal_write, backup_path.
  munfold.
  destruct (tables (self s) !! t) as [rows|] eqn:Ht; [|done].
  by repeat (rewrite Ht; simpl).
Qed.

(** [export_csv] *)

Lemma gui_export_csv_eq t csv_path s :
  Gui.export_csv t csv_path s
  = match tables (self s) !! t with
    | Some rows =>
        (if export_complete rows s then Ok tt
         else Raise (ValueError ExtraFields),
         exported csv_path rows s)
    | None => (Raise (ValueError (DoesNotExist t)), s)
    end.
Proof.
  unfold Gui.export_csv, Gui._check_table_exists, exported, export_complete,
    csv_document.
  munfold.
  destruct (tables (self s) !! t) as [rows|] eqn:Ht; [|done].
  repeat (rewrite Ht; simpl). destruct rows as [|first rows]; [done|].
  destruct (csv_lines (map fst (deref (heap s) first))
              (view (heap s) (first :: rows))) as [lines complete].
  simpl. by destruct complete.
Qed.

Lemma terminal_export_csv_eq t csv_path s :
  Terminal.export_csv t csv_path s
  = match tables (self s) !! t with
    | Some rows =>
        if export_complete rows s
        then (Ok tt,
              emit (EPrint (match rows with
                            | [] => MsgNoData
                            | _ :: _ => MsgExported t csv_path
                            end)) (exported csv_path rows s))
        else (Raise (ValueError ExtraFields), exported csv_path rows s)
    | None => (Raise (ValueError (DoesNotExist t)), s)
    end.
Proof.
  unfold Terminal.export_csv, Terminal._check_table_exists, Terminal.print,
    exported, export_complete, csv_document.
  munfold.
  destruct (tables (self s) !! t) as [rows|] eqn:Ht; [|done].
  repeat (rewrite Ht; simpl). destruct rows as [|first rows]; [done|].
  destruct (csv_lines (map fst (deref (heap s) first))
              (view (heap s) (first :: rows))) as [lines complete].
  simpl. by destruct complete.
Qed.

Arguments exported : simpl never.
Arguments export_complete : simpl never.

Lemma exported_self p rows s : self (exported p rows s) = self s.
Proof. by destruct rows. Qed.

Lemma exported_heap p rows s : heap (exported p rows s) = heap s.
Proof. by destruct rows. Qed.

(** [begin_transaction] *)

Lemma gui_begin_transaction_eq t s :
  Gui.begin_transaction t s
  = match tables (self s) !! t with
    | Some rows => (Ok tt, begun t rows s)
    | None => (Raise (ValueError (DoesNotExist t)), s)
    end.
Proof.
  unfold Gui.begin_transaction, Gui._check_table_exists, begun. munfold.
  destruct (tables (self s) !! t) as [rows|] eqn:Ht; [|done].
  repeat (rewrite Ht; simpl). by destruct (deepcopy_rows ∅ rows (heap s)).
Qed.

Lemma terminal_begin_transaction_eq t s :
  Terminal.begin_transaction t s
  = match tables (self s) !! t with
    | Some rows => (Ok tt, emit (EPrint (MsgTxStarted t)) (begun t rows s))
    | None => (Raise (ValueError (DoesNotExist t)), s)
    end.
Proof.
  unfold Terminal.begin_transaction, Terminal._check_table_exists,
    Terminal.print, begun.
  munfold.
  destruct (tables (self s) !! t) as [rows|] eqn:Ht; [|done].
  repeat (rewrite Ht; simpl). by destruct (deepcopy_rows ∅ rows (heap s)).
Qed.

(** [rollback] and [commit] *)

Lemma gui_rollback_eq t s :
  Gui.rollback t s
  = match _transactions (self s) !! t with
    | Some snapshot => (Ok tt, rolled_back t snapshot s)
    | None => (Ok tt, s)
    end.
Proof.
  unfold Gui.rollback, rolled_back. munfold.
  by destruct (_transactions (self s) !! t).
Qed.

Lemma terminal_rollback_eq t s :
  Terminal.rollback t s
  = match _transactions (self s) !! t with
    | Some snapshot =>
        (Ok tt, emit (EPrint (MsgTxRolledBack t)) (rolled_back t snapshot s))
    | None => (Ok tt, emit (EPrint (MsgNoActiveTx t)) s)
    end.
Proof.
  unfold Terminal.rollback, Terminal.print, rolled_back. munfold.
  by destruct (_transactions (self s) !! t).
Qed.

Lemma gui_commit_eq t s :
  Gui.commit t s
  = match _transactions (self s) !! t with
    | Some _ =>
        match tables (self s) !! t with
        | Some _ => (Ok tt, gui_saved t (committed t s))
        | None => (Raise (KeyError t), committed t s)
        end
    | None => (Ok tt, s)
    end.
Proof.
  unfold Gui.commit, committed. munfold.
  destruct (_transactions (self s) !! t); [|done].
  destruct (tables (self s) !! t) eqn:Ht.
  - rewrite gui_save_live; [done|]. simpl. by rewrite Ht.
  - rewrite gui_save_missing; done.
Qed.

Lemma terminal_commit_eq t s :
  Terminal.commit t s
  = match _transactions (self s) !! t with
    | Some _ =>
        match tables (self s) !! t with
        | Some _ =>
            (Ok tt,
             emit (EPrint (MsgTxCommitted t)) (terminal_saved t (committed t s)))
        | None =>
            (Raise (KeyError t),
             emit (EWrite (file_path s t) Empty) (committed t s))
        end
    | None => (Ok tt, emit (EPrint (MsgNoActiveTx t)) s)
    end.
Proof.
  unfold Terminal.commit, Terminal.print, committed. munfold.
  destruct (_transactions (self s) !! t); [|done].
  destruct (tables (self s) !! t) eqn:Ht.
  - rewrite terminal_save_live; [done|]. simpl. by rewrite Ht.
  - rewrite terminal_save_missing; done.
Qed.

(* ===================================================================== *)
(** ** The equations of the calls on a host *)
(* ===================================================================== *)

Arguments written_on : simpl never.

Lemma gui_save_on_live io t s :
  is_Some (tables (self s) !! t) →
  GuiIO._save io t s = written_on io (file_path s t) tt (gui_saved t s) s.
Proof.
  intros [rows Ht].
  unfold GuiIO._save, Gui._path, write_json, written_on, gui_saved, gui_write.
  munfold. rewrite Ht. simpl. by destruct (on_write io (file_path s t)).
Qed.

Lemma gui_save_on_missing io t s :
  tables (self s) !! t = None → GuiIO._save io t s = (Raise (KeyError t), s).
Proof.
  intros Ht. unfold GuiIO._save, Gui._path. munfold. by rewrite Ht.
Qed.

Lemma terminal_save_on_live io t s :
  is_Some (tables (self s) !! t) →
  TerminalIO._save io t s
  = written_on io (file_path s t) tt (terminal_saved t s) s.
Proof.
  intros [rows Ht].
  unfold TerminalIO._save, Terminal._path, written_on, terminal_saved,
    terminal_write.
  munfold. destruct (on_write io (file_path s t)); by rewrite ?Ht.
Qed.

Lemma terminal_save_on_missing io t s :
  tables (self s) !! t = None →
  TerminalIO._save io t s
  = match on_write io (file_path s t) with
    | OpenFails => (Raise IOFailure, s)
    | _ => (Raise (KeyError t), emit (EWrite (file_path s t) Empty) s)
    end.
Proof.
  intros Ht. unfold TerminalIO._save, Terminal._path. munfold.
  destruct (on_write io (file_path s t)); by rewrite ?Ht.
Qed.

Lemma file_path_created t sch s t' :
  file_path (created t sch s) t' = file_path s t'.
Proof. unfold created. by destruct (truthy_schema sch). Qed.

(** [create_table] *)

Lemma gui_create_table_on_eq io t sch s :
  GuiIO.create_table io t sch s
  = match tables (self s) !! t with
    | Some _ => (Raise (ValueError (AlreadyExists t)), s)
    | None =>
        written_on io (file_path s t) tt
          (gui_saved t (created t sch s)) (created t sch s)
    end.
Proof.
  unfold GuiIO.create_table. munfold.
  destruct (tables (self s) !! t) eqn:Ht; [done|].
  pose proof (gui_save_on_live io t (created t sch s)) as Hs.
  rewrite created_live, file_path_created in Hs.
  specialize (Hs (mk_is_Some _ _ eq_refl)).
  unfold created in *. destruct (truthy_schema sch); by rewrite Hs.
Qed.

Lemma terminal_create_table_on_eq io t sch s :
  TerminalIO.create_table io t sch s
  = match tables (self s) !! t with
    | Some _ => (Raise (ValueError (AlreadyExists t)), s)
    | None =>
        written_on io (file_path s t) tt
          (emit (EPrint (MsgCreated t sch)) (terminal_saved t (created t sch s)))
          (created t sch s)
    end.
Proof.
  unfold TerminalIO.create_table, Terminal.print. munfold.
  destruct (tables (self s) !! t) eqn:Ht; [done|].
  pose proof (terminal_save_on_live io t (created t sch s)) as Hs.
  rewrite created_live, file_path_created in Hs.
  specialize (Hs (mk_is_Some _ _ eq_refl)).
  unfold created in *. unfold written_on in *.
  destruct (truthy_schema sch); rewrite Hs;
    by destruct (on_write io (file_path s t)).
Qed.

(** [drop_table] *)

Lemma gui_drop_table_on_eq io t s :
  GuiIO.drop_table io t s
  = match tables (self s) !! t with
    | Some _ =>
        match disk s !! file_path s t with
        | Some _ =>
            if on_remove io (file_path s t) then (Ok tt, dropped t s)
            else (Raise IOFailure, unregistered t s)
        | None => (Ok tt, dropped t s)
        end
    | None => (Raise (ValueError (DoesNotExist t)), s)
    end.
Proof.
  unfold GuiIO.drop_table, Gui._check_table_exists, Gui._path, dropped,
    unregistered, remove.
  munfold.
  destruct (tables (self s) !! t); [|done]. simpl.
  destruct (schemas (self s) !! t); simpl;
    change (file_path _ t) with (file_path s t);
    destruct (disk s !! file_path s t); try done;
    by destruct (on_remove io (file_path s t)).
Qed.

Lemma terminal_drop_table_on_eq io t s :
  TerminalIO.drop_table io t s
  = match tables (self s) !! t with
    | Some _ =>
        match disk s !! file_path s t with
        | Some _ =>
            if on_remove io (file_path s t)
            then (Ok tt, emit (EPrint (MsgDropped t)) (dropped t s))
            else (Raise IOFailure, unregistered t s)
        | None => (Ok tt, emit (EPrint (MsgDropped t)) (dropped t s))
        end
    | None => (Raise (ValueError (DoesNotExist t)), s)
    end.
Proof.
  unfold TerminalIO.drop_table, Terminal._check_table_exists, Terminal._path,
    Terminal.print, dropped, unregistered, remove.
  munfold.
  destruct (tables (self s) !! t); [|done]. simpl.
  destruct (schemas (self s) !! t); simpl;
    change (file_path _ t) with (file_path s t);
    destruct (disk s !! file_path s t); try done;
    by destruct (on_remove io (file_path s t)).
Qed.

(** [insert] *)

Lemma gui_insert_on_eq io t record key s :
  GuiIO.insert io t record key s
  = match insert_checks t record key s with
    | inl e => (Raise e, s)
    | inr rows =>
        written_on io (file_path s t) tt
          (gui_saved t (inserted t rows record s)) (inserted t rows record s)
    end.
Proof.
  unfold GuiIO.insert, Gui._check_table_exists, insert_checks. munfold.
  destruct (tables (self s) !! t) as [rows|] eqn:Ht; [|done].
  assert (Hs : GuiIO._save io t (inserted t rows record s)
               = written_on io (file_path s t) tt
                   (gui_saved t (inserted t rows record s))
                   (inserted t rows record s)).
  { rewrite gui_save_on_live; [done|]. unfold inserted. simpl.
    rewrite lookup_insert_eq. by eexists. }
  destruct (validate_record_pure t record s) as [->|(e & He & ->)]; simpl;
    [|by destruct e as [[]| | | | | | |]].
  destruct (truthy_key key) as [k|].
  - rewrite Ht.
    destruct (check_duplicates_pure k (deref (heap s) record)
                (view (heap s) rows) s) as [->|(e & He & ->)]; simpl;
      [|by destruct e as [[]| | | | | | |]].
    rewrite Ht. unfold inserted in Hs. by rewrite Hs.
  - rewrite Ht. unfold inserted in Hs. by rewrite Hs.
Qed.

Lemma terminal_insert_on_eq io t record key s :
  TerminalIO.insert io t record key s
  = match insert_checks t record key s with
    | inl e => (Raise e, s)
    | inr rows =>
        written_on io (file_path s t) tt
          (emit (EPrint (MsgInserted t (deref (heap s) record)))
             (terminal_saved t (inserted t rows record s)))
          (inserted t rows record s)
    end.
Proof.
  unfold TerminalIO.insert, Terminal._check_table_exists, Terminal.print,
    insert_checks.
  munfold.
  destruct (tables (self s) !! t) as [rows|] eqn:Ht; [|done].
  assert (Hs : TerminalIO._save io t (inserted t rows record s)
               = written_on io (file_path s t) tt
                   (terminal_saved t (inserted t rows record s))
                   (inserted t rows record s)).
  { rewrite terminal_save_on_live; [done|]. unfold inserted. simpl.
    rewrite lookup_insert_eq. by eexists. }
  rewrite terminal_validate_record.
  destruct (validate_record_pure t record s) as [->|(e & He & ->)]; simpl;
    [|by destruct e as [[]| | | | | | |]].
  unfold written_on in *.
  destruct (truthy_key key) as [k|].
  - rewrite Ht.
    destruct (check_duplicates_pure k (deref (heap s) record)
                (view (heap s) rows) s) as [->|(e & He & ->)]; simpl;
      [|by destruct e as [[]| | | | | | |]].
    rewrite Ht. unfold inserted in Hs. rewrite Hs.
    by destruct (on_write io (file_path s t)).
  - rewrite Ht. unfold inserted in Hs. rewrite Hs.
    by destruct (on_write io (file_path s t)).
Qed.

(** [update] *)

Lemma gui_update_on_eq io t cs us s :
  GuiIO.update io t cs us s
  = match tables (self s) !! t with
    | Some rows =>
        written_on io (file_path s t) (VInt (updated_count cs us rows s))
          (gui_saved t (updated t cs us rows s)) (updated t cs us rows s)
    | None => (Raise (ValueError (DoesNotExist t)), s)
    end.
Proof.
  unfold GuiIO.update, Gui._check_table_exists, updated, updated_count.
  munfold.
  destruct (tables (self s) !! t) as [rows|] eqn:Ht; [|done].
  repeat (rewrite Ht; simpl).
  destruct (update_rows cs us rows (heap s) 0) as [h' n] eqn:Hu. simpl.
  rewrite gui_save_on_live by (simpl; by rewrite Ht).
  unfold written_on. change (file_path (set_heap h' s) t) with (file_path s t).
  by destruct (on_write io (file_path s t)).
Qed.

Lemma terminal_update_on_eq io t cs us s :
  TerminalIO.update io t cs us s
  = match tables (self s) !! t with
    | Some rows =>
        written_on io (file_path s t) VNone
          (emit (EPrint (MsgUpdated (updated_count cs us rows s) t))
             (terminal_saved t (updated t cs us rows s)))
          (updated t cs us rows s)
    | None => (Raise (ValueError (DoesNotExist t)), s)
    end.
Proof.
  unfold TerminalIO.update, Terminal._check_table_exists, Terminal.print,
    updated, updated_count.
  munfold.
  destruct (tables (self s) !! t) as [rows|] eqn:Ht; [|done].
  repeat (rewrite Ht; simpl).
  destruct (update_rows cs us rows (heap s) 0) as [h' n] eqn:Hu. simpl.
  rewrite terminal_save_on_live by (simpl; by rewrite Ht).
  unfold written_on. change (file_path (set_heap h' s) t) with (file_path s t).
  by destruct (on_write io (file_path s t)).
Qed.

(** [delete] *)

Lemma gui_delete_on_eq io t cs s :
  GuiIO.delete io t cs s
  = if kwargs_ok cs then
      match tables (self s) !! t with
      | Some rows =>
          written_on io (file_path s t) (VInt (deleted_count cs rows s))
            (gui_saved t (deleted t cs rows s)) (deleted t cs rows s)
      | None => (Raise (ValueError (DoesNotExist t)), s)
      end
    else (Raise TypeErrorMultipleValues, s).
Proof.
  unfold GuiIO.delete, Gui._check_table_exists, deleted, deleted_count,
    bind_kwargs.
  munfold.
  destruct (kwargs_ok cs); simpl; [|done].
  destruct (tables (self s) !! t) as [rows|] eqn:Ht; [|done].
  repeat (rewrite Ht; simpl). rewrite lookup_insert_eq.
  rewrite gui_save_on_live by (simpl; rewrite lookup_insert_eq; by eexists).
  unfold written_on.
  change (file_path (upd_tables _ s) t) with (file_path s t).
  by destruct (on_write io (file_path s t)).
Qed.

Lemma terminal_delete_on_eq io t cs s :
  TerminalIO.delete io t cs s
  = if kwargs_ok cs then
      match tables (self s) !! t with
      | Some rows =>
          written_on io (file_path s t) VNone
            (emit (EPrint (MsgDeleted (deleted_count cs rows s) t))
               (terminal_saved t (deleted t cs rows s)))
            (deleted t cs rows s)
      | None => (Raise (ValueError (DoesNotExist t)), s)
      end
    else (Raise TypeErrorMultipleValues, s).
Proof.
  unfold TerminalIO.delete, Terminal._check_table_exists, Terminal.print,
    deleted, deleted_count, bind_kwargs.
  munfold.
  destruct (kwargs_ok cs); simpl; [|done].
  destruct (tables (self s) !! t) as [rows|] eqn:Ht; [|done].
  repeat (rewrite Ht; simpl). rewrite lookup_insert_eq.
  rewrite terminal_save_on_live
    by (simpl; rewrite lookup_insert_eq; by eexists).
  unfold written_on.
  change (file_path (upd_tables _ s) t) with (file_path s t).
  by destruct (on_write io (file_path s t)).
Qed.

(** [backup_table] *)

Lemma gui_backup_table_on_eq io t stamp s :
  GuiIO.backup_table io t stamp s
  = match tables (self s) !! t with
    | Some _ =>
        written_on io (backup_path t stamp s) tt
          (emit (gui_write (backup_path t stamp s) t s) s) s
    | None => (Raise (ValueError (DoesNotExist t)), s)
    end.
Proof.
  unfold GuiIO.backup_table, Gui._check_table_exists, Gui._path, gui_write,
    backup_path, write_json, written_on.
  munfold.
  destruct (tables (self s) !! t) as [rows|] eqn:Ht; [|done].
  repeat (rewrite Ht; simpl).
  by destruct (on_write io (file_path s t +:+ ".backup." +:+ stamp)).
Qed.

Lemma terminal_backup_table_on_eq io t stamp s :
  TerminalIO.backup_table io t stamp s
  = match tables (self s) !! t with
    | Some _ =>
        written_on io (backup_path t stamp s) tt
          (emit (EPrint (MsgBackup t (backup_path t stamp s)))
             (emit (terminal_write (backup_path t stamp s) t s) s)) s
    | None => (Raise (ValueError (DoesNotExist t)), s)
    end.
Proof.
  unfold TerminalIO.backup_table, Terminal._check_table_exists,
    Terminal._path, Terminal.print, terminal_write, backup_path, write_json,
    written_on.
  munfold.
  destruct (tables (self s) !! t) as [rows|] eqn:Ht; [|done].
  repeat (rewrite Ht; simpl).
  by destruct (on_write io (file_path s t +:+ ".backup." +:+ stamp)).
Qed.

(** [export_csv] *)

Lemma gui_export_csv_on_eq io t csv_path s :
  GuiIO.export_csv io t csv_path s
  = match tables (self s) !! t with
    | Some [] => (Ok tt, s)
    | Some (first :: rows) =>
        match on_write io csv_path with
        | Written => Gui.export_csv t csv_path s
        | OpenFails => (Raise IOFailure, s)
        | WriteFails =>
            (Raise IOFailure, emit (EExport csv_path PartialCsv) s)
        end
    | None => (Raise (ValueError (DoesNotExist t)), s)
    end.
Proof.
  unfold GuiIO.export_csv, Gui.export_csv, Gui._check_table_exists. munfold.
  destruct (tables (self s) !! t) as [rows|] eqn:Ht; [|done].
  repeat (rewrite Ht; simpl). destruct rows as [|first rows]; [done|].
  by destruct (on_write io csv_path).
Qed.

Lemma terminal_export_csv_on_eq io t csv_path s :
  TerminalIO.export_csv io t csv_path s
  = match tables (self s) !! t with
    | Some [] => (Ok tt, emit (EPrint MsgNoData) s)
    | Some (first :: rows) =>
        match on_write io csv_path with
        | Written => Terminal.export_csv t csv_path s
        | OpenFails => (Raise IOFailure, s)
        | WriteFails =>
            (Raise IOFailure, emit (EExport csv_path PartialCsv) s)
        end
    | None => (Raise (ValueError (DoesNotExist t)), s)
    end.
Proof.
  unfold TerminalIO.export_csv, Terminal.export_csv,
    Terminal._check_table_exists, Terminal.print.
  munfold.
  destruct (tables (self s) !! t) as [rows|] eqn:Ht; [|done].
  repeat (rewrite Ht; simpl). destruct rows as [|first rows]; [done|].
  by destruct (on_write io csv_path).
Qed.

(** [commit] *)

Lemma gui_commit_on_eq io t s :
  GuiIO.commit io t s
  = match _transactions (self s) !! t with
    | Some _ =>
        match tables (self s) !! t with
        | Some _ =>
            written_on io (file_path s t) tt
              (gui_saved t (committed t s)) (committed t s)
        | None => (Raise (KeyError t), committed t s)
        end
    | None => (Ok tt, s)
    end.
Proof.
  unfold GuiIO.commit, committed. munfold.
  destruct (_transactions (self s) !! t); [|done].
  destruct (tables (self s) !! t) eqn:Ht.
  - rewrite gui_save_on_live by (simpl; by rewrite Ht). done.
  - rewrite gui_save_on_missing; done.
Qed.

Lemma terminal_commit_on_eq io t s :
  TerminalIO.commit io t s
  = match _transactions (self s) !! t with
    | Some _ =>
        match tables (self s) !! t with
        | Some _ =>
            written_on io (file_path s t) tt
              (emit (EPrint (MsgTxCommitted t))
                 (terminal_saved t (committed t s)))
              (committed t s)
        | None =>
            match on_write io (file_path s t) with
            | OpenFails => (Raise IOFailure, committed t s)
            | _ =>
                (Raise (KeyError t),
                 emit (EWrite (file_path s t) Empty) (committed t s))
            end
        end
    | None => (Ok tt, emit (EPrint (MsgNoActiveTx t)) s)
    end.
Proof.
  unfold TerminalIO.commit, Terminal.print, committed. munfold.
  destruct (_transactions (self s) !! t); [|done].
  destruct (tables (self s) !! t) eqn:Ht.
  - rewrite terminal_save_on_live by (simpl; by rewrite Ht).
    unfold written_on.
    change (file_path (upd_transactions _ s) t) with (file_path s t).
    by destruct (on_write io (file_path s t)).
  - rewrite terminal_save_on_missing by done.
    change (file_path (upd_transactions _ s) t) with (file_path s t).
    by destruct (on_write io (file_path s t)).
Qed.

(** On the reliable host the calls are the ones of the editions above. *)

Lemma gui_run_on_reliable c : gui_run_on reliable c = gui_run c.
Proof. by destruct c. Qed.

Lemma terminal_run_on_reliable c : terminal_run_on reliable c = terminal_run c.
Proof. by destruct c. Qed.

(* ===================================================================== *)
(** ** In-place updates of the heap *)
(* ===================================================================== *)

Lemma deref_insert_eq (h : list (list (string * value))) l r :
  (l < length h)%nat → deref (<[l:=r]> h) l = r.
Proof. intros H. unfold deref. by rewrite list_lookup_insert_eq. Qed.

Lemma deref_insert_ne (h : list (list (string * value))) l l' r :
  l ≠ l' → deref (<[l:=r]> h) l' = deref h l'.
Proof. intros H. unfold deref. by rewrite list_lookup_insert_ne. Qed.

Lemma view_insert_notin (h : list (list (string * value))) l r ls :
  l ∉ ls → view (<[l:=r]> h) ls = view h ls.
Proof.
  unfold view. induction ls as [|l' ls IH]; simpl; [done|].
  intros Hn. apply not_elem_of_cons in Hn as [Hne Hn].
  by rewrite deref_insert_ne, IH.
Qed.

Lemma update_rows_length cs us rows h n :
  length (fst (update_rows cs us rows h n)) = length h.
Proof.
  revert h n. induction rows as [|l rows IH]; intros h n; simpl; [done|].
  destruct (holds (deref h cs) (deref h l)); rewrite IH; [|done].
  apply length_insert.
Qed.

(** [update] writes to the records of the table only. *)
Lemma update_rows_frame cs us rows h n l :
  l ∉ rows → deref (fst (update_rows cs us rows h n)) l = deref h l.
Proof.
  revert h n. induction rows as [|l' rows IH]; intros h n Hn; simpl; [done|].
  apply not_elem_of_cons in Hn as [Hne Hn].
  destruct (holds (deref h cs) (deref h l')); rewrite IH; try done.
  by apply deref_insert_ne.
Qed.

Lemma update_rows_no_match cs us rows h n :
  Forall (fun l => holds (deref h cs) (deref h l) = false) rows →
  update_rows cs us rows h n = (h, n).
Proof.
  induction 1 as [|l rows Hl _ IH]; simpl; [done|]. by rewrite Hl.
Qed.

Lemma update_rows_distinct cs us rows h n :
  NoDup rows →
  Forall (fun l => (l < length h)%nat) rows →
  cs ∉ rows → us ∉ rows →
  view (fst (update_rows cs us rows h n)) rows
  = map (update_record (deref h cs) (deref h us)) (view h rows) ∧
  snd (update_rows cs us rows h n)
  = n + Z.of_nat (length (List.filter (holds (deref h cs)) (view h rows))).
Proof.
  revert h n. induction rows as [|l rows IH]; intros h n Hnd Hv Hcs Hus; simpl.
  - split; [done|lia].
  - apply NoDup_cons in Hnd as [Hl Hnd].
    apply Forall_cons in Hv as [Hlv Hv].
    apply not_elem_of_cons in Hcs as [Hcl Hcs].
    apply not_elem_of_cons in Hus as [Hul Hus].
    unfold update_record at 1.
    destruct (holds (deref h cs) (deref h l)) eqn:Hh.
    + destruct (IH (<[l:=apply_updates (deref h us) (deref h l)]> h) (n + 1)
                  Hnd) as [IH1 IH2]; try done.
      { by rewrite length_insert. }
      rewrite (deref_insert_ne h l cs) in IH1, IH2 by congruence.
      rewrite (deref_insert_ne h l us) in IH1 by congruence.
      rewrite update_rows_frame, deref_insert_eq by done.
      rewrite IH1, IH2, view_insert_notin by done.
      split; [done|]. simpl. lia.
    + destruct (IH h n Hnd Hv Hcs Hus) as [IH1 IH2].
      rewrite update_rows_frame by done.
      by rewrite IH1, IH2.
Qed.

Lemma filter_negb_length {A} (f : A → bool) (l : list A) :
  (length (List.filter (fun x => negb (f x)) l)
   + length (List.filter f l) = length l)%nat.
Proof.
  induction l as [|x l IH]; simpl; [done|].
  destruct (f x); simpl; lia.
Qed.

Lemma filter_view (f : list (string * value) → bool) h rows :
  List.filter f (view h rows)
  = view h (List.filter (fun l => f (deref h l)) rows).
Proof.
  unfold view. induction rows as [|l rows IH]; simpl; [done|].
  destruct (f (deref h l)); simpl; by rewrite IH.
Qed.

Lemma length_view h rows : length (view h rows) = length rows.
Proof. apply length_map. Qed.

Lemma deleted_count_matching cs rows s :
  deleted_count cs rows s
  = Z.of_nat (length (List.filter (holds cs) (view (heap s) rows))).
Proof.
  unfold deleted_count, delete_rows.
  rewrite filter_view, length_view.
  pose proof (filter_negb_length (fun l => holds cs (deref (heap s) l)) rows).
  lia.
Qed.

(* ===================================================================== *)
(** ** Counts of [update] and [delete] *)
(* ===================================================================== *)

Lemma filter_nil_Forall {A} (f : A → bool) (l : list A) :
  List.filter f l = [] → Forall (fun x => f x = false) l.
Proof.
  induction l as [|x l IH]; simpl; [constructor|].
  destruct (f x) eqn:Hx; [discriminate|]. intros H. constructor; auto.
Qed.

(** The count of [update] is the number of rows that match at the start,
    whatever the updates object is. *)
Lemma update_rows_count cs us rows h n :
  NoDup rows → cs ∉ rows →
  snd (update_rows cs us rows h n)
  = n + Z.of_nat (length (List.filter (holds (deref h cs)) (view h rows))).
Proof.
  revert h n. induction rows as [|l rows IH]; intros h n Hnd Hcs; simpl.
  - lia.
  - apply NoDup_cons in Hnd as [Hl Hnd].
    apply not_elem_of_cons in Hcs as [Hcl Hcs].
    destruct (holds (deref h cs) (deref h l)) eqn:Hh.
    + rewrite (IH _ _ Hnd Hcs).
      rewrite (deref_insert_ne h l cs) by congruence.
      rewrite view_insert_notin by done. simpl. lia.
    + by rewrite (IH _ _ Hnd Hcs).
Qed.

(** C9, as stated, fails: the terminal edition updates one record and
    returns [None], deletes one record and returns [None]; in the GUI
    edition an update matched by both rows of a table that stores one
    record object twice returns 1; an update whose conditions are the
    first row of the table itself returns 2 although one row matches
    them; and a [delete] with a condition on a column named [table_name]
    raises [TypeError] and returns no count. *)
Lemma counts_not_returned :
  fst (Terminal.update "t" 1%nat 2%nat one_row_state) = Ok VNone ∧
  view (heap (snd (Terminal.update "t" 1%nat 2%nat one_row_state))) [0%nat]
  = [[("a", VInt 2)]] ∧
  fst (Terminal.delete "t" [("a", VInt 1)] one_row_state) = Ok VNone ∧
  tables (self (snd (Terminal.delete "t" [("a", VInt 1)] one_row_state))) !! "t"
  = Some [] ∧
  List.filter (holds [("a", VInt 1)])
    (view (heap shared_row_state) [0%nat; 0%nat])
  = [[("a", VInt 1)]; [("a", VInt 1)]] ∧
  fst (Gui.update "t" 1%nat 2%nat shared_row_state) = Ok (VInt 1) ∧
  List.filter (holds (deref (heap row_as_conditions_state) 0%nat))
    (view (heap row_as_conditions_state) [0%nat; 3%nat])
  = [[("a", VInt 1)]] ∧
  fst (Gui.update "t" 0%nat 2%nat row_as_conditions_state) = Ok (VInt 2) ∧
  Gui.delete "t" [("table_name", VInt 1)] one_row_state
  = (Raise TypeErrorMultipleValues, one_row_state).
Proof. vm_compute. repeat split; reflexivity. Qed.

(** C9, amended. For every live table, in the GUI edition:
    - [delete], for conditions with no key named [self] or [table_name],
      returns the number of records removed, that is the number of rows
      that match the conditions, and the rows that remain are, in order,
      the ones that do not match; with such a key it raises [TypeError]
      and changes nothing;
    - when no record object is stored twice in the table and the
      conditions object is not a row of the table, [update] returns the
      number of rows that match the conditions, and the table holds the
      same record objects in the same order;
    - an update whose conditions match zero rows returns 0 and leaves the
      engine and all records unchanged.
    The terminal edition makes the same changes to the engine and the
    records, prints the same count and returns [None] from both. *)
Theorem update_delete_counts (s : state) (t : string)
    (cs : list (string * value)) (conditions updates : nat) (rows : list nat) :
  tables (self s) !! t = Some rows →
  let removed := List.filter (holds cs) (view (heap s) rows) in
  let matching :=
    List.filter (holds (deref (heap s) conditions)) (view (heap s) rows) in
  (kwargs_ok cs = true →
   ∃ s' rows',
     Gui.delete t cs s = (Ok (VInt (Z.of_nat (length removed))), s') ∧
     heap s' = heap s ∧
     tables (self s') !! t = Some rows' ∧
     view (heap s') rows'
     = List.filter (fun r => negb (holds cs r)) (view (heap s) rows) ∧
     (length rows' + length removed = length rows)%nat) ∧
  (kwargs_ok cs = false →
   Gui.delete t cs s = (Raise TypeErrorMultipleValues, s) ∧
   Terminal.delete t cs s = (Raise TypeErrorMultipleValues, s)) ∧
  (NoDup rows → conditions ∉ rows →
   ∃ s',
     Gui.update t conditions updates s
     = (Ok (VInt (Z.of_nat (length matching))), s') ∧
     tables (self s') !! t = Some rows) ∧
  (matching = [] →
   ∃ s',
     Gui.update t conditions updates s = (Ok (VInt 0), s') ∧
     self s' = self s ∧ heap s' = heap s) ∧
  (∃ g m n,
     Gui.update t conditions updates s = (Ok (VInt n), g) ∧
     Terminal.update t conditions updates s = (Ok VNone, m) ∧
     self m = self g ∧ heap m = heap g ∧
     last (out m) = Some (EPrint (MsgUpdated n t))) ∧
  (kwargs_ok cs = true →
   ∃ g m n,
     Gui.delete t cs s = (Ok (VInt n), g) ∧
     Terminal.delete t cs s = (Ok VNone, m) ∧
     self m = self g ∧ heap m = heap g ∧
     last (out m) = Some (EPrint (MsgDeleted n t))).
Proof.
  intros Ht removed matching.
  rewrite gui_update_eq, gui_delete_eq, terminal_update_eq, terminal_delete_eq.
  rewrite Ht. split; [|split; [|split; [|split; [|split]]]].
  - intros ->. eexists _, _. rewrite deleted_count_matching.
    split; [reflexivity|]. simpl. rewrite lookup_insert_eq.
    split; [done|]. split; [done|]. unfold delete_rows.
    split; [by rewrite filter_view|].
    unfold removed. rewrite filter_view, length_view.
    apply filter_negb_length.
  - by intros ->.
  - intros Hnd Hc. eexists.
    unfold updated_count.
    rewrite (update_rows_count conditions updates rows (heap s) 0 Hnd Hc).
    split; [reflexivity|]. simpl. by rewrite Ht.
  - intros Hm. eexists. unfold updated_count, updated.
    rewrite update_rows_no_match.
    + split; [reflexivity|]. simpl. by destruct s.
    + unfold matching in Hm. rewrite filter_view in Hm.
      apply (f_equal (@length _)) in Hm. rewrite length_view in Hm.
      apply nil_length_inv in Hm.
      apply (filter_nil_Forall _ _ Hm).
  - eexists _, _, _. split; [reflexivity|]. split; [reflexivity|].
    simpl. rewrite last_snoc. done.
  - intros ->. eexists _, _, _. split; [reflexivity|]. split; [reflexivity|].
    simpl. rewrite last_snoc. done.
Qed.

Lemma update_delete_counts_witness :
  (∃ s' rows',
     Gui.delete "t" [("k", VInt 1)] five_rows_state = (Ok (VInt 2), s') ∧
     heap s' = heap five_rows_state ∧
     tables (self s') !! "t" = Some rows' ∧
     view (heap s') rows' = [[("k", VInt 2)]; [("k", VInt 3)]; [("k", VInt 4)]] ∧
     (length rows' + 2 = 5)%nat) ∧
  (∃ s',
     Gui.update "t" 5%nat 6%nat five_rows_state = (Ok (VInt 0), s') ∧
     self s' = self five_rows_state ∧ heap s' = heap five_rows_state) ∧
  (∃ s',
     Gui.update "t" 7%nat 6%nat five_rows_state = (Ok (VInt 2), s') ∧
     tables (self s') !! "t" = Some [0; 1; 2; 3; 4]%nat).
Proof.
  split; [|split].
  - exact (proj1 (update_delete_counts five_rows_state "t" [("k", VInt 1)]
                    5%nat 6%nat [0; 1; 2; 3; 4]%nat eq_refl) eq_refl).
  - exact (proj1 (proj2 (proj2 (proj2
             (update_delete_counts five_rows_state "t" []
                5%nat 6%nat [0; 1; 2; 3; 4]%nat eq_refl)))) eq_refl).
  - assert (Hnd : NoDup [0; 1; 2; 3; 4]%nat)
      by (refine (bool_decide_unpack (NoDup _) _); vm_compute; exact I).
    assert (Hc : 7%nat ∉ [0; 1; 2; 3; 4]%nat)
      by (refine (bool_decide_unpack (not _) _); vm_compute; exact I).
    exact (proj1 (proj2 (proj2
             (update_delete_counts five_rows_state "t" []
                7%nat 6%nat [0; 1; 2; 3; 4]%nat eq_refl))) Hnd Hc).
Defined.

(* ===================================================================== *)
(** ** Deep copies and the transaction log *)
(* ===================================================================== *)

(** [deepcopy] of rows that live in [h0], run on a heap [h] that extends
    [h0] with the copies made so far: the heap only grows, the copies hold
    what the originals hold, and every copy lies outside [h0]. *)
Lemma deepcopy_rows_spec ls :
  ∀ (memo : gmap nat nat) (h h0 ext : list (list (string * value))),
    h = h0 ++ ext →
    Forall (fun l => (l < length h0)%nat) ls →
    (∀ l l', memo !! l = Some l' →
             (length h0 ≤ l' < length h)%nat ∧ deref h l' = deref h0 l) →
    ∃ ext',
      snd (deepcopy_rows memo ls h) = h ++ ext' ∧
      view (snd (deepcopy_rows memo ls h)) (fst (deepcopy_rows memo ls h))
      = view h0 ls ∧
      Forall (fun l' => (length h0 ≤ l' < length h + length ext')%nat)
        (fst (deepcopy_rows memo ls h)).
Proof.
  induction ls as [|l ls IH]; intros memo h h0 ext Hh Hv Hmemo; simpl.
  - exists []. rewrite app_nil_r. by repeat split.
  - apply Forall_cons in Hv as [Hl Hv].
    destruct (memo !! l) as [l'|] eqn:Hm.
    + destruct (IH memo h h0 ext Hh Hv Hmemo) as (ext' & H1 & H2 & H3).
      destruct (deepcopy_rows memo ls h) as [r h'] eqn:Hd. simpl in *.
      destruct (Hmemo l l' Hm) as [Hb Hc].
      exists ext'. subst h'. split; [done|]. split.
      * f_equal; [|done]. rewrite deref_app_l by lia. done.
      * constructor; [lia|done].
    + assert (Hsame : deref h l = deref h0 l).
      { subst h. by apply deref_app_l. }
      destruct (IH (<[l:=length h]> memo) (h ++ [deref h l]) h0
                  (ext ++ [deref h l])) as (ext' & H1 & H2 & H3).
      { subst h. by rewrite <- app_assoc. }
      { done. }
      { intros l1 l1' Hl1. rewrite length_app. simpl.
        destruct (decide (l = l1)) as [->|Hne].
        - rewrite lookup_insert_eq in Hl1. injection Hl1 as <-.
          split; [subst h; rewrite length_app; lia|].
          unfold deref at 1. rewrite lookup_app_r by lia.
          by rewrite Nat.sub_diag.
        - rewrite lookup_insert_ne in Hl1 by done.
          destruct (Hmemo l1 l1' Hl1) as [Hb Hc].
          split; [lia|]. by rewrite deref_app_l by lia. }
      destruct (deepcopy_rows (<[l:=length h]> memo) ls (h ++ [deref h l]))
        as [r h'] eqn:Hd.
      simpl in *. rewrite length_app in H3. simpl in H3.
      exists ([deref h l] ++ ext'). subst h'. rewrite <- app_assoc in *.
      split; [done|]. split.
      * f_equal; [|done]. unfold deref at 1.
        rewrite lookup_app_r by lia. rewrite Nat.sub_diag. simpl. done.
      * simpl. constructor.
        -- subst h. rewrite length_app. lia.
        -- eapply Forall_impl; [exact H3|]. simpl. intros; lia.
Qed.

Lemma begun_sealed t rows s :
  valid_refs s →
  tables (self s) !! t = Some rows →
  ∃ snapshot, sealed t (view (heap s) rows) snapshot (begun t rows s).
Proof.
  intros Hv Ht.
  destruct (deepcopy_rows_spec rows ∅ (heap s) (heap s) [])
    as (ext' & H1 & H2 & H3).
  { by rewrite app_nil_r. }
  { exact (Hv t rows Ht). }
  { intros l l' Hl. by rewrite lookup_empty in Hl. }
  unfold begun.
  destruct (deepcopy_rows ∅ rows (heap s)) as [snapshot h'] eqn:Hd.
  simpl in *. subst h'. exists snapshot. unfold sealed. simpl.
  rewrite lookup_insert_eq. split; [done|]. split; [done|]. split.
  - eapply Forall_impl; [exact H3|]. simpl. intros l Hl.
    rewrite length_app. lia.
  - intros t' rows' Ht' l Hl Hs.
    pose proof (Hv t' rows' Ht') as Hvalid.
    rewrite Forall_forall in Hvalid, H3.
    specialize (Hvalid l Hl). specialize (H3 l Hs). lia.
Qed.

Lemma sealed_emit t content snapshot e s :
  sealed t content snapshot s → sealed t content snapshot (emit e s).
Proof. done. Qed.

Lemma sealed_alloc t content snapshot r s :
  sealed t content snapshot s →
  sealed t content snapshot (set_heap (heap s ++ [r]) s).
Proof.
  intros (H1 & H2 & H3 & H4). unfold sealed. simpl.
  split; [done|]. split; [by rewrite view_app_l|]. split; [|done].
  eapply Forall_impl; [exact H3|]. simpl. intros l Hl.
  rewrite length_app. lia.
Qed.

Lemma sealed_inserted t content snapshot t' rows l s :
  tables (self s) !! t' = Some rows →
  l ∉ snapshot →
  sealed t content snapshot s →
  sealed t content snapshot (inserted t' rows l s).
Proof.
  intros Ht' Hl (H1 & H2 & H3 & H4). unfold sealed, inserted. simpl.
  repeat split; try done.
  apply map_Forall_insert_2; [|done].
  intros l' Hl'. apply elem_of_app in Hl' as [Hl'|Hl'].
  - by apply (H4 t' rows Ht').
  - apply list_elem_of_singleton in Hl'. by subst.
Qed.

Lemma sealed_updated t content snapshot t' cs us rows s :
  tables (self s) !! t' = Some rows →
  sealed t content snapshot s →
  sealed t content snapshot (updated t' cs us rows s).
Proof.
  intros Ht' (H1 & H2 & H3 & H4). unfold sealed, updated. simpl.
  rewrite update_rows_length. repeat split; try done.
  rewrite <- H2. unfold view. apply map_ext_in. intros l Hl.
  apply update_rows_frame. intros Hin.
  apply (H4 t' rows Ht' l Hin). by apply list_elem_of_In.
Qed.

Lemma sealed_deleted t content snapshot t' cs rows s :
  tables (self s) !! t' = Some rows →
  sealed t content snapshot s →
  sealed t content snapshot (deleted t' cs rows s).
Proof.
  intros Ht' (H1 & H2 & H3 & H4). unfold sealed, deleted. simpl.
  repeat split; try done.
  apply map_Forall_insert_2; [|done].
  intros l Hl. apply (H4 t' rows Ht').
  unfold delete_rows in Hl. apply list_elem_of_In in Hl.
  apply filter_In in Hl as [Hl _]. by apply list_elem_of_In.
Qed.

Lemma insert_checks_rows t record key s rows :
  insert_checks t record key s = inr rows → tables (self s) !! t = Some rows.
Proof.
  unfold insert_checks. destruct (tables (self s) !! t); [|done].
  destruct (fst (Gui._validate_record t record s)); try done;
    destruct (truthy_key key); try (by intros [= ->]);
    match goal with
    | |- context [check_duplicates ?k ?r ?e ?s] =>
        destruct (fst (check_duplicates k r e s))
    end; try done; by intros [= ->].
Qed.

Lemma gui_mutation_sealed t content snapshot c s :
  is_row_mutation c = true →
  inserts_outside snapshot c →
  sealed t content snapshot s →
  sealed t content snapshot (snd (gui_run c s)).
Proof.
  intros Hm Hi Hs. destruct c; try done; unfold gui_run, returning; munfold.
  - simpl. by apply sealed_alloc.
  - rewrite gui_insert_eq.
    destruct (insert_checks t0 record key_column s) as [e|rows] eqn:Hc;
      [done|].
    simpl. apply sealed_inserted; try done.
    by eapply insert_checks_rows.
  - rewrite gui_update_eq.
    destruct (tables (self s) !! t0) as [rows|] eqn:Ht; [|done].
    simpl. by apply sealed_updated.
  - rewrite gui_delete_eq.
    destruct (kwargs_ok conditions); [|done].
    destruct (tables (self s) !! t0) as [rows|] eqn:Ht; [|done].
    simpl. by apply sealed_deleted.
Qed.

Lemma terminal_mutation_sealed t content snapshot c s :
  is_row_mutation c = true →
  inserts_outside snapshot c →
  sealed t content snapshot s →
  sealed t content snapshot (snd (terminal_run c s)).
Proof.
  intros Hm Hi Hs. destruct c; try done; unfold terminal_run, returning;
    munfold.
  - simpl. by apply sealed_alloc.
  - rewrite terminal_insert_eq.
    destruct (insert_checks t0 record key_column s) as [e|rows] eqn:Hc;
      [done|].
    simpl. apply sealed_inserted; try done.
    by eapply insert_checks_rows.
  - rewrite terminal_update_eq.
    destruct (tables (self s) !! t0) as [rows|] eqn:Ht; [|done].
    simpl. by apply sealed_updated.
  - rewrite terminal_delete_eq.
    destruct (kwargs_ok conditions); [|done].
    destruct (tables (self s) !! t0) as [rows|] eqn:Ht; [|done].
    simpl. by apply sealed_deleted.
Qed.

Lemma session_sealed run t content snapshot cs :
  (∀ c s, is_row_mutation c = true → inserts_outside snapshot c →
          sealed t content snapshot s →
          sealed t content snapshot (snd (run c s))) →
  Forall (fun c => is_row_mutation c = true) cs →
  Forall (inserts_outside snapshot) cs →
  ∀ s, sealed t content snapshot s →
       sealed t content snapshot (session run cs s).
Proof.
  intros Hrun Hm. induction Hm as [|c cs Hc _ IH]; intros Hi s Hs; [done|].
  apply Forall_cons in Hi as [Hic Hi].
  change (session run (c :: cs) s) with (session run cs (snd (run c s))).
  apply IH; [done|]. by apply Hrun.
Qed.

Lemma rolled_back_restores t content snapshot s :
  sealed t content snapshot s →
  (∃ rows3, tables (self (rolled_back t snapshot s)) !! t = Some rows3 ∧
            view (heap (rolled_back t snapshot s)) rows3 = content) ∧
  _transactions (self (rolled_back t snapshot s)) !! t = None.
Proof.
  intros (H1 & H2 & H3 & H4). unfold rolled_back. simpl. split.
  - exists snapshot. by rewrite lookup_insert_eq.
  - apply lookup_delete_eq.
Qed.

Lemma gui_run_begin t s rows :
  tables (self s) !! t = Some rows →
  gui_run (BeginTransaction t) s = (Ok (RValue VNone), begun t rows s).
Proof.
  intros Ht. unfold gui_run, returning. munfold.
  by rewrite gui_begin_transaction_eq, Ht.
Qed.

Lemma gui_run_rollback t s :
  gui_run (Rollback t) s
  = match _transactions (self s) !! t with
    | Some snapshot => (Ok (RValue VNone), rolled_back t snapshot s)
    | None => (Ok (RValue VNone), s)
    end.
Proof.
  unfold gui_run, returning. munfold. rewrite gui_rollback_eq.
  by destruct (_transactions (self s) !! t).
Qed.

Lemma terminal_run_begin t s rows :
  tables (self s) !! t = Some rows →
  terminal_run (BeginTransaction t) s
  = (Ok (RValue VNone), emit (EPrint (MsgTxStarted t)) (begun t rows s)).
Proof.
  intros Ht. unfold terminal_run, returning. munfold.
  by rewrite terminal_begin_transaction_eq, Ht.
Qed.

Lemma terminal_run_rollback t s :
  terminal_run (Rollback t) s
  = match _transactions (self s) !! t with
    | Some snapshot =>
        (Ok (RValue VNone),
         emit (EPrint (MsgTxRolledBack t)) (rolled_back t snapshot s))
    | None => (Ok (RValue VNone), emit (EPrint (MsgNoActiveTx t)) s)
    end.
Proof.
  unfold terminal_run, returning. munfold. rewrite terminal_rollback_eq.
  by destruct (_transactions (self s) !! t).
Qed.

Lemma gui_rollback_restores s t rows cs :
  valid_refs s →
  tables (self s) !! t = Some rows →
  Forall (fun c => is_row_mutation c = true) cs →
  Forall (inserts_outside
            (default [] (_transactions
                           (self (snd (gui_run (BeginTransaction t) s))) !! t)))
    cs →
  rollback_restores gui_run s t rows cs.
Proof.
  intros Hv Ht Hm. unfold rollback_restores.
  rewrite (gui_run_begin t s rows Ht). simpl.
  destruct (begun_sealed t rows s Hv Ht) as (snapshot & Hs).
  rewrite (proj1 Hs). simpl. intros Hi.
  pose proof (session_sealed gui_run t _ snapshot cs
                (gui_mutation_sealed t _ snapshot) Hm Hi _ Hs) as Hs2.
  rewrite (gui_run_rollback t (session gui_run cs (begun t rows s))).
  rewrite (proj1 Hs2). simpl.
  destruct (rolled_back_restores t _ snapshot _ Hs2) as [Hrows Htx].
  rewrite gui_run_rollback, Htx. simpl. by repeat split.
Qed.

Lemma terminal_rollback_restores s t rows cs :
  valid_refs s →
  tables (self s) !! t = Some rows →
  Forall (fun c => is_row_mutation c = true) cs →
  Forall (inserts_outside
            (default [] (_transactions
                           (self (snd (terminal_run (BeginTransaction t) s)))
                         !! t)))
    cs →
  rollback_restores terminal_run s t rows cs.
Proof.
  intros Hv Ht Hm. unfold rollback_restores.
  rewrite (terminal_run_begin t s rows Ht). simpl.
  destruct (begun_sealed t rows s Hv Ht) as (snapshot & Hs).
  rewrite (proj1 Hs). simpl. intros Hi.
  apply (sealed_emit _ _ _ (EPrint (MsgTxStarted t))) in Hs.
  pose proof (session_sealed terminal_run t _ snapshot cs
                (terminal_mutation_sealed t _ snapshot) Hm Hi _ Hs) as Hs2.
  rewrite (terminal_run_rollback t (session terminal_run cs _)).
  rewrite (proj1 Hs2). simpl.
  destruct (rolled_back_restores t _ snapshot _ Hs2) as [Hrows Htx].
  rewrite terminal_run_rollback. simpl. rewrite lookup_delete_eq. simpl.
  unfold rolled_back in Hrows. simpl in Hrows. by repeat split.
Qed.

(** C6. In either edition, for every live table of an engine whose rows
    are live objects: after [begin_transaction], followed by any sequence
    of row mutations (records built and inserted, updates and deletes, on
    this or any other table, failing or not) in which no record of the
    snapshot is passed to [insert], [rollback] succeeds and the table has
    again rows equal, in number and in content, to the rows it had at
    [begin_transaction]; the snapshot is then gone, and a second
    [rollback] with no [begin_transaction] in between succeeds and leaves
    the engine, the records and the disk as they are. *)
Theorem rollback_restores_snapshot (run : call → M retval) (s : state)
    (t : string) (rows : list nat) (cs : list call) :
  run = gui_run ∨ run = terminal_run →
  valid_refs s →
  tables (self s) !! t = Some rows →
  Forall (fun c => is_row_mutation c = true) cs →
  Forall (inserts_outside
            (default [] (_transactions
                           (self (snd (run (BeginTransaction t) s))) !! t)))
    cs →
  rollback_restores run s t rows cs.
Proof.
  intros [->| ->].
  - apply gui_rollback_restores.
  - apply terminal_rollback_restores.
Qed.

Lemma rollback_restores_snapshot_witness :
  rollback_restores terminal_run two_rows_state "t" [0; 1]%nat three_inserts.
Proof.
  apply (rollback_restores_snapshot terminal_run two_rows_state "t"
           [0; 1]%nat three_inserts (or_intror eq_refl)).
  - refine (bool_decide_unpack (valid_refs _) _). vm_compute. exact I.
  - reflexivity.
  - repeat constructor.
  - unfold three_inserts.
    repeat (apply Forall_cons; split;
            [first [exact I
                   |refine (bool_decide_unpack (_ ∉ _) _); vm_compute; exact I]
            |]).
    constructor.
Defined.

(* ===================================================================== *)
(** ** The two editions side by side *)
(* ===================================================================== *)

Lemma validate_columns_fst sch r s s' :
  fst (Gui.validate_columns sch r s) = fst (Gui.validate_columns sch r s').
Proof.
  induction sch as [|[col dtype] sch IH]; simpl; [done|].
  destruct (dict_mem r col); simpl; [|done].
  destruct dtype as [ty|]; [|done].
  by destruct (negb (is_none (get r col)) && negb (isinstance (get r col) ty))%bool.
Qed.

Lemma check_duplicates_fst k r existing s s' :
  fst (check_duplicates k r existing s) = fst (check_duplicates k r existing s').
Proof.
  induction existing as [|x existing IH]; simpl; [done|].
  by destruct (py_eq (get x k) (get r k)).
Qed.

Lemma insert_checks_mem t record key s s' :
  self s = self s' → heap s = heap s' →
  insert_checks t record key s = insert_checks t record key s'.
Proof.
  intros Hself Hheap. unfold insert_checks, Gui._validate_record.
  rewrite <- Hself, <- Hheap.
  destruct (tables (self s) !! t) as [rows|]; [|done].
  destruct (schemas (self s) !! t) as [sch|].
  - rewrite (validate_columns_fst sch _ s s').
    destruct (fst (Gui.validate_columns sch (deref (heap s) record) s'));
      try done;
      destruct (truthy_key key) as [k|]; try done;
      by rewrite (check_duplicates_fst k _ _ s s').
  - simpl. destruct (truthy_key key) as [k|]; [|done].
    by rewrite (check_duplicates_fst k _ _ s s').
Qed.

(** From states with the same memory (the disks may differ), the two
    editions reach the same memory. *)
Lemma run_on_memory_agrees io c s s' :
  common c = true →
  self s = self s' → heap s = heap s' →
  self (snd (terminal_run_on io c s)) = self (snd (gui_run_on io c s')) ∧
  heap (snd (terminal_run_on io c s)) = heap (snd (gui_run_on io c s')).
Proof.
  intros Hc Hself Hheap.
  pose proof (insert_checks_mem) as Hins.
  destruct s as [db h d o], s' as [db' h' d' o']. simpl in Hself, Hheap.
  subst db' h'.
  destruct c; try done; unfold terminal_run_on, gui_run_on, returning; munfold.
  - (* create_table *)
    rewrite terminal_create_table_on_eq, gui_create_table_on_eq. simpl.
    destruct (tables db !! t); [done|]. unfold written_on, created.
    change (file_path (mkState db h d' o') t)
      with (file_path (mkState db h d o) t).
    destruct (on_write io (file_path (mkState db h d o) t));
      by destruct (truthy_schema sch).
  - (* drop_table *)
    rewrite terminal_drop_table_on_eq, gui_drop_table_on_eq. simpl.
    destruct (tables db !! t); [|done].
    change (file_path (mkState db h d' o') t)
      with (file_path (mkState db h d o) t).
    assert (E : ∀ x y, self (dropped t (mkState db h x y)) = self (unregistered t (mkState db h d o)) ∧
                       heap (dropped t (mkState db h x y)) = h ∧
                       self (unregistered t (mkState db h x y)) = self (unregistered t (mkState db h d o)) ∧
                       heap (unregistered t (mkState db h x y)) = h).
    { intros x y. unfold dropped, unregistered. simpl.
      destruct (schemas db !! t); simpl;
        repeat match goal with
          | |- context [match ?d !! ?p with _ => _ end] => destruct (d !! p)
          end; done. }
    destruct (d !! file_path (mkState db h d o) t),
      (d' !! file_path (mkState db h d o) t),
      (on_remove io (file_path (mkState db h d o) t));
      destruct (E d o) as (A1 & A2 & _ & A4);
      destruct (E d' o') as (B1 & B2 & B3 & B4);
      cbn [fst snd self heap emit];
      rewrite ?A1, ?A2, ?A4, ?B1, ?B2, ?B3, ?B4; done.
  - (* insert *)
    rewrite terminal_insert_on_eq, gui_insert_on_eq.
    rewrite (Hins t record key_column (mkState db h d o) (mkState db h d' o'))
      by done.
    destruct (insert_checks t record key_column (mkState db h d' o'));
      [done|].
    unfold written_on.
    change (file_path (mkState db h d' o') t)
      with (file_path (mkState db h d o) t).
    by destruct (on_write io (file_path (mkState db h d o) t)).
  - (* update *)
    rewrite terminal_update_on_eq, gui_update_on_eq. simpl.
    destruct (tables db !! t); simpl; [|done].
    unfold written_on.
    change (file_path (mkState db h d' o') t)
      with (file_path (mkState db h d o) t).
    by destruct (on_write io (file_path (mkState db h d o) t)).
  - (* delete *)
    rewrite terminal_delete_on_eq, gui_delete_on_eq. simpl.
    destruct (kwargs_ok conditions); [|done].
    destruct (tables db !! t); simpl; [|done].
    unfold written_on.
    change (file_path (mkState db h d' o') t)
      with (file_path (mkState db h d o) t).
    by destruct (on_write io (file_path (mkState db h d o) t)).
  - (* backup_table *)
    rewrite terminal_backup_table_on_eq, gui_backup_table_on_eq. simpl.
    destruct (tables db !! t); [|done].
    unfold written_on.
    change (backup_path t stamp (mkState db h d' o'))
      with (backup_path t stamp (mkState db h d o)).
    by destruct (on_write io (backup_path t stamp (mkState db h d o))).
  - (* begin_transaction *)
    rewrite terminal_begin_transaction_eq, gui_begin_transaction_eq. simpl.
    destruct (tables db !! t); [|done]. unfold begun. simpl.
    by destruct (deepcopy_rows ∅ l h).
  - (* rollback *)
    rewrite terminal_rollback_eq, gui_rollback_eq. simpl.
    by destruct (_transactions db !! t).
  - (* commit *)
    rewrite terminal_commit_on_eq, gui_commit_on_eq. simpl.
    destruct (_transactions db !! t); [|done].
    unfold written_on.
    change (file_path (mkState db h d' o') t)
      with (file_path (mkState db h d o) t).
    destruct (tables db !! t);
      by destruct (on_write io (file_path (mkState db h d o) t)).
  - (* export_csv *)
    rewrite terminal_export_csv_on_eq, gui_export_csv_on_eq. simpl.
    destruct (tables db !! t) as [[|first rows]|] eqn:Ht; [done| |done].
    destruct (on_write io csv_path); try done.
    rewrite terminal_export_csv_eq, gui_export_csv_eq. simpl. rewrite Ht.
    assert (E : export_complete (first :: rows) (mkState db h d' o')
                = export_complete (first :: rows) (mkState db h d o))
      by done.
    rewrite E.
    by destruct (export_complete (first :: rows) (mkState db h d o)).
Qed.









(* ===================================================================== *)
(** ** What reaches the disk *)
(* ===================================================================== *)

Lemma document_current_shape sch rows :
  current_shape (Json (Gui.document sch rows)).
Proof.
  unfold current_shape, Gui.document, render_schema, dump_rows.
  eexists _, _. split; [reflexivity|]. split.
  - apply Forall_map. apply Forall_forall. intros [col [ty|]] _; simpl.
    + right. by eexists.
    + by left.
  - apply Forall_map. apply Forall_forall. intros r _. by eexists.
Qed.

Lemma gui_saved_trace c t s0 s :
  table_of c = t → out s = out s0 →
  ∃ evs, out (gui_saved t s) = out s0 ++ evs ∧ gui_trace c s0 (gui_saved t s) evs ∧
         evs = [EWrite (file_path (gui_saved t s) t) (live_document t (gui_saved t s))].
Proof.
  intros Hc Ho. eexists. unfold gui_saved at 1. simpl. rewrite Ho.
  split; [reflexivity|]. split; [|done].
  right. right. left. exists (file_path s t). rewrite Hc.
  split; [done|]. split; [|by left].
  unfold gui_saved, gui_write. simpl. apply lookup_insert_eq.
Qed.

Lemma gui_run_trace c s :
  ∃ evs,
    out (snd (gui_run c s)) = out s ++ evs ∧
    gui_trace c s (snd (gui_run c s)) evs ∧
    (persists c = true → (∃ v, fst (gui_run c s) = Ok v) →
     evs = [EWrite (file_path (snd (gui_run c s)) (table_of c))
              (live_document (table_of c) (snd (gui_run c s)))]).
Proof.
  assert (Hnil : ∀ o' : list event, o' = o' ++ []) by (intros; by rewrite app_nil_r).
  destruct c; unfold gui_run, returning; munfold; simpl table_of.
  - (* New *) exists []. simpl. rewrite app_nil_r. repeat split; [by left|done].
  - (* create_table *)
    rewrite gui_create_table_eq.
    destruct (tables (self s) !! t).
    + exists []. simpl. rewrite app_nil_r.
      repeat split; [by left|]. intros _ [v Hv]. discriminate.
    + simpl.
      destruct (gui_saved_trace (CreateTable t sch) t s (created t sch s))
        as (evs & H1 & H2 & H3); [done| |].
      { unfold created. by destruct (truthy_schema sch). }
      exists evs. by repeat split.
  - (* load_table *)
    exists []. rewrite app_nil_r. split; [|split; [by left|done]].
    unfold Gui.load_table, Gui._path, rows_of. munfold.
    destruct (disk s !! file_path s t) as [[|data| |fieldnames lines|]|] eqn:Hd; simpl;
      rewrite ?Hd; simpl; try done.
    destruct data; simpl; try done.
    + destruct (load_rows items); simpl; [|done].
      rewrite alloc_rows_spec. simpl. rewrite view_fresh.
      by destruct l.
    + destruct (Gui.member "schema" (JObj []) members); simpl; try done.
      destruct (Gui.member "rows" (JArr []) members); simpl; try done.
      destruct (load_rows items); simpl; [|done].
      by rewrite alloc_rows_spec.
  - (* drop_table *)
    rewrite gui_drop_table_eq.
    destruct (tables (self s) !! t); simpl;
      [|exists []; rewrite app_nil_r; repeat split; [by left|done]].
    unfold dropped. simpl.
    destruct (schemas (self s) !! t); simpl;
      match goal with
      | |- context [match ?d !! ?p with _ => _ end] => destruct (d !! p)
      end; simpl;
      try (exists []; rewrite app_nil_r; repeat split; [by left|done]);
      (eexists; split; [reflexivity|]; split; [right; left; by eexists|done]).
  - (* insert *)
    rewrite gui_insert_eq.
    destruct (insert_checks t record key_column s) as [e|rows]; simpl.
    + exists []. rewrite app_nil_r.
      repeat split; [by left|]. intros _ [v Hv]. discriminate.
    + destruct (gui_saved_trace (Insert t record key_column) t s
                  (inserted t rows record s)) as (evs & H1 & H2 & H3);
        [done|done|].
      exists evs. by repeat split.
  - (* select *)
    exists []. simpl. rewrite app_nil_r. repeat split; [by left|done].
  - (* update *)
    rewrite gui_update_eq.
    destruct (tables (self s) !! t) as [rows|]; simpl.
    + destruct (gui_saved_trace (Update t conditions updates) t s
                  (updated t conditions updates rows s))
        as (evs & H1 & H2 & H3); [done|done|].
      exists evs. by repeat split.
    + exists []. rewrite app_nil_r.
      repeat split; [by left|]. intros _ [v Hv]. discriminate.
  - (* delete *)
    rewrite gui_delete_eq.
    destruct (kwargs_ok conditions); simpl;
      [|exists []; rewrite app_nil_r;
        repeat split; [by left|]; intros _ [v Hv]; discriminate].
    destruct (tables (self s) !! t) as [rows|]; simpl.
    + destruct (gui_saved_trace (Delete t conditions) t s
                  (deleted t conditions rows s))
        as (evs & H1 & H2 & H3); [done|done|].
      exists evs. by repeat split.
    + exists []. rewrite app_nil_r.
      repeat split; [by left|]. intros _ [v Hv]. discriminate.
  - (* backup_table *)
    rewrite gui_backup_table_eq.
    destruct (tables (self s) !! t) as [rows|] eqn:Ht; simpl.
    + eexists. split; [reflexivity|]. split; [|done].
      right. right. left. exists (backup_path t stamp s).
      unfold gui_write, live_document. simpl. rewrite lookup_insert_eq.
      split; [done|]. split; [done|]. right. by eexists.
    + exists []. rewrite app_nil_r. repeat split; [by left|done].
  - (* begin_transaction *)
    rewrite gui_begin_transaction_eq.
    destruct (tables (self s) !! t) as [rows|]; simpl.
    + exists []. rewrite app_nil_r. split; [|split; [by left|done]].
      unfold begun. by destruct (deepcopy_rows ∅ rows (heap s)).
    + exists []. rewrite app_nil_r. repeat split; [by left|done].
  - (* rollback *)
    rewrite gui_rollback_eq.
    destruct (_transactions (self s) !! t); simpl;
      exists []; rewrite app_nil_r; repeat split; try (by left); done.
  - (* commit *)
    rewrite gui_commit_eq.
    destruct (_transactions (self s) !! t); simpl;
      [|exists []; rewrite app_nil_r; repeat split; [by left|done]].
    destruct (tables (self s) !! t); simpl.
    + destruct (gui_saved_trace (Commit t) t s (committed t s))
        as (evs & H1 & H2 & H3); [done|done|].
      exists evs. by repeat split.
    + exists []. rewrite app_nil_r. repeat split; [by left|done].
  - (* export_csv *)
    rewrite gui_export_csv_eq.
    destruct (tables (self s) !! t) as [rows|]; simpl;
      [|exists []; rewrite app_nil_r; repeat split; [by left|done]].
    destruct rows as [|first rows];
      destruct (export_complete _ s); simpl;
      try (exists []; rewrite app_nil_r; repeat split; [by left|done]);
      (eexists; split; [reflexivity|]; split; [|done]);
      right; right; right; by eexists _, _.
Qed.

(** C3, as stated, fails: the write of the terminal edition after
    [create_table] is a bare row list, which is not the Current shape. *)
Lemma terminal_writes_bare_list :
  out (snd (Terminal.create_table "t" None (init "data" ".mdb" [] ∅)))
  = [EWrite "data/t.mdb" (Json (JArr [])); EPrint (MsgCreated "t" None)] ∧
  ¬ current_shape (Json (JArr [])).
Proof.
  split; [vm_compute; reflexivity|].
  intros (cols & rows & H & _). discriminate.
Qed.

(** C3, amended. In the GUI edition, every persistence write of every
    call, from every state, emits the Current shape: the file written
    then holds an object with a [schema] member mapping the columns to
    kind-name strings or null and a [rows] member holding the live row
    sequence of the table the call names; a bare row list is never
    written.  Every [create_table], [insert], [update] and [delete] that
    succeeds makes exactly one such write, to the file of its table, at
    the end of the call.  The [_save] of the terminal edition writes the
    bare list of the live rows. *)
Theorem gui_writes_current_shape (c : call) (s : state) :
  ∃ evs,
    out (snd (gui_run c s)) = out s ++ evs ∧
    (∀ p content,
       In (EWrite p content) evs →
       content = live_document (table_of c) (snd (gui_run c s)) ∧
       current_shape content ∧
       disk (snd (gui_run c s)) !! p = Some content) ∧
    (persists c = true → (∃ v, fst (gui_run c s) = Ok v) →
     evs = [EWrite (file_path (snd (gui_run c s)) (table_of c))
              (live_document (table_of c) (snd (gui_run c s)))]) ∧
    (∀ t rows,
       tables (self s) !! t = Some rows →
       Terminal._save t s
       = (Ok tt,
          emit (EWrite (file_path s t)
                  (Json (JArr (map dump_record (view (heap s) rows))))) s)).
Proof.
  destruct (gui_run_trace c s) as (evs & Hout & Htrace & Hpersist).
  exists evs. split; [done|]. split; [|split; [done|]];
    [|intros t rows Ht; rewrite terminal_save_live by (by eexists);
      unfold terminal_saved, terminal_write; by rewrite Ht].
  intros p content Hin.
  destruct Htrace as [->|[[q ->]|[(q & -> & Hdisk & _)|(q & exported & ->)]]].
  - destruct Hin.
  - destruct Hin as [Hin|[]]. discriminate.
  - destruct Hin as [Hin|[]]. injection Hin as <- <-.
    split; [done|]. split; [|done]. apply document_current_shape.
  - destruct Hin as [Hin|[]]. discriminate.
Qed.

Lemma gui_writes_current_shape_witness :
  let s := init "data" ".mdb" [] ∅ in
  let c := CreateTable "t" (Some [("id", Some TInt); ("note", None)]) in
  ∃ evs,
    out (snd (gui_run c s)) = out s ++ evs ∧
    evs = [EWrite "data/t.mdb"
             (Json (JObj [("schema", JObj [("id", JStr "int"); ("note", JNull)]);
                          ("rows", JArr [])]))].
Proof.
  intros s c.
  destruct (gui_writes_current_shape c s) as (evs & Hout & _ & Hone & _).
  exists evs. split; [exact Hout|].
  apply Hone; [reflexivity|]. by eexists.
Defined.

(* ===================================================================== *)
(** ** Validation, in full *)
(* ===================================================================== *)

Lemma validate_columns_iff sch r s :
  Gui.validate_columns sch r s = (Ok tt, s) ↔ Forall (column_ok r) sch.
Proof.
  induction sch as [|[col dtype] sch IH]; simpl.
  - split; [constructor|done].
  - rewrite Forall_cons. unfold column_ok at 1. simpl.
    destruct (dict_mem r col); simpl; [|split; [discriminate|intros [[? _] _]; done]].
    destruct dtype as [ty|]; [|rewrite IH; tauto].
    destruct (isinstance (get r col) ty) eqn:Hi; simpl.
    + rewrite andb_false_r, IH. tauto.
    + rewrite andb_true_r.
      destruct (get r col) eqn:Hg; simpl; rewrite ?IH; try tauto;
        (split; [discriminate|intros [[_ [?|?]] _]; done]).
Qed.

Lemma validate_columns_agree sch r r' s :
  (∀ col, col ∈ map fst sch → dict_lookup r' col = dict_lookup r col) →
  Gui.validate_columns sch r' s = Gui.validate_columns sch r s.
Proof.
  induction sch as [|[col dtype] sch IH]; simpl; intros H; [done|].
  assert (Hc : dict_lookup r' col = dict_lookup r col).
  { apply H. left. }
  assert (IH' : Gui.validate_columns sch r' s = Gui.validate_columns sch r s).
  { apply IH. intros c Hin. apply H. by right. }
  unfold dict_mem, get. rewrite Hc.
  destruct (dict_lookup r col) as [v|]; simpl; [|done].
  destruct dtype as [ty|]; [|done].
  by destruct (negb (is_none v) && negb (isinstance v ty))%bool.
Qed.

(** X1. In both editions [_validate_record] returns normally exactly when
    every column the table's schema declares is present in the record
    with a value that is [None] or an instance of the declared type (a
    table without schema accepts every record), and it never changes the
    state.  Only the declared columns are looked at: two records that
    agree on them are validated alike, whatever other columns they
    have. *)
Theorem validate_record_iff (s : state) (t : string) (record record' : nat) :
  Terminal._validate_record t record s = Gui._validate_record t record s ∧
  (Gui._validate_record t record s = (Ok tt, s) ↔
   Forall (column_ok (deref (heap s) record)) (schema_of s t)) ∧
  snd (Gui._validate_record t record s) = s ∧
  ((∀ col, col ∈ map fst (schema_of s t) →
           dict_lookup (deref (heap s) record') col
           = dict_lookup (deref (heap s) record) col) →
   Gui._validate_record t record' s = Gui._validate_record t record s).
Proof.
  split; [apply terminal_validate_record|].
  unfold Gui._validate_record, schema_of.
  destruct (schemas (self s) !! t) as [sch|].
  - split; [apply validate_columns_iff|]. split.
    + by destruct (validate_columns_pure sch (deref (heap s) record) s)
        as [->|(e & _ & ->)].
    + apply validate_columns_agree.
  - split; [split; [constructor|done]|]. by split.
Qed.

(* ===================================================================== *)
(** ** Insertion, in full *)
(* ===================================================================== *)

Lemma check_duplicates_iff k r existing s :
  check_duplicates k r existing s = (Ok tt, s) ↔
  Forall (fun e => py_eq (get e k) (get r k) = false) existing.
Proof.
  induction existing as [|x existing IH]; simpl.
  - split; [constructor|done].
  - rewrite Forall_cons. destruct (py_eq (get x k) (get r k)).
    + split; [discriminate|intros [? _]; done].
    + rewrite IH. tauto.
Qed.

Lemma check_duplicates_found k r existing s :
  Exists (fun e => py_eq (get e k) (get r k) = true) existing →
  check_duplicates k r existing s
  = (Raise (ValueError (DuplicateEntry k (get r k))), s).
Proof.
  induction existing as [|x existing IH]; simpl; intros H.
  - by apply Exists_nil in H.
  - destruct (py_eq (get x k) (get r k)) eqn:Hx; [done|].
    apply Exists_cons in H as [H|H]; [congruence|by apply IH].
Qed.

Lemma insert_checks_iff t record key s rows :
  insert_checks t record key s = inr rows ↔ insertable t record key rows s.
Proof.
  unfold insert_checks, insertable.
  destruct (tables (self s) !! t) as [rows0|] eqn:Ht;
    [|split; [discriminate|intros [? _]; done]].
  pose proof (validate_columns_iff (schema_of s t) (deref (heap s) record) s)
    as Hval.
  assert (Hv : Gui._validate_record t record s
               = Gui.validate_columns (schema_of s t) (deref (heap s) record) s).
  { unfold Gui._validate_record, schema_of.
    by destruct (schemas (self s) !! t). }
  rewrite Hv.
  destruct (validate_columns_pure (schema_of s t) (deref (heap s) record) s)
    as [Hok|(e & He & Hraise)].
  - rewrite Hok. simpl.
    destruct (truthy_key key) as [k|].
    + pose proof (check_duplicates_iff k (deref (heap s) record)
                    (view (heap s) rows0) s) as Hdup.
      destruct (check_duplicates_pure k (deref (heap s) record)
                  (view (heap s) rows0) s) as [Hd|(e & He & Hd)].
      * rewrite Hd. simpl. split.
        -- intros [= <-]. split; [done|]. split; [by apply Hval|].
           intros key' [= <-]. by apply Hdup.
        -- by intros ([= <-] & _ & _).
      * rewrite Hd. simpl. split; [discriminate|].
        intros ([= <-] & _ & H). specialize (H k eq_refl).
        apply Hdup in H. congruence.
    + split.
      * intros [= <-]. split; [done|]. split; [by apply Hval|]. discriminate.
      * by intros ([= <-] & _ & _).
  - rewrite Hraise. simpl. split; [discriminate|].
    intros (_ & H & _). apply Hval in H. congruence.
Qed.

(** X2. In both editions and on any host, [insert] succeeds exactly when
    the table is live, the record passes validation, no row of the table
    has, for a non-empty key column that is given, a value equal (by
    Python's [==], an absent column counting as [None]) to the record's,
    and the file of the table can be written.  Whenever the three checks
    pass, the record is appended as the last row, and schemas,
    transaction log, the records themselves and every other table are as
    before; this is so even when the write then fails.  The file of the
    table then holds the document of the rows after the append if the
    write completes; if [open] fails the call raises with the disk
    untouched, and if the writing fails it raises with the file left
    truncated. *)
Theorem insert_succeeds_iff (io : host) (s : state) (t : string)
    (record : nat) (key_column : option string) :
  (fst (GuiIO.insert io t record key_column s) = Ok tt ↔
   (∃ rows, insertable t record key_column rows s) ∧
   on_write io (file_path s t) = Written) ∧
  (fst (TerminalIO.insert io t record key_column s) = Ok tt ↔
   (∃ rows, insertable t record key_column rows s) ∧
   on_write io (file_path s t) = Written) ∧
  (∀ rows,
     insertable t record key_column rows s →
     let g := snd (GuiIO.insert io t record key_column s) in
     let m := snd (TerminalIO.insert io t record key_column s) in
     tables (self g) = <[t := rows ++ [record]]> (tables (self s)) ∧
     self m = self g ∧
     schemas (self g) = schemas (self s) ∧
     _transactions (self g) = _transactions (self s) ∧
     heap g = heap s ∧ heap m = heap s ∧
     match on_write io (file_path s t) with
     | Written =>
         disk g = <[file_path s t := live_document t g]> (disk s) ∧
         disk m
         = <[file_path s t :=
               Json (dump_rows (view (heap s) (rows ++ [record])))]> (disk s)
     | OpenFails =>
         fst (GuiIO.insert io t record key_column s) = Raise IOFailure ∧
         fst (TerminalIO.insert io t record key_column s) = Raise IOFailure ∧
         disk g = disk s ∧ disk m = disk s
     | WriteFails =>
         fst (GuiIO.insert io t record key_column s) = Raise IOFailure ∧
         fst (TerminalIO.insert io t record key_column s) = Raise IOFailure ∧
         disk g = <[file_path s t := Partial]> (disk s) ∧
         disk m = <[file_path s t := Partial]> (disk s)
     end).
Proof.
  rewrite gui_insert_on_eq, terminal_insert_on_eq. unfold written_on.
  split; [|split].
  - destruct (insert_checks t record key_column s) as [e|rows] eqn:Hc; simpl.
    + split; [discriminate|]. intros [[rows H] _].
      apply insert_checks_iff in H. congruence.
    + destruct (on_write io (file_path s t)); simpl;
        (split; [|by intros [_ Hw]]); try discriminate.
      intros _. split; [|done]. exists rows. by apply insert_checks_iff.
  - destruct (insert_checks t record key_column s) as [e|rows] eqn:Hc; simpl.
    + split; [discriminate|]. intros [[rows H] _].
      apply insert_checks_iff in H. congruence.
    + destruct (on_write io (file_path s t)); simpl;
        (split; [|by intros [_ Hw]]); try discriminate.
      intros _. split; [|done]. exists rows. by apply insert_checks_iff.
  - intros rows H. apply insert_checks_iff in H. rewrite H.
    destruct (on_write io (file_path s t)); simpl.
    + unfold terminal_write, live_document. simpl.
      rewrite lookup_insert_eq. simpl. by repeat split.
    + by repeat split.
    + by repeat split.
Qed.

Lemma insert_succeeds_iff_witness :
  let s := mkState (mkMDB "data" ".mdb" {[ "t" := [0%nat] ]}
                      {[ "t" := [("id", Some TInt)] ]} ∅)
             [[("id", VInt 7)]; [("id", VInt 8); ("extra", VStr "x")]] ∅ [] in
  let full := mkHost (fun _ => WriteFails) (fun _ => true) in
  tables (self (snd (Gui.insert "t" 1%nat (Some "id") s)))
  = <[ "t" := [0%nat; 1%nat] ]> (tables (self s)) ∧
  tables (self (snd (GuiIO.insert full "t" 1%nat (Some "id") s)))
  = <[ "t" := [0%nat; 1%nat] ]> (tables (self s)).
Proof.
  intros s full.
  assert (H : insertable "t" 1%nat (Some "id") [0%nat] s).
  { split; [reflexivity|]. split.
    - constructor; [|constructor]. split; [reflexivity|]. right. reflexivity.
    - intros key [= <-]. constructor; [reflexivity|constructor]. }
  split.
  - exact (proj1 (proj2 (proj2 (insert_succeeds_iff reliable s "t" 1%nat
                                  (Some "id"))) [0%nat] H)).
  - exact (proj1 (proj2 (proj2 (insert_succeeds_iff full s "t" 1%nat
                                  (Some "id"))) [0%nat] H)).
Defined.

Lemma insert_checks_error t record key s e :
  insert_checks t record key s = inl e → is_insert_error t e.
Proof.
  unfold insert_checks, is_insert_error.
  destruct (tables (self s) !! t) as [rows|]; [|intros [= <-]; by left].
  destruct (validate_record_pure t record s) as [->|(e' & He' & ->)]; simpl;
    [|intros [= <-]; right; by left].
  destruct (truthy_key key) as [k|]; [|discriminate].
  destruct (check_duplicates_pure k (deref (heap s) record)
              (view (heap s) rows) s) as [->|(e' & He' & ->)]; simpl;
    [discriminate|intros [= <-]; right; by right].
Qed.

Lemma io_failure_is_no_insert_error t : ¬ is_insert_error t IOFailure.
Proof. by intros [H|[H|H]]. Qed.

(** C10. On any host and in either edition, whenever [insert] fails
    because the table is not found, the record fails validation or its
    key is a duplicate, the whole state is as before the call: the
    engine's tables (so the row sequence of the table), the heap of
    records, the disk and the output trace, so no persistence write
    occurred.  These are the only failures of the checks, which all
    precede the append and the save: any other failure of [insert] is
    the one of a write that the host refuses, raised by the save after
    the record has been appended, with nothing printed and the disk
    untouched or the file left truncated. *)
Theorem insert_failure_leaves_state (io : host) (s s' : state) (t : string)
    (record : loc) (key_column : option string) (e : exn) :
  GuiIO.insert io t record key_column s = (Raise e, s') ∨
  TerminalIO.insert io t record key_column s = (Raise e, s') →
  (is_insert_error t e →
   s' = s ∧
   tables (self s') !! t = tables (self s) !! t ∧
   heap s' = heap s ∧
   disk s' = disk s ∧
   out s' = out s) ∧
  (¬ is_insert_error t e →
   e = IOFailure ∧
   on_write io (file_path s t) ≠ Written ∧
   ∃ rows,
     insertable t record key_column rows s ∧
     tables (self s') !! t = Some (rows ++ [record]) ∧
     heap s' = heap s ∧
     ((on_write io (file_path s t) = OpenFails ∧
       disk s' = disk s ∧ out s' = out s) ∨
      (on_write io (file_path s t) = WriteFails ∧
       disk s' = <[file_path s t := Partial]> (disk s) ∧
       out s' = out s ++ [EWrite (file_path s t) Partial]))).
Proof.
  intros H.
  assert (Hcases :
            (insert_checks t record key_column s = inl e ∧ s' = s) ∨
            (∃ rows, insert_checks t record key_column s = inr rows ∧
                     e = IOFailure ∧
                     ((on_write io (file_path s t) = OpenFails ∧
                       s' = inserted t rows record s) ∨
                      (on_write io (file_path s t) = WriteFails ∧
                       s' = emit (EWrite (file_path s t) Partial)
                              (inserted t rows record s))))).
  { destruct H as [H|H];
      [rewrite gui_insert_on_eq in H|rewrite terminal_insert_on_eq in H];
      destruct (insert_checks t record key_column s) as [e'|rows];
      try (injection H as <- <-; by left);
      right; exists rows; unfold written_on in H;
      destruct (on_write io (file_path s t)); try discriminate;
      injection H as <- <-; (split; [done|]); (split; [done|]);
      [by left|by right|by left|by right]. }
  destruct Hcases as [[Hc ->]|(rows & Hc & -> & Hs)].
  - split; [done|]. intros Hn. by apply insert_checks_error in Hc.
  - split; [intros Hi; by apply io_failure_is_no_insert_error in Hi|].
    intros _. split; [done|].
    split; [destruct Hs as [[-> _]|[-> _]]; discriminate|].
    exists rows. split; [by apply insert_checks_iff|].
    destruct Hs as [[Hw ->]|[Hw ->]]; simpl; rewrite lookup_insert_eq;
      (split; [done|]); (split; [done|]); [left|right]; by rewrite Hw.
Qed.

Lemma insert_failure_leaves_state_witness :
  let s := mkState (mkMDB "data" ".mdb" {[ "t" := [0%nat] ]}
                      {[ "t" := [("id", Some TInt)] ]} ∅)
             [[("id", VInt 7)]; [("id", VInt 7)]; [("id", VStr "x")];
              [("id", VInt 8)]] ∅ [] in
  let full := mkHost (fun _ => WriteFails) (fun _ => true) in
  snd (Gui.insert "ghost" 1%nat None s) = s ∧
  snd (Gui.insert "t" 2%nat None s) = s ∧
  snd (Gui.insert "t" 1%nat (Some "id") s) = s ∧
  snd (Terminal.insert "t" 1%nat (Some "id") s) = s ∧
  tables (self (snd (GuiIO.insert full "t" 3%nat None s))) !! "t"
  = Some [0%nat; 3%nat].
Proof.
  intros s full. split; [|split; [|split; [|split]]].
  - refine (proj1 (proj1 (insert_failure_leaves_state reliable s
                            (snd (Gui.insert "ghost" 1%nat None s)) "ghost"
                            1%nat None (ValueError (DoesNotExist "ghost"))
                            (or_introl eq_refl)) _)).
    by left.
  - refine (proj1 (proj1 (insert_failure_leaves_state reliable s
                            (snd (Gui.insert "t" 2%nat None s)) "t"
                            2%nat None (TypeError "id" TInt)
                            (or_introl eq_refl)) _)).
    right. by left.
  - refine (proj1 (proj1 (insert_failure_leaves_state reliable s
                            (snd (Gui.insert "t" 1%nat (Some "id") s)) "t"
                            1%nat (Some "id")
                            (ValueError (DuplicateEntry "id" (VInt 7)))
                            (or_introl eq_refl)) _)).
    right. by right.
  - refine (proj1 (proj1 (insert_failure_leaves_state reliable s
                            (snd (Terminal.insert "t" 1%nat (Some "id") s))
                            "t" 1%nat (Some "id")
                            (ValueError (DuplicateEntry "id" (VInt 7)))
                            (or_intror eq_refl)) _)).
    right. by right.
  - destruct (proj2 (insert_failure_leaves_state full s
                       (snd (GuiIO.insert full "t" 3%nat None s)) "t"
                       3%nat None IOFailure (or_introl eq_refl))
                (io_failure_is_no_insert_error "t"))
      as (_ & _ & rows & (Hrows & _) & Ht & _).
    rewrite Ht. vm_compute in Hrows. by injection Hrows as <-.
Defined.

Lemma insert_checks_duplicate t record key s rows :
  tables (self s) !! t = Some rows →
  Forall (column_ok (deref (heap s) record)) (schema_of s t) →
  String.eqb key "" = false →
  Exists (fun e => py_eq (get e key) (get (deref (heap s) record) key) = true)
    (view (heap s) rows) →
  insert_checks t record (Some key) s
  = inl (ValueError (DuplicateEntry key (get (deref (heap s) record) key))).
Proof.
  intros Ht Hval Hkey Hex. unfold insert_checks. rewrite Ht.
  assert (Hv : Gui._validate_record t record s = (Ok tt, s)).
  { unfold Gui._validate_record. unfold schema_of in Hval.
    destruct (schemas (self s) !! t); [|done].
    by apply validate_columns_iff. }
  rewrite Hv. simpl. rewrite Hkey.
  by rewrite (check_duplicates_found key _ _ s Hex).
Qed.

(** X3. In both editions, once a record has been inserted, inserting
    with a non-empty key column any valid record whose value for that
    column equals the stored record's (by Python's [==], so 1, [True]
    and 1.0 are one key) fails with the duplicate-entry [ValueError]
    naming the new record's value, and leaves the state as it was. *)
Theorem duplicate_key_rejected (s : state) (t : string) (first second : nat)
    (first_key : option string) (key : string) :
  String.eqb key "" = false →
  fst (Gui.insert t first first_key s) = Ok tt →
  py_eq (get (deref (heap s) first) key) (get (deref (heap s) second) key)
  = true →
  Forall (column_ok (deref (heap s) second)) (schema_of s t) →
  let g := snd (Gui.insert t first first_key s) in
  let m := snd (Terminal.insert t first first_key s) in
  let e := ValueError (DuplicateEntry key (get (deref (heap s) second) key)) in
  Gui.insert t second (Some key) g = (Raise e, g) ∧
  Terminal.insert t second (Some key) m = (Raise e, m).
Proof.
  intros Hkey Hok Heq Hval.
  rewrite gui_insert_eq in Hok. rewrite gui_insert_eq, terminal_insert_eq.
  destruct (insert_checks t first first_key s) as [e|rows] eqn:Hc;
    [discriminate|].
  simpl. rewrite gui_insert_eq, terminal_insert_eq.
  assert (Hex : Exists
                  (fun e => py_eq (get e key) (get (deref (heap s) second) key)
                            = true)
                  (view (heap s) (rows ++ [first]))).
  { unfold view. rewrite map_app. apply Exists_app. right.
    by constructor. }
  rewrite (insert_checks_duplicate t second key
             (gui_saved t (inserted t rows first s)) (rows ++ [first]));
    rewrite ?(insert_checks_duplicate t second key
                (emit (EPrint (MsgInserted t (deref (heap s) first)))
                   (terminal_saved t (inserted t rows first s)))
                (rows ++ [first]));
    try done; simpl; by rewrite ?lookup_insert_eq.
Qed.

Lemma duplicate_key_rejected_witness :
  let s := mkState (mkMDB "data" ".mdb" {[ "t" := [] ]} ∅ ∅)
             [[("id", VInt 1)]; [("id", VBool true)]] ∅ [] in
  let g := snd (Gui.insert "t" 0%nat (Some "id") s) in
  Gui.insert "t" 1%nat (Some "id") g
  = (Raise (ValueError (DuplicateEntry "id" (VBool true))), g).
Proof.
  intros s.
  refine (proj1 (duplicate_key_rejected s "t" 0%nat 1%nat (Some "id") "id"
                   eq_refl eq_refl eq_refl _)).
  constructor.
Defined.

(* ===================================================================== *)
(** ** What a call that raises leaves behind *)
(* ===================================================================== *)

Lemma gui_load_table_raise t s e s' :
  Gui.load_table t s = (Raise e, s') → s' = s.
Proof.
  unfold Gui.load_table, Gui._path, rows_of. munfold.
  destruct (disk s !! file_path s t) as [[|data| |fieldnames lines|]|] eqn:Hd; simpl;
    rewrite ?Hd; simpl; try (by intros [= _ <-]).
  destruct data; simpl; try (by intros [= _ <-]).
  - destruct (load_rows items); simpl; [|discriminate].
    rewrite alloc_rows_spec. simpl. rewrite view_fresh.
    by destruct l.
  - destruct (Gui.member "schema" (JObj []) members); simpl;
      try (by intros [= _ <-]).
    destruct (Gui.member "rows" (JArr []) members); simpl; try discriminate.
    destruct (load_rows items); simpl; [|discriminate].
    by rewrite alloc_rows_spec.
Qed.

Lemma terminal_load_table_raise t s e s' :
  Terminal.load_table t s = (Raise e, s') → s' = s.
Proof.
  unfold Terminal.load_table, Terminal._path, Terminal.print, rows_of. munfold.
  destruct (disk s !! file_path s t) as [[|data| |fieldnames lines|]|] eqn:Hd; simpl;
    rewrite ?Hd; simpl; try (by intros [= _ <-]).
  destruct data; simpl; try discriminate.
  destruct (load_rows items); simpl; [|discriminate].
  by rewrite alloc_rows_spec.
Qed.

Lemma dropped_memory t s :
  self (dropped t s) = self (unregistered t s) ∧
  heap (dropped t s) = heap (unregistered t s).
Proof.
  unfold dropped, unregistered. cbv zeta.
  destruct (schemas (self (upd_tables (base.delete t) s)) !! t);
    match goal with
    | |- context [match ?d !! ?p with _ => _ end] => by destruct (d !! p)
    end.
Qed.

Lemma gui_run_on_raise io c s e s' :
  gui_run_on io c s = (Raise e, s') →
  (e ≠ IOFailure →
   (∀ t, c ≠ Commit t) → (∀ t p, c ≠ ExportCsv t p) →
   (∀ t, c = LoadTable t → e ≠ AttributeError) →
   s' = s) ∧
  (e = IOFailure →
   self s' = self (snd (gui_run c s)) ∧ heap s' = heap (snd (gui_run c s))).
Proof.
  destruct c; unfold gui_run_on, gui_run, returning; munfold;
    rewrite ?returning_snd; try discriminate;
    try (intros H%returning_raise; revert H).
  - (* create_table *)
    rewrite gui_create_table_on_eq, gui_create_table_eq.
    destruct (tables (self s) !! t);
      [intros [= <- <-]; split; [done|discriminate]|].
    unfold written_on. destruct (on_write io (file_path s t));
      try discriminate; intros [= <- <-]; split; try (by intros []); done.
  - (* load_table *)
    intros H. apply gui_load_table_raise in H as Hs. subst s'. split; [done|].
    intros ->. exfalso. revert H.
    unfold Gui.load_table, Gui._path, rows_of. munfold.
    destruct (disk s !! file_path s t) as [[|data| |fieldnames lines|]|] eqn:Hd;
      simpl; rewrite ?Hd; simpl; try discriminate.
    destruct data; simpl; try discriminate.
    + destruct (load_rows items); simpl; [|discriminate].
      rewrite alloc_rows_spec. simpl. rewrite view_fresh. by destruct l.
    + destruct (Gui.member "schema" (JObj []) members); simpl;
        try discriminate.
      destruct (Gui.member "rows" (JArr []) members); simpl; try discriminate.
      destruct (load_rows items); simpl; [|discriminate].
      by rewrite alloc_rows_spec.
  - (* drop_table *)
    rewrite gui_drop_table_on_eq, gui_drop_table_eq.
    destruct (tables (self s) !! t);
      [|intros [= <- <-]; split; [done|discriminate]].
    destruct (disk s !! file_path s t);
      [destruct (on_remove io (file_path s t))|]; try discriminate.
    intros [= <- <-]. split; [by intros []|]. intros _. simpl.
    by destruct (dropped_memory t s) as [-> ->].
  - (* insert *)
    rewrite gui_insert_on_eq, gui_insert_eq.
    destruct (insert_checks t record key_column s) as [e'|rows] eqn:Hc.
    + intros [= <- <-]. split; [done|]. intros ->.
      apply insert_checks_error in Hc.
      by apply io_failure_is_no_insert_error in Hc.
    + unfold written_on. destruct (on_write io (file_path s t));
        try discriminate; intros [= <- <-]; split; try (by intros []); done.
  - (* select *)
    intros [= <- <-]. split; [done|discriminate].
  - (* update *)
    rewrite gui_update_on_eq, gui_update_eq.
    destruct (tables (self s) !! t);
      [|intros [= <- <-]; split; [done|discriminate]].
    unfold written_on. destruct (on_write io (file_path s t));
      try discriminate; intros [= <- <-]; split; try (by intros []); done.
  - (* delete *)
    rewrite gui_delete_on_eq, gui_delete_eq.
    destruct (kwargs_ok conditions);
      [|intros [= <- <-]; split; [done|discriminate]].
    destruct (tables (self s) !! t);
      [|intros [= <- <-]; split; [done|discriminate]].
    unfold written_on. destruct (on_write io (file_path s t));
      try discriminate; intros [= <- <-]; split; try (by intros []); done.
  - (* backup_table *)
    rewrite gui_backup_table_on_eq, gui_backup_table_eq.
    destruct (tables (self s) !! t);
      [|intros [= <- <-]; split; [done|discriminate]].
    unfold written_on. destruct (on_write io (backup_path t stamp s));
      try discriminate; intros [= <- <-]; split; try (by intros []); done.
  - (* begin_transaction *)
    rewrite gui_begin_transaction_eq.
    destruct (tables (self s) !! t); [discriminate|].
    intros [= <- <-]. split; [done|discriminate].
  - (* rollback *)
    rewrite gui_rollback_eq.
    destruct (_transactions (self s) !! t); discriminate.
  - (* commit *)
    rewrite gui_commit_on_eq, gui_commit_eq.
    destruct (_transactions (self s) !! t); [|discriminate].
    destruct (tables (self s) !! t).
    + unfold written_on. destruct (on_write io (file_path s t));
        try discriminate; intros [= <- <-];
        (split; [intros _ H; by destruct (H t)|done]).
    + intros [= <- <-]. split; [intros _ H; by destruct (H t)|discriminate].
  - (* export_csv *)
    rewrite gui_export_csv_on_eq, gui_export_csv_eq.
    destruct (tables (self s) !! t) as [[|first rows]|];
      [discriminate| |intros [= <- <-]; split; [done|discriminate]].
    destruct (on_write io csv_path).
    + destruct (export_complete (first :: rows) s); [discriminate|].
      intros [= <- <-].
      split; [intros _ _ H; by destruct (H t csv_path)|discriminate].
    + intros [= <- <-]. split; [by intros []|]. intros _. simpl.
      by rewrite ?exported_self, ?exported_heap.
    + intros [= <- <-]. split; [by intros []|]. intros _. simpl.
      by rewrite ?exported_self, ?exported_heap.
Qed.

Lemma terminal_run_on_raise io c s e s' :
  terminal_run_on io c s = (Raise e, s') →
  (e ≠ IOFailure →
   (∀ t, c ≠ Commit t) → (∀ t p, c ≠ ExportCsv t p) →
   s' = s) ∧
  (e = IOFailure →
   self s' = self (snd (terminal_run c s)) ∧
   heap s' = heap (snd (terminal_run c s)) ∧
   prints (out s') = prints (out s)).
Proof.
  destruct c; unfold terminal_run_on, terminal_run, returning; munfold;
    rewrite ?returning_snd; try discriminate;
    try (intros H%returning_raise; revert H).
  - (* create_table *)
    rewrite terminal_create_table_on_eq, terminal_create_table_eq.
    destruct (tables (self s) !! t);
      [intros [= <- <-]; split; [done|discriminate]|].
    assert (Hout : out (created t sch s) = out s)
      by (unfold created; by destruct (truthy_schema sch)).
    unfold written_on. destruct (on_write io (file_path s t));
      try discriminate; intros [= <- <-]; split; try (by intros []);
      intros _; simpl; rewrite Hout; repeat split; try done.
    unfold prints. by rewrite omap_app, app_nil_r.
  - (* load_table *)
    intros H. apply terminal_load_table_raise in H as Hs. subst s'.
    split; [done|].
    intros ->. exfalso. revert H.
    unfold Terminal.load_table, Terminal._path, Terminal.print, rows_of.
    munfold.
    destruct (disk s !! file_path s t) as [[|data| |fieldnames lines|]|] eqn:Hd;
      simpl; rewrite ?Hd; simpl; try discriminate.
    destruct data; simpl; try discriminate.
    destruct (load_rows items); simpl; [|discriminate].
    by rewrite alloc_rows_spec.
  - (* drop_table *)
    rewrite terminal_drop_table_on_eq, terminal_drop_table_eq.
    destruct (tables (self s) !! t);
      [|intros [= <- <-]; split; [done|discriminate]].
    destruct (disk s !! file_path s t);
      [destruct (on_remove io (file_path s t))|]; try discriminate.
    intros [= <- <-]. split; [by intros []|]. intros _. simpl.
    destruct (dropped_memory t s) as [-> ->]. split; [done|]. split; [done|].
    unfold unregistered. simpl. by destruct (schemas (self s) !! t).
  - (* insert *)
    rewrite terminal_insert_on_eq, terminal_insert_eq.
    destruct (insert_checks t record key_column s) as [e'|rows] eqn:Hc.
    + intros [= <- <-]. split; [done|]. intros ->.
      apply insert_checks_error in Hc.
      by apply io_failure_is_no_insert_error in Hc.
    + unfold written_on. destruct (on_write io (file_path s t));
        try discriminate; intros [= <- <-]; split; try (by intros []);
        intros _; simpl; repeat split; try done.
      unfold prints. by rewrite omap_app, app_nil_r.
  - (* select *)
    rewrite terminal_select_eq.
    destruct (kwargs_ok conditions);
      [|intros [= <- <-]; split; [done|discriminate]].
    destruct (tables (self s) !! t); [discriminate|].
    intros [= <- <-]. split; [done|discriminate].
  - (* update *)
    rewrite terminal_update_on_eq, terminal_update_eq.
    destruct (tables (self s) !! t);
      [|intros [= <- <-]; split; [done|discriminate]].
    unfold written_on. destruct (on_write io (file_path s t));
      try discriminate; intros [= <- <-]; split; try (by intros []);
      intros _; simpl; repeat split; try done.
    unfold prints. by rewrite omap_app, app_nil_r.
  - (* delete *)
    rewrite terminal_delete_on_eq, terminal_delete_eq.
    destruct (kwargs_ok conditions);
      [|intros [= <- <-]; split; [done|discriminate]].
    destruct (tables (self s) !! t);
      [|intros [= <- <-]; split; [done|discriminate]].
    unfold written_on. destruct (on_write io (file_path s t));
      try discriminate; intros [= <- <-]; split; try (by intros []);
      intros _; simpl; repeat split; try done.
    unfold prints. by rewrite omap_app, app_nil_r.
  - (* backup_table *)
    rewrite terminal_backup_table_on_eq, terminal_backup_table_eq.
    destruct (tables (self s) !! t);
      [|intros [= <- <-]; split; [done|discriminate]].
    unfold written_on. destruct (on_write io (backup_path t stamp s));
      try discriminate; intros [= <- <-]; split; try (by intros []);
      intros _; simpl; repeat split; try done.
    unfold prints. by rewrite omap_app, app_nil_r.
  - (* begin_transaction *)
    rewrite terminal_begin_transaction_eq.
    destruct (tables (self s) !! t); [discriminate|].
    intros [= <- <-]. split; [done|discriminate].
  - (* rollback *)
    rewrite terminal_rollback_eq.
    destruct (_transactions (self s) !! t); discriminate.
  - (* commit *)
    rewrite terminal_commit_on_eq, terminal_commit_eq.
    destruct (_transactions (self s) !! t); [|discriminate].
    destruct (tables (self s) !! t).
    + unfold written_on. destruct (on_write io (file_path s t));
        try discriminate; intros [= <- <-];
        (split; [intros _ H; by destruct (H t)|]);
        intros _; simpl; repeat split; try done.
      unfold prints. by rewrite omap_app, app_nil_r.
    + destruct (on_write io (file_path s t)); intros [= <- <-];
        (split; [intros _ H; by destruct (H t)|]); try discriminate.
      intros _. by repeat split.
  - (* export_csv *)
    rewrite terminal_export_csv_on_eq, terminal_export_csv_eq.
    destruct (tables (self s) !! t) as [[|first rows]|];
      [discriminate| |intros [= <- <-]; split; [done|discriminate]].
    destruct (on_write io csv_path).
    + destruct (export_complete (first :: rows) s); [discriminate|].
      intros [= <- <-].
      split; [intros _ _ H; by destruct (H t csv_path)|discriminate].
    + intros [= <- <-]. split; [by intros []|]. intros _.
      destruct (export_complete (first :: rows) s); simpl;
        by rewrite ?exported_self, ?exported_heap.
    + intros [= <- <-]. split; [by intros []|]. intros _.
      destruct (export_complete (first :: rows) s); simpl;
        rewrite ?exported_self, ?exported_heap; repeat split; try done;
        unfold prints; by rewrite omap_app, app_nil_r.
Qed.

(** X4. What a call that raises leaves behind, in both editions and on
    any host.  When the error is not the one of a failed file operation,
    the whole state is as it was (tables, schemas, transaction log,
    records, disk and output): so a refused [create_table] overwrites
    nothing, and a [load_table] that finds no file, an empty file or an
    unsupported format keeps the rows it would have replaced.  This is
    stated for every call but [commit] (which has dropped the pending
    snapshot when it raises), [export_csv] (which has written the lines
    before the row it refuses) and, in the GUI edition, a [load_table]
    that raises [AttributeError] (on a legacy list whose first item is no
    object the table is assigned before the error; such files are
    outside the model).  When the error is the one of a failed write or
    removal, the call has already changed the memory: tables, schemas,
    transaction log and records are exactly as after the same call on a
    host where it succeeds (the table is registered, the record
    appended, the rows updated or deleted, the table forgotten), and the
    terminal edition has printed nothing. *)
Theorem failure_leaves_state (io : host) (c : call) (s s' : state) (e : exn) :
  (gui_run_on io c s = (Raise e, s') →
   (e ≠ IOFailure →
    (∀ t, c ≠ Commit t) → (∀ t p, c ≠ ExportCsv t p) →
    (∀ t, c = LoadTable t → e ≠ AttributeError) →
    s' = s) ∧
   (e = IOFailure →
    self s' = self (snd (gui_run c s)) ∧
    heap s' = heap (snd (gui_run c s)))) ∧
  (terminal_run_on io c s = (Raise e, s') →
   (e ≠ IOFailure →
    (∀ t, c ≠ Commit t) → (∀ t p, c ≠ ExportCsv t p) →
    s' = s) ∧
   (e = IOFailure →
    self s' = self (snd (terminal_run c s)) ∧
    heap s' = heap (snd (terminal_run c s)) ∧
    prints (out s') = prints (out s))).
Proof.
  split; [apply gui_run_on_raise|apply terminal_run_on_raise].
Qed.

Lemma failure_leaves_state_witness :
  let s := mkState (mkMDB "data" ".mdb" {[ "t" := [0%nat] ]} ∅ ∅)
             [[("id", VInt 7)]; [("id", VInt 8)]]
             {[ "data/u.mdb" := Json (JInt 3) ]} [] in
  let locked := mkHost (fun _ => OpenFails) (fun _ => true) in
  snd (gui_run (CreateTable "t" None) s) = s ∧
  snd (gui_run (LoadTable "u") s) = s ∧
  tables (self (snd (gui_run_on locked (Insert "t" 1%nat None) s))) !! "t"
  = Some [0%nat; 1%nat].
Proof.
  intros s locked. split; [|split].
  - refine (proj1 (proj1 (failure_leaves_state reliable
                            (CreateTable "t" None) s
                            (snd (gui_run (CreateTable "t" None) s))
                            (ValueError (AlreadyExists "t"))) eq_refl)
              _ _ _ _); discriminate.
  - refine (proj1 (proj1 (failure_leaves_state reliable (LoadTable "u") s
                            (snd (gui_run (LoadTable "u") s))
                            (ValueError UnsupportedFormat)) eq_refl)
              _ _ _ _); discriminate.
  - destruct (proj2 (proj1 (failure_leaves_state locked
                              (Insert "t" 1%nat None) s
                              (snd (gui_run_on locked
                                      (Insert "t" 1%nat None) s))
                              IOFailure) eq_refl) eq_refl) as [-> _].
    reflexivity.
Defined.

(* ===================================================================== *)
(** ** The file of a table *)
(* ===================================================================== *)

Lemma string_length_app (a b : string) :
  String.length (a +:+ b) = (String.length a + String.length b)%nat.
Proof. induction a as [|c a IH]; simpl; [done|]. by rewrite IH. Qed.

Lemma string_app_nil_inv (a b : string) : a +:+ b = a → b = "".
Proof.
  intros H. apply (f_equal String.length) in H.
  rewrite string_length_app in H. destruct b; [done|]. simpl in H. lia.
Qed.

Lemma string_app_inj_r (x y e : string) : x +:+ e = y +:+ e → x = y.
Proof.
  revert y. induction x as [|c x IH]; intros [|c' y] H; simpl in *.
  - done.
  - apply (f_equal String.length) in H.
    rewrite ?string_length_app in H. simpl in H.
    rewrite ?string_length_app in H. lia.
  - apply (f_equal String.length) in H.
    rewrite ?string_length_app in H. simpl in H.
    rewrite ?string_length_app in H. lia.
  - injection H as -> H. f_equal. by apply IH.
Qed.

Lemma relative_name_prefix t e :
  relative_name t → String.prefix "/" (t +:+ e) = false.
Proof.
  unfold relative_name. destruct t as [|c t]; [done|]. intros Hc.
  change (String.prefix "/" (String c t +:+ e))
    with (if Ascii.ascii_dec "/" c then String.prefix "" (t +:+ e) else false).
  destruct (Ascii.ascii_dec "/" c) as [E|_]; [by destruct Hc|reflexivity].
Qed.

Lemma absolute_name_prefix t e :
  String.prefix "/" (String "/" t +:+ e) = true.
Proof.
  change (String.prefix "/" (String "/" t +:+ e))
    with (if Ascii.ascii_dec "/" "/" then String.prefix "" (t +:+ e) else false).
  destruct (Ascii.ascii_dec "/" "/") as [_|E]; [|by destruct E].
  by destruct (t +:+ e).
Qed.

Lemma ends_with_slash_cons c a :
  ends_with_slash (String c a)
  = match a with
    | EmptyString => Ascii.eqb c "/"
    | String _ _ => ends_with_slash a
    end.
Proof.
  unfold ends_with_slash. destruct a as [|c' a]; [done|].
  change (String.length (String c (String c' a)) - 1)%nat
    with (S (String.length a)).
  change (String.length (String c' a) - 1)%nat
    with (String.length a - 0)%nat.
  by rewrite Nat.sub_0_r.
Qed.

Lemma ends_with_slash_spec a :
  ends_with_slash a = true ↔ ∃ pre, a = pre +:+ "/".
Proof.
  induction a as [|c a IH].
  - split; [done|]. intros [[|c pre] H]; [done|]. by destruct pre.
  - rewrite ends_with_slash_cons. destruct a as [|c' a].
    + split.
      * intros H%Ascii.eqb_eq. subst c. by exists "".
      * intros [[|c1 pre] H]; simpl in H.
        -- injection H as ->. done.
        -- injection H as -> H. by destruct pre.
    + rewrite IH. split.
      * intros [pre ->]. by exists (String c pre).
      * intros [[|c1 pre] H]; simpl in H; [done|].
        injection H as -> H. by exists pre.
Qed.

Lemma file_path_joined s t :
  relative_name t →
  (folder (self s) = "" ∨ ∃ pre, folder (self s) = pre +:+ "/") →
  file_path s t = folder (self s) +:+ t +:+ extension (self s).
Proof.
  intros Hr Hf. unfold file_path, path_join.
  rewrite (relative_name_prefix t _ Hr).
  destruct Hf as [->|Hf]; [done|].
  apply ends_with_slash_spec in Hf. rewrite Hf.
  by rewrite orb_true_r.
Qed.

Lemma file_path_separated s t :
  relative_name t →
  folder (self s) ≠ "" → (∀ pre, folder (self s) ≠ pre +:+ "/") →
  file_path s t = folder (self s) +:+ "/" +:+ t +:+ extension (self s).
Proof.
  intros Hr Hne Hns. unfold file_path, path_join.
  rewrite (relative_name_prefix t _ Hr).
  destruct (String.eqb (folder (self s)) "") eqn:E.
  { by apply String.eqb_eq in E. }
  destruct (ends_with_slash (folder (self s))) eqn:E2; [|done].
  apply ends_with_slash_spec in E2 as [pre E2]. by destruct (Hns pre).
Qed.

(** X5. The path string of the file of a table, as [os.path.join]
    builds it on a POSIX host.  For a name that is non-empty and does not
    begin with a slash it is the folder, the name and the extension, with
    no separator when the folder is empty or ends with a slash and with
    one slash between folder and name otherwise; two such names that
    differ have different path strings (which may still name one file,
    as [t] and [./t] do).  For a name that begins with a slash it is the
    name and the extension: the folder is ignored. *)
Theorem file_path_of_names (s : state) (t1 t2 t' : string) :
  (relative_name t1 →
   (folder (self s) = "" ∨ ∃ pre, folder (self s) = pre +:+ "/") →
   file_path s t1 = folder (self s) +:+ t1 +:+ extension (self s)) ∧
  (relative_name t1 →
   folder (self s) ≠ "" → (∀ pre, folder (self s) ≠ pre +:+ "/") →
   file_path s t1 = folder (self s) +:+ "/" +:+ t1 +:+ extension (self s)) ∧
  (relative_name t1 → relative_name t2 →
   file_path s t1 = file_path s t2 → t1 = t2) ∧
  file_path s (String "/" t') = String "/" t' +:+ extension (self s).
Proof.
  split; [apply file_path_joined|]. split; [apply file_path_separated|].
  split.
  2: { unfold file_path, path_join.
       by rewrite (absolute_name_prefix t' (extension (self s))). }
  intros H1 H2. unfold file_path, path_join.
  rewrite (relative_name_prefix t1 _ H1), (relative_name_prefix t2 _ H2).
  destruct (String.eqb (folder (self s)) "" || ends_with_slash (folder (self s)))%bool;
    intros H.
  - apply String.app_inj in H. by apply string_app_inj_r in H.
  - do 2 apply String.app_inj in H.
    by apply string_app_inj_r in H.
Qed.

Lemma file_path_of_names_witness :
  file_path (init "data" ".mdb" [] ∅) "users" = "data/users.mdb" ∧
  file_path (init "data/" ".mdb" [] ∅) "users" = "data/users.mdb".
Proof.
  assert (H : relative_name "users") by (unfold relative_name; discriminate).
  split.
  - refine (proj1 (proj2 (file_path_of_names (init "data" ".mdb" [] ∅)
                            "users" "users" "")) H _ _); [discriminate|].
    intros pre E.
    assert (E' : ends_with_slash "data" = true)
      by (apply ends_with_slash_spec; by exists pre).
    discriminate E'.
  - exact (proj1 (file_path_of_names (init "data/" ".mdb" [] ∅)
                    "users" "users" "") H (or_intror (ex_intro _ "data" eq_refl))).
Defined.

(* ===================================================================== *)
(** ** Dropping a table *)
(* ===================================================================== *)

Lemma dropped_spec t s :
  tables (self (dropped t s)) = base.delete t (tables (self s)) ∧
  schemas (self (dropped t s)) = base.delete t (schemas (self s)) ∧
  _transactions (self (dropped t s)) = _transactions (self s) ∧
  heap (dropped t s) = heap s ∧
  folder (self (dropped t s)) = folder (self s) ∧
  extension (self (dropped t s)) = extension (self s) ∧
  disk (dropped t s) = base.delete (file_path s t) (disk s).
Proof.
  unfold dropped. cbv zeta.
  change (schemas (self (upd_tables (base.delete t) s))) with (schemas (self s)).
  destruct (schemas (self s) !! t) as [sch|] eqn:Hsch.
  - change (file_path (upd_schemas (base.delete t) (upd_tables (base.delete t) s)) t)
      with (file_path s t).
    change (disk (upd_schemas (base.delete t) (upd_tables (base.delete t) s)))
      with (disk s).
    destruct (disk s !! file_path s t) as [f|] eqn:Hd.
    + repeat split; reflexivity.
    + repeat split; try reflexivity.
      cbn [disk upd_schemas upd_tables]. by rewrite delete_id.
  - change (file_path (upd_tables (base.delete t) s) t) with (file_path s t).
    change (disk (upd_tables (base.delete t) s)) with (disk s).
    destruct (disk s !! file_path s t) as [f|] eqn:Hd.
    + repeat split; try reflexivity.
      cbn [schemas self emit upd_tables]. by rewrite delete_id.
    + repeat split; try reflexivity.
      * cbn [schemas self emit upd_tables]. by rewrite delete_id.
      * cbn [disk upd_tables]. by rewrite delete_id.
Qed.

(** X6. In both editions [drop_table] of a live table removes the table
    and its schema from the engine and its file from the disk, and
    touches no other table, schema, record or file.  The table can then
    not be loaded back ([load_table] finds no file), and [create_table]
    accepts the name again. *)
Theorem dropped_table_is_gone (s : state) (t : string) (rows : list nat)
    (sch : option (list (string * option pytype))) :
  tables (self s) !! t = Some rows →
  ∃ g m,
    Gui.drop_table t s = (Ok tt, g) ∧
    Terminal.drop_table t s = (Ok tt, m) ∧
    self m = self g ∧ heap m = heap g ∧ disk m = disk g ∧
    tables (self g) = base.delete t (tables (self s)) ∧
    schemas (self g) = base.delete t (schemas (self s)) ∧
    heap g = heap s ∧
    disk g = base.delete (file_path s t) (disk s) ∧
    Gui.load_table t g = (Raise (FileNotFoundError t), g) ∧
    Terminal.load_table t m = (Raise (FileNotFoundError t), m) ∧
    fst (Gui.create_table t sch g) = Ok tt ∧
    fst (Terminal.create_table t sch m) = Ok tt.
Proof.
  intros Ht. rewrite gui_drop_table_eq, terminal_drop_table_eq, Ht.
  destruct (dropped_spec t s) as (H1 & H2 & H3 & H4 & H5 & H6 & H7).
  eexists _, _. split; [reflexivity|]. split; [reflexivity|].
  simpl. repeat split; try done.
  - unfold Gui.load_table, Gui._path. munfold.
    assert (Hp : file_path (dropped t s) t = file_path s t).
    { unfold file_path. by rewrite H5, H6. }
    rewrite Hp, H7, lookup_delete_eq. done.
  - unfold Terminal.load_table, Terminal._path. munfold.
    assert (Hp : file_path (emit (EPrint (MsgDropped t)) (dropped t s)) t
                 = file_path s t).
    { unfold file_path. simpl. by rewrite H5, H6. }
    rewrite Hp. simpl. rewrite H7, lookup_delete_eq. done.
  - rewrite gui_create_table_eq, H1, lookup_delete_eq. done.
  - rewrite terminal_create_table_eq. simpl. rewrite H1, lookup_delete_eq. done.
Qed.

Lemma dropped_table_is_gone_witness :
  let s := mkState (mkMDB "data" ".mdb" {[ "t" := [0%nat] ]}
                      {[ "t" := [("id", Some TInt)] ]} ∅)
             [[("id", VInt 7)]] {[ "data/t.mdb" := Json (JArr []) ]} [] in
  ∃ g, Gui.drop_table "t" s = (Ok tt, g) ∧
       Gui.load_table "t" g = (Raise (FileNotFoundError "t"), g).
Proof.
  intros s.
  destruct (dropped_table_is_gone s "t" [0%nat] None eq_refl)
    as (g & m & H1 & _ & _ & _ & _ & _ & _ & _ & _ & H2 & _).
  exists g. by split.
Defined.

(* ===================================================================== *)
(** ** [select], [delete] and [update] after one another *)
(* ===================================================================== *)

(** X7. In the terminal edition, after a successful [insert], a [select]
    with no conditions returns the old rows followed by the new record.
    A [select] whose conditions name no column [self] or [table_name]
    returns what it returned before the insert, followed by the new
    record when the record satisfies the conditions.  With a condition
    on a column named [self] or [table_name] the call raises a
    [TypeError] (the keyword collides with a parameter of the method),
    before and after the insert. *)
Theorem select_after_insert (s : state) (t : string) (record : nat)
    (key_column : option string) (conditions : list (string * value)) :
  fst (Terminal.insert t record key_column s) = Ok tt →
  let m := snd (Terminal.insert t record key_column s) in
  ∃ rows,
    tables (self s) !! t = Some rows ∧
    Terminal.select t [] m = (Ok (rows ++ [record]), m) ∧
    (kwargs_ok conditions = true →
     ∃ before,
       Terminal.select t conditions s = (Ok before, s) ∧
       Terminal.select t conditions m
       = (Ok (if holds conditions (deref (heap s) record)
              then before ++ [record] else before), m)) ∧
    (kwargs_ok conditions = false →
     Terminal.select t conditions s = (Raise TypeErrorMultipleValues, s) ∧
     Terminal.select t conditions m = (Raise TypeErrorMultipleValues, m)).
Proof.
  rewrite terminal_insert_eq.
  destruct (insert_checks t record key_column s) as [e|rows] eqn:Hc;
    [discriminate|].
  apply insert_checks_rows in Hc. intros _. simpl.
  exists rows. split; [done|]. rewrite !terminal_select_eq, Hc.
  split; [|split].
  - simpl. rewrite lookup_insert_eq. by rewrite filter_all.
  - intros ->.
    exists (List.filter (fun l => holds conditions (deref (heap s) l)) rows).
    split; [done|]. simpl. rewrite lookup_insert_eq.
    rewrite List.filter_app. simpl.
    destruct (holds conditions (deref (heap s) record)); [done|].
    by rewrite app_nil_r.
  - by intros ->.
Qed.

Lemma select_after_insert_witness :
  let s := mkState (mkMDB "data" ".mdb" {[ "t" := [0%nat] ]} ∅ ∅)
             [[("a", VInt 1)]; [("a", VInt 1); ("b", VStr "x")]] ∅ [] in
  ∃ m, Terminal.insert "t" 1%nat None s = (Ok tt, m) ∧
       Terminal.select "t" [("a", VInt 1)] m = (Ok [0%nat; 1%nat], m) ∧
       Terminal.select "t" [("self", VInt 1)] m
       = (Raise TypeErrorMultipleValues, m).
Proof.
  intros s.
  destruct (select_after_insert s "t" 1%nat None [("a", VInt 1)] eq_refl)
    as (rows & _ & _ & Hyes & _).
  destruct (Hyes eq_refl) as (before & Hb & Ha).
  destruct (select_after_insert s "t" 1%nat None [("self", VInt 1)] eq_refl)
    as (rows' & _ & _ & _ & Hno).
  exists (snd (Terminal.insert "t" 1%nat None s)). split; [reflexivity|].
  split; [|exact (proj2 (Hno eq_refl))].
  rewrite Ha. vm_compute in Hb. injection Hb as <-. reflexivity.
Defined.

Lemma filter_filter_negb {A} (f : A → bool) (l : list A) :
  List.filter f (List.filter (fun x => negb (f x)) l) = [].
Proof.
  induction l as [|x l IH]; simpl; [done|].
  destruct (f x) eqn:Hx; simpl; [done|]. by rewrite Hx.
Qed.

Lemma filter_negb_idem {A} (f : A → bool) (l : list A) :
  List.filter (fun x => negb (f x)) (List.filter (fun x => negb (f x)) l)
  = List.filter (fun x => negb (f x)) l.
Proof.
  induction l as [|x l IH]; simpl; [done|].
  destruct (f x) eqn:Hx; simpl; [done|]. by rewrite Hx, IH.
Qed.

Lemma deleted_spec t cs rows s :
  tables (self (deleted t cs rows s))
  = <[t := List.filter (fun l => negb (holds cs (deref (heap s) l))) rows]>
      (tables (self s)) ∧
  schemas (self (deleted t cs rows s)) = schemas (self s) ∧
  _transactions (self (deleted t cs rows s)) = _transactions (self s) ∧
  heap (deleted t cs rows s) = heap s ∧
  disk (deleted t cs rows s) = disk s.
Proof. done. Qed.

(** X8. In both editions [delete] on a live table, with conditions that
    name no column [self] or [table_name], keeps exactly the rows that do
    not satisfy the conditions, in their order, and changes no record,
    schema or other table.  Afterwards a [select] with the same
    conditions finds nothing, and a second [delete] with them removes
    nothing (count 0) and leaves the engine as it is.  With no conditions
    every row is removed.  With a condition on a column named [self] or
    [table_name] the call raises a [TypeError] (the keyword collides with
    a parameter of the method) and nothing is deleted or written. *)
Theorem delete_then_select (s : state) (t : string)
    (conditions : list (string * value)) (rows : list nat) :
  tables (self s) !! t = Some rows →
  (kwargs_ok conditions = true →
   let kept :=
     List.filter (fun l => negb (holds conditions (deref (heap s) l))) rows in
   let g := snd (Gui.delete t conditions s) in
   let m := snd (Terminal.delete t conditions s) in
   tables (self g) = <[t := kept]> (tables (self s)) ∧
   schemas (self g) = schemas (self s) ∧
   self m = self g ∧ heap g = heap s ∧ heap m = heap s ∧
   sublist kept rows ∧
   Terminal.select t conditions m = (Ok [], m) ∧
   fst (Gui.delete t conditions g) = Ok (VInt 0) ∧
   self (snd (Gui.delete t conditions g)) = self g ∧
   (conditions = [] → kept = [])) ∧
  (kwargs_ok conditions = false →
   Gui.delete t conditions s = (Raise TypeErrorMultipleValues, s) ∧
   Terminal.delete t conditions s = (Raise TypeErrorMultipleValues, s)).
Proof.
  intros Ht. split.
  2: { intros Hk. by rewrite gui_delete_eq, terminal_delete_eq, Hk. }
  intros Hk kept g m. subst g m.
  rewrite gui_delete_eq, terminal_delete_eq, Hk, Ht. simpl.
  split; [done|]. split; [done|]. split; [done|]. split; [done|].
  split; [done|]. split; [apply filter_sublist|]. split; [|split; [|split]].
  - rewrite terminal_select_eq, Hk. simpl. rewrite lookup_insert_eq.
    unfold delete_rows. by rewrite filter_filter_negb.
  - rewrite gui_delete_eq, Hk. simpl. rewrite lookup_insert_eq. simpl.
    rewrite deleted_count_matching, filter_view. simpl.
    unfold delete_rows. by rewrite filter_filter_negb.
  - rewrite gui_delete_eq, Hk. simpl. rewrite lookup_insert_eq. simpl.
    unfold delete_rows. by rewrite filter_negb_idem, insert_insert_eq.
  - intros Hc. unfold kept. rewrite Hc. clear. by induction rows.
Qed.

Lemma delete_then_select_witness :
  tables (self (snd (Gui.delete "t" [("id", VInt 1)] two_rows_state))) !! "t"
  = Some [1%nat] ∧
  Gui.delete "t" [("table_name", VInt 1)] two_rows_state
  = (Raise TypeErrorMultipleValues, two_rows_state).
Proof.
  split.
  - destruct (proj1 (delete_then_select two_rows_state "t" [("id", VInt 1)]
                       [0%nat; 1%nat] eq_refl) eq_refl) as (H & _).
    rewrite H. reflexivity.
  - exact (proj1 (proj2 (delete_then_select two_rows_state "t"
                           [("table_name", VInt 1)] [0%nat; 1%nat] eq_refl)
                    eq_refl)).
Defined.

(** *** Deleting a row by its own content *)

Lemma SFeqb_refl x : x ≠ S754_nan → SFeqb x x = true.
Proof.
  destruct x as [sg|sg| |sg m e]; intros Hx; try done.
  - by destruct sg.
  - unfold SFeqb, SFcompare.
    destruct sg; rewrite Z.compare_refl, Pos.compare_cont_refl; done.
Qed.

Lemma py_eq_refl v : is_nan v = false → py_eq v v = true.
Proof.
  destruct v as [|b|n|x|str]; simpl; intros Hv; try done.
  - by destruct b.
  - apply Z.eqb_refl.
  - apply SFeqb_refl. by intros ->.
  - apply String.eqb_refl.
Qed.

Lemma py_eq_nan v w : is_nan w = true → py_eq v w = false.
Proof.
  destruct w as [| | |[| | |]|]; try done. intros _.
  destruct v as [|b|n|x|str]; simpl; try done.
  unfold SFeqb, SFcompare. by destruct x.
Qed.

Lemma dict_lookup_In {V} (d : list (string * V)) k v :
  wf_dict d → In (k, v) d → dict_lookup d k = Some v.
Proof.
  unfold wf_dict. induction d as [|[k0 v0] d IH]; simpl; [done|].
  rewrite NoDup_cons. intros [Hk Hd] [[= -> ->]|Hin].
  - by rewrite String.eqb_refl.
  - destruct (String.eqb_spec k0 k) as [->|_]; [|by apply IH].
    destruct Hk. apply list_elem_of_In. change k with (fst (k, v)).
    by apply in_map.
Qed.

Lemma holds_self r : wf_dict r → nan_free r → holds r r = true.
Proof.
  intros Hwf Hnan. apply Forall_forallb_holds. intros k v Hin.
  unfold get. rewrite (dict_lookup_In r k v Hwf Hin).
  apply py_eq_refl.
  unfold nan_free in Hnan. rewrite Forall_forall in Hnan.
  apply (Hnan (k, v)). by apply list_elem_of_In.
Qed.

Lemma holds_nan cs r :
  Exists (fun kv => is_nan (snd kv) = true) cs → holds cs r = false.
Proof.
  unfold holds. induction 1 as [[k v] cs Hv|[k v] cs _ IH]; simpl.
  - by rewrite py_eq_nan.
  - rewrite IH. apply andb_false_r.
Qed.

(** X9. [delete] called with the content of a row of the table as
    conditions (as the GUI does with [**row]).  When the row has no
    column named [self] or [table_name], the call removes that row and
    every row with the same content, and returns a count of at least 1,
    provided no value of the row is the float [nan]; a row that holds a
    [nan] satisfies no conditions made of its own content: the call then
    removes nothing and returns 0.  When the row has a column named
    [self] or [table_name], the call raises a [TypeError] (the keyword
    collides with a parameter of the method) and removes nothing. *)
Theorem delete_row_by_content (s : state) (t : string) (rows : list nat)
    (l : nat) :
  tables (self s) !! t = Some rows →
  l ∈ rows →
  wf_dict (deref (heap s) l) →
  let row := deref (heap s) l in
  let kept :=
    List.filter (fun l' => negb (holds row (deref (heap s) l'))) rows in
  (kwargs_ok row = true →
   tables (self (snd (Gui.delete t row s))) !! t = Some kept ∧
   (nan_free row →
    (l ∉ kept) ∧
    (∀ l', deref (heap s) l' = row → l' ∉ kept) ∧
    ∃ n, fst (Gui.delete t row s) = Ok (VInt n) ∧ 1 ≤ n) ∧
   (Exists (fun kv => is_nan (snd kv) = true) row →
    kept = rows ∧ fst (Gui.delete t row s) = Ok (VInt 0))) ∧
  (kwargs_ok row = false →
   Gui.delete t row s = (Raise TypeErrorMultipleValues, s)).
Proof.
  intros Ht Hl Hwf row kept. split.
  2: { intros Hk. by rewrite gui_delete_eq, Hk. }
  intros Hk. rewrite gui_delete_eq, Hk, Ht. simpl.
  rewrite lookup_insert_eq. split; [done|]. split.
  - intros Hnan.
    assert (Hgone : ∀ l', deref (heap s) l' = row → l' ∉ kept).
    { intros l' Hl' Hin. apply list_elem_of_In, filter_In in Hin.
      destruct Hin as [_ Hin]. rewrite Hl', holds_self in Hin; done. }
    split; [by apply Hgone|]. split; [done|].
    eexists. split; [reflexivity|].
    rewrite deleted_count_matching, filter_view, length_view.
    assert (Hin : In l (List.filter
                          (fun l' => holds row (deref (heap s) l')) rows)).
    { apply filter_In. split; [by apply list_elem_of_In|].
      by apply holds_self. }
    destruct (List.filter (fun l' => holds row (deref (heap s) l')) rows);
      [done|]. simpl. lia.
  - intros Hnan.
    assert (Hkept : kept = rows).
    { unfold kept. apply filter_all. intros l'. by rewrite holds_nan. }
    split; [done|]. f_equal. f_equal.
    unfold deleted_count, delete_rows. fold row. fold kept. rewrite Hkept. lia.
Qed.

Lemma delete_row_by_content_witness :
  let s := mkState (mkMDB "data" ".mdb" {[ "t" := [0; 1; 2; 3]%nat ]} ∅ ∅)
             [[("id", VInt 1)]; [("id", VFloat S754_nan)]; [("id", VBool true)];
              [("table_name", VStr "x")]]
             ∅ [] in
  tables (self (snd (Gui.delete "t" [("id", VInt 1)] s))) !! "t"
  = Some [1; 3]%nat ∧
  tables (self (snd (Gui.delete "t" [("id", VFloat S754_nan)] s))) !! "t"
  = Some [0; 1; 2; 3]%nat ∧
  Gui.delete "t" [("table_name", VStr "x")] s
  = (Raise TypeErrorMultipleValues, s).
Proof.
  intros s.
  assert (H0 : tables (self s) !! "t" = Some [0; 1; 2; 3]%nat) by reflexivity.
  split; [|split].
  - refine (proj1 (proj1 (delete_row_by_content s "t" [0; 1; 2; 3]%nat 0%nat
                            H0 _ _) eq_refl)).
    + refine (bool_decide_unpack (elem_of _ _) _). vm_compute. exact I.
    + refine (bool_decide_unpack (NoDup _) _). vm_compute. exact I.
  - refine (proj1 (proj1 (delete_row_by_content s "t" [0; 1; 2; 3]%nat 1%nat
                            H0 _ _) eq_refl)).
    + refine (bool_decide_unpack (elem_of _ _) _). vm_compute. exact I.
    + refine (bool_decide_unpack (NoDup _) _). vm_compute. exact I.
  - refine (proj2 (delete_row_by_content s "t" [0; 1; 2; 3]%nat 3%nat
                     H0 _ _) eq_refl).
    + refine (bool_decide_unpack (elem_of _ _) _). vm_compute. exact I.
    + refine (bool_decide_unpack (NoDup _) _). vm_compute. exact I.
Defined.

(** *** What [update] writes *)

Lemma get_dict_set (r : list (string * value)) k v k' :
  get (dict_set r k v) k' = if String.eqb k k' then v else get r k'.
Proof.
  unfold get. induction r as [|[k0 v0] r IH]; simpl.
  - by destruct (String.eqb k k').
  - destruct (String.eqb_spec k0 k) as [->|Hne]; simpl.
    + by destruct (String.eqb k k').
    + destruct (String.eqb_spec k0 k') as [->|Hne'].
      * destruct (String.eqb_spec k k') as [->|_]; done.
      * apply IH.
Qed.

Lemma dict_mem_dict_set (r : list (string * value)) k v k' :
  dict_mem (dict_set r k v) k' = (String.eqb k k' || dict_mem r k')%bool.
Proof.
  unfold dict_mem. induction r as [|[k0 v0] r IH]; simpl.
  - by destruct (String.eqb k k').
  - destruct (String.eqb_spec k0 k) as [->|Hne]; simpl.
    + by destruct (String.eqb k k').
    + destruct (String.eqb_spec k0 k') as [->|Hne'].
      * by rewrite orb_true_r.
      * apply IH.
Qed.

Lemma dict_lookup_notin {V} (d : list (string * V)) k :
  k ∉ map fst d → dict_lookup d k = None.
Proof.
  induction d as [|[k0 v0] d IH]; simpl; [done|].
  rewrite not_elem_of_cons. intros [Hne Hk].
  destruct (String.eqb_spec k0 k) as [->|_]; [done|]. by apply IH.
Qed.

Lemma get_apply_updates (us r : list (string * value)) k :
  wf_dict us →
  get (apply_updates us r) k
  = match dict_lookup us k with Some v => v | None => get r k end.
Proof.
  unfold wf_dict, apply_updates. revert r.
  induction us as [|[k0 v0] us IH]; intros r; simpl; [done|].
  rewrite NoDup_cons. intros [Hk Hus]. rewrite (IH _ Hus), get_dict_set.
  destruct (String.eqb_spec k0 k) as [->|_]; [|done].
  by rewrite dict_lookup_notin.
Qed.

Lemma dict_mem_apply_updates (us r : list (string * value)) k :
  dict_mem r k = true → dict_mem (apply_updates us r) k = true.
Proof.
  unfold apply_updates. revert r.
  induction us as [|[k0 v0] us IH]; intros r Hr; simpl; [done|].
  apply IH. rewrite dict_mem_dict_set, Hr. apply orb_true_r.
Qed.

Lemma updated_rows_pointwise cs us rows h :
  NoDup rows →
  Forall (fun l => (l < length h)%nat) rows →
  cs ∉ rows → us ∉ rows →
  ∀ l, l ∈ rows →
       deref (fst (update_rows cs us rows h 0)) l
       = update_record (deref h cs) (deref h us) (deref h l).
Proof.
  intros Hnd Hv Hcs Hus l Hl.
  destruct (update_rows_distinct cs us rows h 0 Hnd Hv Hcs Hus) as [Hview _].
  unfold view in Hview. rewrite map_map in Hview.
  apply (proj1 map_ext_in_iff Hview). by apply list_elem_of_In.
Qed.

(** X10. In both editions [update] on a live table returns normally
    whatever the schema of the table says (the new values are not
    validated).  When no record object is stored twice in the table and
    neither [conditions] nor [updates] is a row of it, every row that
    satisfies the conditions then holds, for each column of [updates],
    the value given there, and keeps its other columns; the rows that do
    not satisfy them, and every object that is not a row of the table,
    are unchanged.  The table still holds the same record objects in the
    same order. *)
Theorem update_writes (s : state) (t : string) (conditions updates : nat)
    (rows : list nat) :
  tables (self s) !! t = Some rows →
  NoDup rows →
  Forall (fun l => (l < length (heap s))%nat) rows →
  conditions ∉ rows → updates ∉ rows →
  wf_dict (deref (heap s) updates) →
  let g := snd (Gui.update t conditions updates s) in
  let m := snd (Terminal.update t conditions updates s) in
  (∃ n, fst (Gui.update t conditions updates s) = Ok (VInt n)) ∧
  self g = self s ∧ self m = self s ∧ heap m = heap g ∧
  (∀ l, l ∈ rows →
        holds (deref (heap s) conditions) (deref (heap s) l) = true →
        ∀ k, get (deref (heap g) l) k
             = match dict_lookup (deref (heap s) updates) k with
               | Some v => v
               | None => get (deref (heap s) l) k
               end) ∧
  (∀ l, l ∈ rows →
        holds (deref (heap s) conditions) (deref (heap s) l) = false →
        deref (heap g) l = deref (heap s) l) ∧
  (∀ l, l ∉ rows → deref (heap g) l = deref (heap s) l).
Proof.
  intros Ht Hnd Hv Hcs Hus Hwf g m. subst g m.
  rewrite gui_update_eq, terminal_update_eq, Ht. simpl.
  split; [by eexists|]. split; [done|]. split; [done|]. split; [done|].
  split; [|split].
  - intros l Hl Hh k.
    rewrite (updated_rows_pointwise _ _ _ _ Hnd Hv Hcs Hus l Hl).
    unfold update_record. rewrite Hh. by apply get_apply_updates.
  - intros l Hl Hh.
    rewrite (updated_rows_pointwise _ _ _ _ Hnd Hv Hcs Hus l Hl).
    unfold update_record. by rewrite Hh.
  - intros l Hl. by apply update_rows_frame.
Qed.

Lemma update_writes_witness :
  let s := five_rows_state in
  let g := snd (Gui.update "t" 7%nat 6%nat s) in
  get (deref (heap g) 0%nat) "k" = VInt 0 ∧
  deref (heap g) 1%nat = [("k", VInt 2)].
Proof.
  intros s g.
  assert (H0 : tables (self s) !! "t" = Some [0; 1; 2; 3; 4]%nat) by reflexivity.
  assert (Hnd : NoDup [0; 1; 2; 3; 4]%nat)
    by (refine (bool_decide_unpack (NoDup _) _); vm_compute; exact I).
  assert (Hv : Forall (fun l => (l < length (heap s))%nat) [0; 1; 2; 3; 4]%nat)
    by (repeat constructor; simpl; lia).
  assert (Hcs : 7%nat ∉ [0; 1; 2; 3; 4]%nat)
    by (refine (bool_decide_unpack (not _) _); vm_compute; exact I).
  assert (Hus : 6%nat ∉ [0; 1; 2; 3; 4]%nat)
    by (refine (bool_decide_unpack (not _) _); vm_compute; exact I).
  assert (Hwf : wf_dict (deref (heap s) 6%nat))
    by (refine (bool_decide_unpack (NoDup _) _); vm_compute; exact I).
  destruct (update_writes s "t" 7%nat 6%nat _ H0 Hnd Hv Hcs Hus Hwf)
    as (_ & _ & _ & _ & Hyes & Hno & _).
  split.
  - refine (Hyes 0%nat _ eq_refl "k").
    refine (bool_decide_unpack (elem_of _ _) _). vm_compute. exact I.
  - refine (Hno 1%nat _ eq_refl).
    refine (bool_decide_unpack (elem_of _ _) _). vm_compute. exact I.
Defined.

(* ===================================================================== *)
(** ** Committing, dropping and backing up *)
(* ===================================================================== *)

(** X11. In both editions [commit] of a live table with a pending
    transaction returns normally, discards the snapshot, writes the
    table's file with the rows as they are now and changes nothing else;
    the changes can then no longer be rolled back: [rollback] and a
    second [commit] change nothing in memory or on disk. *)
Theorem commit_persists (s : state) (t : string) (rows snapshot : list nat) :
  tables (self s) !! t = Some rows →
  _transactions (self s) !! t = Some snapshot →
  let g := snd (Gui.commit t s) in
  let m := snd (Terminal.commit t s) in
  fst (Gui.commit t s) = Ok tt ∧ fst (Terminal.commit t s) = Ok tt ∧
  tables (self g) = tables (self s) ∧
  schemas (self g) = schemas (self s) ∧
  _transactions (self g) = base.delete t (_transactions (self s)) ∧
  heap g = heap s ∧
  self m = self g ∧ heap m = heap g ∧
  disk g = <[file_path s t := live_document t s]> (disk s) ∧
  disk m = <[file_path s t := Json (dump_rows (view (heap s) rows))]> (disk s) ∧
  Gui.rollback t g = (Ok tt, g) ∧
  Gui.commit t g = (Ok tt, g) ∧
  self (snd (Terminal.rollback t m)) = self m ∧
  disk (snd (Terminal.rollback t m)) = disk m ∧
  self (snd (Terminal.commit t m)) = self m ∧
  disk (snd (Terminal.commit t m)) = disk m.
Proof.
  intros Ht Htx g m. subst g m.
  rewrite gui_commit_eq, terminal_commit_eq, Htx, Ht. simpl.
  rewrite Ht. simpl.
  split; [done|]. split; [done|]. split; [done|]. split; [done|].
  split; [done|]. split; [done|]. split; [done|]. split; [done|].
  split; [unfold live_document; rewrite Ht; reflexivity|].
  split; [reflexivity|].
  rewrite gui_rollback_eq, gui_commit_eq, terminal_rollback_eq,
    terminal_commit_eq.
  simpl. rewrite lookup_delete_eq. simpl. rewrite Ht.
  repeat split; reflexivity.
Qed.

Lemma commit_persists_witness :
  let s := snd (Gui.begin_transaction "t" two_rows_state) in
  disk (snd (Gui.commit "t" s)) !! "data/t.mdb"
  = Some (live_document "t" s).
Proof.
  intros s.
  destruct (commit_persists s "t" [0; 1]%nat [2; 3]%nat eq_refl eq_refl)
    as (_ & _ & _ & _ & _ & _ & _ & _ & H & _).
  rewrite H. reflexivity.
Defined.

Lemma load_table_empty_file t s :
  disk s !! file_path s t = Some Empty →
  Terminal.load_table t s = (Raise JSONDecodeError, s) ∧
  Gui.load_table t s = (Raise JSONDecodeError, s).
Proof.
  intros H. unfold Terminal.load_table, Terminal._path, Gui.load_table,
    Gui._path. munfold.
  repeat (rewrite H; simpl). done.
Qed.

(** X12. [drop_table] never touches the transaction log.  When the
    dropped table had a pending transaction, the snapshot outlives the
    table in both editions: a later [rollback] registers the table again
    with the snapshot rows, without schema and without file; a later
    [commit] discards the snapshot and raises [KeyError], which in the
    terminal edition leaves an empty file behind that neither edition can
    load. *)
Theorem pending_transaction_survives_drop (s : state) (t : string)
    (rows snapshot : list nat) :
  tables (self s) !! t = Some rows →
  _transactions (self s) !! t = Some snapshot →
  let g := snd (Gui.drop_table t s) in
  let m := snd (Terminal.drop_table t s) in
  _transactions (self g) = _transactions (self s) ∧
  _transactions (self m) = _transactions (self s) ∧
  tables (self g) !! t = None ∧
  (let g' := snd (Gui.rollback t g) in
   tables (self g') !! t = Some snapshot ∧
   schemas (self g') !! t = None ∧
   disk g' !! file_path s t = None) ∧
  (let m' := snd (Terminal.rollback t m) in
   tables (self m') !! t = Some snapshot ∧
   schemas (self m') !! t = None ∧
   disk m' !! file_path s t = None) ∧
  (∃ g', Gui.commit t g = (Raise (KeyError t), g') ∧
         _transactions (self g') !! t = None ∧
         tables (self g') = tables (self g) ∧
         disk g' = disk g) ∧
  (∃ m', Terminal.commit t m = (Raise (KeyError t), m') ∧
         _transactions (self m') !! t = None ∧
         tables (self m') = tables (self m) ∧
         disk m' !! file_path s t = Some Empty ∧
         Terminal.load_table t m' = (Raise JSONDecodeError, m') ∧
         Gui.load_table t m' = (Raise JSONDecodeError, m')).
Proof.
  intros Ht Htx g m. subst g m.
  rewrite gui_drop_table_eq, terminal_drop_table_eq, Ht. simpl.
  destruct (dropped_spec t s) as (H1 & H2 & H3 & H4 & H5 & H6 & H7).
  assert (Hp : ∀ s', folder (self s') = folder (self (dropped t s)) →
                     extension (self s') = extension (self (dropped t s)) →
                     file_path s' t = file_path s t).
  { intros s' Hf He. unfold file_path. by rewrite Hf, He, H5, H6. }
  split; [done|]. split; [done|].
  split; [by rewrite H1, lookup_delete_eq|].
  split; [|split; [|split]].
  - rewrite gui_rollback_eq, H3, Htx. simpl.
    rewrite lookup_insert_eq, H2, H7, !lookup_delete_eq. done.
  - rewrite terminal_rollback_eq. simpl. rewrite H3, Htx. simpl.
    rewrite lookup_insert_eq, H2, H7, !lookup_delete_eq. done.
  - rewrite gui_commit_eq, H3, Htx, H1, lookup_delete_eq.
    eexists. split; [reflexivity|]. simpl.
    by rewrite lookup_delete_eq.
  - rewrite terminal_commit_eq. simpl. rewrite H3, Htx, H1, lookup_delete_eq.
    set (x := emit (EPrint (MsgDropped t)) (dropped t s)).
    assert (Hx : file_path x t = file_path s t) by by apply Hp.
    exists (emit (EWrite (file_path x t) Empty) (committed t x)).
    assert (Hd : disk (emit (EWrite (file_path x t) Empty) (committed t x))
                   !! file_path s t = Some Empty).
    { simpl. rewrite Hx. apply lookup_insert_eq. }
    split; [reflexivity|]. split; [simpl; by rewrite lookup_delete_eq|].
    split; [done|]. split; [exact Hd|].
    apply load_table_empty_file.
    rewrite (Hp (emit (EWrite (file_path x t) Empty) (committed t x)))
      by done.
    exact Hd.
Qed.

Lemma pending_transaction_survives_drop_witness :
  let s := snd (Gui.begin_transaction "t" two_rows_state) in
  tables (self (snd (Gui.rollback "t" (snd (Gui.drop_table "t" s))))) !! "t"
  = Some [2; 3]%nat.
Proof.
  intros s.
  destruct (pending_transaction_survives_drop s "t" [0; 1]%nat [2; 3]%nat
              eq_refl eq_refl) as (_ & _ & _ & (H & _) & _).
  exact H.
Defined.

Lemma backup_path_fresh t stamp s : backup_path t stamp s ≠ file_path s t.
Proof.
  unfold backup_path. intros H. by apply string_app_nil_inv in H.
Qed.

(** X13. In both editions [backup_table] of a live table changes nothing
    in memory and writes one file, beside the table's own (the table's
    path followed by [.backup.] and the time stamp), holding exactly what
    [_save] would write to the table's file now; the table's own file and
    every other file are left as they are. *)
Theorem backup_writes_copy (s : state) (t stamp : string) (rows : list nat) :
  tables (self s) !! t = Some rows →
  let g := snd (Gui.backup_table t stamp s) in
  let m := snd (Terminal.backup_table t stamp s) in
  fst (Gui.backup_table t stamp s) = Ok tt ∧
  fst (Terminal.backup_table t stamp s) = Ok tt ∧
  self g = self s ∧ heap g = heap s ∧ self m = self s ∧ heap m = heap s ∧
  backup_path t stamp s = file_path s t +:+ ".backup." +:+ stamp ∧
  backup_path t stamp s ≠ file_path s t ∧
  (∀ p, p ≠ backup_path t stamp s →
        disk g !! p = disk s !! p ∧ disk m !! p = disk s !! p) ∧
  disk g !! backup_path t stamp s
  = disk (snd (Gui._save t s)) !! file_path s t ∧
  disk m !! backup_path t stamp s
  = disk (snd (Terminal._save t s)) !! file_path s t ∧
  disk g !! backup_path t stamp s = Some (live_document t s) ∧
  disk m !! backup_path t stamp s
  = Some (Json (dump_rows (view (heap s) rows))).
Proof.
  intros Ht g m. subst g m.
  rewrite gui_backup_table_eq, terminal_backup_table_eq, Ht.
  rewrite (gui_save_live t s), (terminal_save_live t s) by by rewrite Ht.
  simpl. rewrite !lookup_insert_eq.
  split; [done|]. split; [done|]. split; [done|]. split; [done|].
  split; [done|]. split; [done|]. split; [done|].
  split; [apply backup_path_fresh|].
  split; [intros p Hp; split; by rewrite lookup_insert_ne|].
  unfold live_document. rewrite Ht. repeat split; reflexivity.
Qed.

Lemma backup_writes_copy_witness :
  disk (snd (Gui.backup_table "t" "20240101120000" two_rows_state))
    !! "data/t.mdb.backup.20240101120000"
  = Some (live_document "t" two_rows_state).
Proof.
  destruct (backup_writes_copy two_rows_state "t" "20240101120000"
              [0; 1]%nat eq_refl)
    as (_ & _ & _ & _ & _ & _ & _ & _ & _ & _ & _ & H & _).
  exact H.
Defined.

(* ===================================================================== *)
(** ** Files across a restart and across the editions *)
(* ===================================================================== *)

Lemma terminal_saved_file t s rows :
  tables (self s) !! t = Some rows →
  disk (restarted (snd (Terminal._save t s)))
    !! file_path (restarted (snd (Terminal._save t s))) t
  = Some (Json (JArr (map dump_record (view (heap s) rows)))).
Proof.
  intros Ht. rewrite (terminal_save_live t s) by by rewrite Ht.
  change (file_path (restarted (snd (Ok tt, terminal_saved t s))) t)
    with (file_path s t).
  simpl. rewrite Ht. apply lookup_insert_eq.
Qed.

(** X14. The terminal edition's [_save] followed by its [load_table]
    gives back the rows with the same content, in order, as fresh record
    objects, both in the running engine (whose schemas are left as they
    are) and after a restart.  The file holds no schema, so after a
    restart the table has none and [_validate_record] accepts every
    record for it. *)
Theorem terminal_save_load (s : state) (t : string) (rows : list nat) :
  tables (self s) !! t = Some rows →
  let s1 := snd (Terminal._save t s) in
  fst (Terminal._save t s) = Ok tt ∧
  (∃ s2 rows',
     Terminal.load_table t s1 = (Ok tt, s2) ∧
     tables (self s2) !! t = Some rows' ∧
     view (heap s2) rows' = view (heap s) rows ∧
     schemas (self s2) = schemas (self s)) ∧
  (∃ s2 rows',
     Terminal.load_table t (restarted s1) = (Ok tt, s2) ∧
     tables (self s2) !! t = Some rows' ∧
     view (heap s2) rows' = view (heap s) rows ∧
     schemas (self s2) = ∅ ∧
     ∀ record, Terminal._validate_record t record s2 = (Ok tt, s2)).
Proof.
  intros Ht s1. pose proof (terminal_saved_file t s rows Ht) as Hfile.
  subst s1. rewrite (terminal_save_live t s) in * by by rewrite Ht.
  split; [done|]. split.
  - eexists _, _. split.
    + apply (terminal_load_legacy t _ (map dump_record (view (heap s) rows))
               (view (heap s) rows)); [|apply load_dump_rows].
      change (file_path (snd (Ok tt, terminal_saved t s)) t)
        with (file_path s t).
      simpl. rewrite Ht. apply lookup_insert_eq.
    + simpl. rewrite lookup_insert_eq. split; [done|].
      split; [apply view_fresh|done].
  - eexists _, _. split.
    + apply (terminal_load_legacy t _ (map dump_record (view (heap s) rows))
               (view (heap s) rows)); [exact Hfile|apply load_dump_rows].
    + simpl. rewrite lookup_insert_eq. split; [done|].
      split; [apply (view_fresh [])|]. split; [done|].
      intros record. unfold Terminal._validate_record. simpl.
      by rewrite lookup_empty.
Qed.

Lemma terminal_save_load_witness :
  ∃ s2, Terminal.load_table "t" (restarted (snd (Terminal._save "t" two_rows_state)))
        = (Ok tt, s2) ∧
        view (heap s2) (default [] (tables (self s2) !! "t"))
        = [[("id", VInt 1)]; [("id", VInt 2)]].
Proof.
  destruct (terminal_save_load two_rows_state "t" [0; 1]%nat eq_refl)
    as (_ & _ & s2 & rows' & H1 & H2 & H3 & _).
  exists s2. split; [exact H1|]. rewrite H2. exact H3.
Defined.

Lemma first_row_ok (first : list (string * value)) :
  wf_dict first → Forall (column_ok first) (Gui.infer_schema first).
Proof.
  intros Hwf. rewrite (infer_schema_map first Hwf).
  apply Forall_map, Forall_forall. intros [k v] Hin. unfold column_ok. simpl.
  apply list_elem_of_In in Hin.
  unfold dict_mem, get. rewrite (dict_lookup_In first k v Hwf Hin).
  split; [done|]. destruct v; simpl; auto.
Qed.

(** X15. A file written by the terminal edition's [_save] is read by the
    GUI edition's [load_table]: the rows come back with the same content,
    in order, and the table gets the schema inferred from its first row
    (the empty schema when it has no row), which that first row
    satisfies. *)
Theorem gui_loads_terminal_file (s : state) (t : string) (rows : list nat) :
  tables (self s) !! t = Some rows →
  ∃ s2 rows',
    Gui.load_table t (restarted (snd (Terminal._save t s))) = (Ok tt, s2) ∧
    tables (self s2) !! t = Some rows' ∧
    view (heap s2) rows' = view (heap s) rows ∧
    schemas (self s2) !! t
    = Some (match view (heap s) rows with
            | first :: _ => Gui.infer_schema first
            | [] => []
            end) ∧
    ∀ l rest, rows' = l :: rest → wf_dict (deref (heap s2) l) →
              Gui._validate_record t l s2 = (Ok tt, s2).
Proof.
  intros Ht. pose proof (terminal_saved_file t s rows Ht) as Hfile.
  pose proof (gui_load_legacy t _ _ (view (heap s) rows) Hfile
                (load_dump_rows _)) as Hload.
  eexists _, _. split; [exact Hload|].
  unfold loaded. simpl. rewrite !lookup_insert_eq.
  split; [done|]. split; [apply (view_fresh [])|]. split; [done|].
  intros l rest Hrows Hwf.
  unfold Gui._validate_record. simpl. rewrite lookup_insert_eq.
  apply validate_columns_iff.
  destruct (view (heap s) rows) as [|first content] eqn:Hview;
    [constructor|].
  simpl in Hrows. injection Hrows as <- _. simpl in *.
  by apply first_row_ok.
Qed.

Lemma gui_loads_terminal_file_witness :
  ∃ s2, Gui.load_table "t" (restarted (snd (Terminal._save "t" two_rows_state)))
        = (Ok tt, s2) ∧
        schemas (self s2) !! "t" = Some [("id", Some TInt)].
Proof.
  destruct (gui_loads_terminal_file two_rows_state "t" [0; 1]%nat eq_refl)
    as (s2 & rows' & H1 & _ & _ & H2 & _).
  exists s2. split; [exact H1|]. rewrite H2. reflexivity.
Defined.

(* ===================================================================== *)
(** ** A rollback is not written to the file *)
(* ===================================================================== *)

Lemma begun_spec t rows s :
  valid_refs s →
  tables (self s) !! t = Some rows →
  ∃ snapshot ext,
    begun t rows s
    = upd_transactions (base.insert t snapshot) (set_heap (heap s ++ ext) s) ∧
    view (heap s ++ ext) snapshot = view (heap s) rows.
Proof.
  intros Hv Ht.
  destruct (deepcopy_rows_spec rows ∅ (heap s) (heap s) [])
    as (ext' & H1 & H2 & H3).
  { by rewrite app_nil_r. }
  { exact (Hv t rows Ht). }
  { intros l l' Hl. by rewrite lookup_empty in Hl. }
  unfold begun.
  destruct (deepcopy_rows ∅ rows (heap s)) as [snapshot h'] eqn:Hd.
  simpl in *. subst h'. by exists snapshot, ext'.
Qed.

Lemma view_snoc h ext rows l :
  Forall (fun l' => (l' < length h)%nat) rows → (l < length h)%nat →
  view (h ++ ext) (rows ++ [l]) = view h rows ++ [deref h l].
Proof.
  intros Hrows Hl. unfold view. rewrite map_app. simpl.
  rewrite (deref_app_l h ext l Hl). f_equal.
  apply (view_app_l h ext rows Hrows).
Qed.

(** X16. [rollback] restores the rows in memory only.  After
    [begin_transaction], a successful [insert] and [rollback], the table
    in memory has its rows from before the transaction, but the table's
    file still holds the row that was rolled back (the insert wrote it
    and the rollback writes nothing): a [load_table] then brings that row
    back.  This holds in both editions. *)
Theorem rollback_is_not_saved (s : state) (t : string) (rows : list nat)
    (record : nat) (key_column : option string) :
  valid_refs s →
  tables (self s) !! t = Some rows →
  (record < length (heap s))%nat →
  fst (Gui.insert t record key_column (snd (Gui.begin_transaction t s)))
  = Ok tt →
  let content := view (heap s) rows ++ [deref (heap s) record] in
  let g := snd (Gui.rollback t
             (snd (Gui.insert t record key_column
                (snd (Gui.begin_transaction t s))))) in
  let m := snd (Terminal.rollback t
             (snd (Terminal.insert t record key_column
                (snd (Terminal.begin_transaction t s))))) in
  (∃ rows3, tables (self g) !! t = Some rows3 ∧
            view (heap g) rows3 = view (heap s) rows) ∧
  self m = self g ∧ heap m = heap g ∧
  disk g !! file_path s t
  = Some (Json (Gui.document (schema_of s t) content)) ∧
  disk m !! file_path s t = Some (Json (dump_rows content)) ∧
  (∃ g' rows4, Gui.load_table t g = (Ok tt, g') ∧
               tables (self g') !! t = Some rows4 ∧
               view (heap g') rows4 = content) ∧
  (∃ m' rows4, Terminal.load_table t m = (Ok tt, m') ∧
               tables (self m') !! t = Some rows4 ∧
               view (heap m') rows4 = content).
Proof.
  intros Hv Ht Hrec.
  rewrite gui_begin_transaction_eq, terminal_begin_transaction_eq, Ht.
  destruct (begun_spec t rows s Hv Ht) as (snapshot & ext & Hb & Hsnap).
  rewrite Hb. simpl.
  set (s1 := upd_transactions (base.insert t snapshot)
               (set_heap (heap s ++ ext) s)).
  rewrite gui_insert_eq, terminal_insert_eq.
  rewrite (insert_checks_mem t record key_column
             (emit (EPrint (MsgTxStarted t)) s1) s1) by done.
  destruct (insert_checks t record key_column s1) as [e|rows1] eqn:Hc;
    [discriminate|].
  intros _. pose proof (insert_checks_rows _ _ _ _ _ Hc) as Hrows1.
  change (tables (self s1)) with (tables (self s)) in Hrows1.
  rewrite Ht in Hrows1. injection Hrows1 as <-.
  simpl. rewrite gui_rollback_eq, terminal_rollback_eq. simpl.
  rewrite !lookup_insert_eq. cbn [snd].
  assert (Hview : view (heap s ++ ext) (rows ++ [record])
                  = view (heap s) rows ++ [deref (heap s) record]).
  { apply view_snoc; [exact (Hv t rows Ht)|done]. }
  match goal with |- context [Gui.load_table t ?x] => set (g := x) end.
  match goal with |- context [Terminal.load_table t ?x] => set (m := x) end.
  assert (Hgd : disk g !! file_path g t
                = Some (Json (Gui.document (schema_of s t)
                          (view (heap s) rows ++ [deref (heap s) record])))).
  { unfold g, gui_saved, gui_write, file_path, schema_of. simpl.
    rewrite !lookup_insert_eq. simpl. by rewrite Hview. }
  assert (Hmd : disk m !! file_path m t
                = Some (Json (dump_rows
                          (view (heap s) rows ++ [deref (heap s) record])))).
  { unfold m, terminal_saved, terminal_write, file_path. simpl.
    rewrite !lookup_insert_eq. simpl. by rewrite Hview. }
  split; [exists snapshot; split; [apply lookup_insert_eq|exact Hsnap]|].
  split; [done|]. split; [done|].
  split; [exact Hgd|]. split; [exact Hmd|]. split.
  - eexists _, _. split.
    + eapply gui_load_current;
        [exact Hgd|reflexivity|reflexivity|apply load_dump_rows].
    + unfold loaded. simpl. rewrite lookup_insert_eq.
      split; [done|]. apply view_fresh.
  - eexists _, _. split.
    + apply (terminal_load_legacy t m _
               (view (heap s) rows ++ [deref (heap s) record]) Hmd).
      apply load_dump_rows.
    + simpl. rewrite lookup_insert_eq. split; [done|]. apply view_fresh.
Qed.

Lemma rollback_is_not_saved_witness :
  let g := snd (Gui.rollback "t"
             (snd (Gui.insert "t" 1%nat None
                (snd (Gui.begin_transaction "t" two_rows_state))))) in
  (∃ rows3, tables (self g) !! "t" = Some rows3 ∧
            view (heap g) rows3 = [[("id", VInt 1)]; [("id", VInt 2)]]) ∧
  ∃ g' rows4, Gui.load_table "t" g = (Ok tt, g') ∧
              tables (self g') !! "t" = Some rows4 ∧
              view (heap g') rows4
              = [[("id", VInt 1)]; [("id", VInt 2)]; [("id", VInt 2)]].
Proof.
  assert (Hv : valid_refs two_rows_state)
    by (refine (bool_decide_unpack (valid_refs _) _); vm_compute; exact I).
  assert (Hl : (1 < length (heap two_rows_state))%nat) by (simpl; lia).
  destruct (rollback_is_not_saved two_rows_state "t" [0; 1]%nat 1%nat None
              Hv eq_refl Hl eq_refl) as (H1 & _ & _ & _ & _ & H2 & _).
  split; [exact H1|exact H2].
Defined.

(* ===================================================================== *)
(** ** Every bound schema belongs to a live table *)
(* ===================================================================== *)

Lemma gui_load_table_ok t s s' :
  Gui.load_table t s = (Ok tt, s') → ∃ sch rows, s' = loaded t sch rows s.
Proof.
  unfold Gui.load_table, Gui._path, rows_of. munfold.
  destruct (disk s !! file_path s t) as [[|data| |fieldnames lines|]|] eqn:Hd; simpl;
    rewrite ?Hd; simpl; try discriminate.
  destruct data; simpl; try discriminate.
  - destruct (load_rows items) as [rows|]; simpl; [|discriminate].
    rewrite alloc_rows_spec. simpl. rewrite view_fresh.
    destruct rows as [|r rows]; intros [= <-];
      [by exists [], []|by exists (Gui.infer_schema r), (r :: rows)].
  - destruct (Gui.member "schema" (JObj []) members)
      as [| | | | | |schema_data]; simpl; try discriminate.
    destruct (Gui.member "rows" (JArr []) members); simpl; try discriminate.
    destruct (load_rows items) as [rows|]; simpl; [|discriminate].
    rewrite alloc_rows_spec. simpl. intros [= <-].
    by exists (Gui.parse_schema schema_data), rows.
Qed.

Lemma terminal_load_table_ok t s s' :
  Terminal.load_table t s = (Ok tt, s') →
  ∃ rows,
    s' = emit (EPrint (MsgLoaded t))
           (upd_tables (base.insert t (seq (length (heap s)) (length rows)))
              (set_heap (heap s ++ rows) s)).
Proof.
  unfold Terminal.load_table, Terminal._path, Terminal.print, rows_of. munfold.
  destruct (disk s !! file_path s t) as [[|data| |fieldnames lines|]|] eqn:Hd; simpl;
    rewrite ?Hd; simpl; try discriminate.
  destruct data; simpl; try discriminate.
  destruct (load_rows items) as [rows|]; simpl; [|discriminate].
  rewrite alloc_rows_spec. simpl. intros [= <-]. by exists rows.
Qed.

Lemma schemas_live_step s s' t :
  (∀ t', t' ≠ t →
         schemas (self s') !! t' = schemas (self s) !! t' ∧
         (is_Some (tables (self s) !! t') → is_Some (tables (self s') !! t'))) →
  (is_Some (schemas (self s') !! t) → is_Some (tables (self s') !! t)) →
  schemas_live s → schemas_live s'.
Proof.
  intros Hne Ht Hs t'. destruct (decide (t' = t)) as [->|Hd]; [done|].
  destruct (Hne t' Hd) as [-> Hm]. intros H. by apply Hm, Hs.
Qed.

Lemma schemas_live_same s s' :
  schemas (self s') = schemas (self s) →
  tables (self s') = tables (self s) →
  schemas_live s → schemas_live s'.
Proof. unfold schemas_live. by intros -> ->. Qed.

Lemma schemas_live_insert_table s s' t rows :
  schemas (self s') = schemas (self s) →
  tables (self s') = <[t := rows]> (tables (self s)) →
  schemas_live s → schemas_live s'.
Proof.
  intros Hs Ht. apply (schemas_live_step s s' t).
  - intros t' Hne. by rewrite Hs, Ht, lookup_insert_ne.
  - intros _. by rewrite Ht, lookup_insert_eq.
Qed.

Lemma schemas_live_created t sch s :
  schemas_live s → schemas_live (created t sch s).
Proof.
  apply (schemas_live_step s _ t).
  - intros t' Hne. unfold created.
    destruct (truthy_schema sch); simpl; by rewrite !lookup_insert_ne.
  - intros _. by rewrite created_live.
Qed.

Lemma schemas_live_loaded t sch rows s :
  schemas_live s → schemas_live (loaded t sch rows s).
Proof.
  apply (schemas_live_step s _ t).
  - intros t' Hne. unfold loaded. simpl. by rewrite !lookup_insert_ne.
  - intros _. unfold loaded. simpl. by rewrite lookup_insert_eq.
Qed.

Lemma schemas_live_dropped t s :
  schemas_live s → schemas_live (dropped t s).
Proof.
  destruct (dropped_spec t s) as (H1 & H2 & _).
  apply (schemas_live_step s _ t).
  - intros t' Hne. by rewrite H1, H2, !lookup_delete_ne.
  - rewrite H2, lookup_delete_eq. by intros [? ?].
Qed.

Lemma schemas_live_begun t rows s :
  schemas_live s → schemas_live (begun t rows s).
Proof.
  unfold begun. destruct (deepcopy_rows ∅ rows (heap s)). by apply schemas_live_same.
Qed.

Lemma gui_run_schemas_live c s :
  schemas_live s →
  fst (gui_run c s) ≠ Unmodelled →
  schemas_live (snd (gui_run c s)).
Proof.
  intros Hs. destruct c; unfold gui_run, returning; munfold; simpl.
  - intros _. by apply (schemas_live_same s).
  - rewrite gui_create_table_eq.
    destruct (tables (self s) !! t); simpl; [done|]. intros _.
    apply (schemas_live_same (created t sch s)); [done|done|].
    by apply schemas_live_created.
  - destruct (Gui.load_table t s) as [[[]| |] s1] eqn:Hl; simpl.
    + apply gui_load_table_ok in Hl as (sch & rows & ->). intros _.
      by apply schemas_live_loaded.
    + by apply gui_load_table_raise in Hl as ->.
    + intros H. by destruct H.
  - rewrite gui_drop_table_eq.
    destruct (tables (self s) !! t); simpl; [|done]. intros _.
    by apply schemas_live_dropped.
  - rewrite gui_insert_eq.
    destruct (insert_checks t record key_column s); simpl; [done|]. intros _.
    by apply (schemas_live_insert_table s _ t (l ++ [record])).
  - done.
  - rewrite gui_update_eq.
    destruct (tables (self s) !! t); simpl; [|done]. intros _.
    by apply (schemas_live_same s).
  - rewrite gui_delete_eq. destruct (kwargs_ok conditions); [|done].
    destruct (tables (self s) !! t) as [rows|]; simpl; [|done]. intros _.
    by apply (schemas_live_insert_table s _ t
                (delete_rows conditions (heap s) rows)).
  - rewrite gui_backup_table_eq.
    destruct (tables (self s) !! t); simpl; [|done]. intros _.
    by apply (schemas_live_same s).
  - rewrite gui_begin_transaction_eq.
    destruct (tables (self s) !! t); simpl; [|done]. intros _.
    by apply schemas_live_begun.
  - rewrite gui_rollback_eq.
    destruct (_transactions (self s) !! t) as [snapshot|]; simpl; [|done].
    intros _. by apply (schemas_live_insert_table s _ t snapshot).
  - rewrite gui_commit_eq.
    destruct (_transactions (self s) !! t); simpl; [|done].
    destruct (tables (self s) !! t); simpl; intros _;
      by apply (schemas_live_same s).
  - rewrite gui_export_csv_eq.
    destruct (tables (self s) !! t) as [rows|]; simpl; [|done]. intros _.
    destruct (export_complete rows s); simpl;
      apply (schemas_live_same s); by rewrite ?exported_self.
Qed.

Lemma terminal_run_schemas_live c s :
  schemas_live s →
  fst (terminal_run c s) ≠ Unmodelled →
  schemas_live (snd (terminal_run c s)).
Proof.
  intros Hs. destruct c; unfold terminal_run, returning; munfold; simpl.
  - intros _. by apply (schemas_live_same s).
  - rewrite terminal_create_table_eq.
    destruct (tables (self s) !! t); simpl; [done|]. intros _.
    apply (schemas_live_same (created t sch s)); [done|done|].
    by apply schemas_live_created.
  - destruct (Terminal.load_table t s) as [[[]| |] s1] eqn:Hl; simpl.
    + apply terminal_load_table_ok in Hl as (rows & ->). intros _.
      by apply (schemas_live_insert_table s _ t
                  (seq (length (heap s)) (length rows))).
    + by apply terminal_load_table_raise in Hl as ->.
    + intros H. by destruct H.
  - rewrite terminal_drop_table_eq.
    destruct (tables (self s) !! t); simpl; [|done]. intros _.
    apply (schemas_live_same (dropped t s)); [done|done|].
    by apply schemas_live_dropped.
  - rewrite terminal_insert_eq.
    destruct (insert_checks t record key_column s); simpl; [done|]. intros _.
    by apply (schemas_live_insert_table s _ t (l ++ [record])).
  - rewrite terminal_select_eq. destruct (kwargs_ok conditions); [|done].
    by destruct (tables (self s) !! t).
  - rewrite terminal_update_eq.
    destruct (tables (self s) !! t); simpl; [|done]. intros _.
    by apply (schemas_live_same s).
  - rewrite terminal_delete_eq. destruct (kwargs_ok conditions); [|done].
    destruct (tables (self s) !! t) as [rows|]; simpl; [|done]. intros _.
    by apply (schemas_live_insert_table s _ t
                (delete_rows conditions (heap s) rows)).
  - rewrite terminal_backup_table_eq.
    destruct (tables (self s) !! t); simpl; [|done]. intros _.
    by apply (schemas_live_same s).
  - rewrite terminal_begin_transaction_eq.
    destruct (tables (self s) !! t) as [rows|]; simpl; [|done]. intros _.
    apply (schemas_live_same (begun t rows s)); [done|done|].
    by apply schemas_live_begun.
  - rewrite terminal_rollback_eq.
    destruct (_transactions (self s) !! t) as [snapshot|]; simpl.
    + intros _. by apply (schemas_live_insert_table s _ t snapshot).
    + intros _. by apply (schemas_live_same s).
  - rewrite terminal_commit_eq.
    destruct (_transactions (self s) !! t); simpl.
    + destruct (tables (self s) !! t); simpl; intros _;
        by apply (schemas_live_same s).
    + intros _. by apply (schemas_live_same s).
  - rewrite terminal_export_csv_eq.
    destruct (tables (self s) !! t) as [rows|]; simpl; [|done]. intros _.
    destruct (export_complete rows s); simpl;
      apply (schemas_live_same s); simpl; by rewrite ?exported_self.
Qed.

(** X17. In both editions the engine keeps its schemas within its
    tables: if every table that has a schema is live before a session of
    calls, the same holds after it, whatever the calls and whether they
    succeed or raise (calls on files outside the model apart).  It holds
    in a new engine, so it holds in every state a client can reach; the
    transaction log has no such invariant. *)
Theorem schemas_stay_live (run : call → M retval) (cs : list call)
    (s : state) :
  run = gui_run ∨ run = terminal_run →
  schemas_live s →
  modelled run cs s →
  schemas_live (session run cs s).
Proof.
  intros Hrun. revert s. induction cs as [|c cs IH]; intros s Hs Hm; [done|].
  destruct Hm as [Hc Hm].
  change (session run (c :: cs) s) with (session run cs (snd (run c s))).
  apply IH; [|done].
  destruct Hrun as [-> | ->];
    [by apply gui_run_schemas_live|by apply terminal_run_schemas_live].
Qed.

Lemma schemas_stay_live_witness :
  schemas_live (init "data" ".mdb" [] ∅) ∧
  schemas_live (session gui_run drop_with_pending (init "data" ".mdb" [] ∅)).
Proof.
  assert (H : schemas_live (init "data" ".mdb" [] ∅)).
  { intros t. simpl. rewrite lookup_empty. by intros [? ?]. }
  split; [exact H|].
  apply (schemas_stay_live gui_run drop_with_pending _ (or_introl eq_refl) H).
  vm_compute. repeat split; discriminate.
Defined.

(* ===================================================================== *)
(** ** Creating a table *)
(* ===================================================================== *)



(* ===================================================================== *)
(** ** [update] with a row of the table as conditions *)
(* ===================================================================== *)

Lemma update_rows_app cs us a b h n :
  update_rows cs us (a ++ b) h n
  = update_rows cs us b (fst (update_rows cs us a h n))
      (snd (update_rows cs us a h n)).
Proof.
  revert h n. induction a as [|l a IH]; intros h n; simpl; [done|].
  destruct (holds (deref h cs) (deref h l)); apply IH.
Qed.

Lemma update_rows_count_le cs us rows h n :
  n ≤ snd (update_rows cs us rows h n).
Proof.
  revert h n. induction rows as [|l rows IH]; intros h n; simpl; [lia|].
  destruct (holds (deref h cs) (deref h l)).
  - pose proof (IH (<[l:=apply_updates (deref h us) (deref h l)]> h) (n + 1)).
    lia.
  - apply IH.
Qed.

(** X19. [update] called with a row of the table as its [conditions]
    object (as when a row is edited in place) always rewrites that row:
    if no record object is stored twice in the table, the [updates]
    object is not a row of it and the row holds no [nan], the row
    afterwards is its old content overwritten with the updates, and the
    count is at least 1.  (Other rows are compared with the row as it is
    when they are visited: the old content before the row, the new
    content after it.) *)
Theorem update_by_row (s : state) (t : string) (rows : list nat)
    (l updates : nat) :
  tables (self s) !! t = Some rows →
  NoDup rows →
  l ∈ rows →
  (l < length (heap s))%nat →
  updates ∉ rows →
  wf_dict (deref (heap s) l) →
  nan_free (deref (heap s) l) →
  let g := snd (Gui.update t l updates s) in
  let m := snd (Terminal.update t l updates s) in
  deref (heap g) l
  = apply_updates (deref (heap s) updates) (deref (heap s) l) ∧
  heap m = heap g ∧
  ∃ n, fst (Gui.update t l updates s) = Ok (VInt n) ∧ 1 ≤ n.
Proof.
  intros Ht Hnd Hl Hlt Hus Hwf Hnan g m. subst g m.
  rewrite gui_update_eq, terminal_update_eq, Ht. simpl.
  apply list_elem_of_split in Hl as (pre & post & ->).
  apply NoDup_app in Hnd as (_ & Hpre & Hpost).
  apply NoDup_cons in Hpost as [Hpost _].
  assert (Hlpre : l ∉ pre).
  { intros Hin. apply (Hpre l Hin). by left. }
  assert (Huspre : updates ∉ pre).
  { intros Hin. apply Hus. apply elem_of_app. by left. }
  assert (Hne : updates ≠ l).
  { intros ->. apply Hus. apply elem_of_app. right. by left. }
  unfold updated_count.
  rewrite update_rows_app.
  set (h1 := fst (update_rows l updates pre (heap s) 0)).
  set (n1 := snd (update_rows l updates pre (heap s) 0)).
  assert (Hh1l : deref h1 l = deref (heap s) l)
    by by apply update_rows_frame.
  assert (Hh1u : deref h1 updates = deref (heap s) updates)
    by by apply update_rows_frame.
  assert (Hlen : length h1 = length (heap s))
    by apply update_rows_length.
  assert (Hn1 : 0 ≤ n1) by apply update_rows_count_le.
  simpl. rewrite Hh1l, Hh1u, (holds_self _ Hwf Hnan).
  split; [|split; [done|]].
  - rewrite update_rows_frame by done.
    apply deref_insert_eq. by rewrite Hlen.
  - eexists. split; [reflexivity|].
    pose proof (update_rows_count_le l updates post
                  (<[l:=apply_updates (deref (heap s) updates)
                          (deref (heap s) l)]> h1) (n1 + 1)).
    lia.
Qed.

Lemma update_by_row_witness :
  let s := row_as_conditions_state in
  deref (heap (snd (Gui.update "t" 0%nat 2%nat s))) 0%nat = [("a", VInt 2)].
Proof.
  intros s.
  assert (Hnd : NoDup [0; 3]%nat)
    by (refine (bool_decide_unpack (NoDup _) _); vm_compute; exact I).
  assert (Hl : 0%nat ∈ [0; 3]%nat)
    by (refine (bool_decide_unpack (elem_of _ _) _); vm_compute; exact I).
  assert (Hlt : (0 < length (heap s))%nat) by (simpl; lia).
  assert (Hus : 2%nat ∉ [0; 3]%nat)
    by (refine (bool_decide_unpack (not _) _); vm_compute; exact I).
  assert (Hwf : wf_dict (deref (heap s) 0%nat))
    by (refine (bool_decide_unpack (NoDup _) _); vm_compute; exact I).
  assert (Hnan : nan_free (deref (heap s) 0%nat))
    by (repeat constructor).
  destruct (update_by_row s "t" [0; 3]%nat 0%nat 2%nat eq_refl
              Hnd Hl Hlt Hus Hwf Hnan) as (H & _).
  rewrite H. reflexivity.
Defined.

(* ===================================================================== *)
(** ** The GUI's schema dialog *)
(* ===================================================================== *)

Lemma dict_set_keys {V} (d : list (string * V)) k v :
  map fst (dict_set d k v)
  = if dict_mem d k then map fst d else map fst d ++ [k].
Proof.
  unfold dict_mem. induction d as [|[k0 v0] d IH]; simpl; [done|].
  destruct (String.eqb_spec k0 k) as [->|Hne]; simpl; [done|].
  rewrite IH. by destruct (dict_lookup d k).
Qed.

Lemma dict_lookup_None_keys {V} (d : list (string * V)) k :
  dict_lookup d k = None → k ∉ map fst d.
Proof.
  induction d as [|[k0 v0] d IH]; simpl; [intros _; apply not_elem_of_nil|].
  destruct (String.eqb_spec k0 k) as [->|Hne]; [done|].
  intros H. apply not_elem_of_cons. split; [done|by apply IH].
Qed.

Lemma wf_dict_set {V} (d : list (string * V)) k v :
  wf_dict d → wf_dict (dict_set d k v).
Proof.
  unfold wf_dict. rewrite dict_set_keys. unfold dict_mem.
  destruct (dict_lookup d k) eqn:Hk; [done|]. intros Hd.
  apply NoDup_app. split; [done|]. split; [|apply NoDup_singleton].
  intros x Hx Hx'. apply list_elem_of_singleton in Hx' as ->.
  by apply (dict_lookup_None_keys d k Hk).
Qed.

Lemma Forall_dict_set {V} (P : V → Prop) (d : list (string * V)) k v :
  Forall (fun kv => P (snd kv)) d → P v →
  Forall (fun kv => P (snd kv)) (dict_set d k v).
Proof.
  intros Hd Hv. induction d as [|[k0 v0] d IH]; simpl.
  - by repeat constructor.
  - apply Forall_cons in Hd as [H0 Hd].
    destruct (String.eqb k0 k); constructor; auto.
Qed.

Lemma dialog_kind_persistent v : persistent_kind (GuiClient.dialog_kind v).
Proof.
  unfold persistent_kind, GuiClient.dialog_kind.
  destruct (String.eqb (GuiClient.lower v) "int"); [done|].
  destruct (String.eqb (GuiClient.lower v) "str"); [done|].
  destruct (String.eqb (GuiClient.lower v) "float"); done.
Qed.

Lemma dialog_schema_inv items acc sch :
  GuiClient.dialog_schema items acc = inr sch →
  wf_dict acc → Forall (fun cd => persistent_kind (snd cd)) acc →
  wf_dict sch ∧ Forall (fun cd => persistent_kind (snd cd)) sch.
Proof.
  revert acc. induction items as [|[k j] items IH]; intros acc; simpl.
  - by intros [= ->].
  - destruct j; try discriminate. intros H Hwf Hp.
    apply (IH _ H); [by apply wf_dict_set|].
    apply (Forall_dict_set persistent_kind); [done|].
    apply dialog_kind_persistent.
Qed.

Lemma created_file t sch s :
  tables (self s) !! t = None →
  schemas_live s →
  disk (gui_saved t (created t sch s)) !! file_path s t
  = Some (Json (Gui.document (default [] sch) [])).
Proof.
  intros Ht Hlive.
  assert (Hnone : schemas (self s) !! t = None).
  { destruct (schemas (self s) !! t) eqn:Hsch; [|done].
    destruct (Hlive t) as [rows Hrows]; [by rewrite Hsch|]. congruence. }
  assert (Hdoc : schema_of (created t sch s) t = default [] sch).
  { unfold schema_of, created.
    destruct sch as [[|c sc]|]; simpl; rewrite ?lookup_insert_eq, ?Hnone; done. }
  assert (Hpath : file_path (created t sch s) t = file_path s t)
    by (unfold created; by destruct (truthy_schema sch)).
  unfold gui_saved, gui_write. simpl.
  rewrite Hpath, Hdoc, created_live, lookup_insert_eq. done.
Qed.

(** X20. A schema built by the GUI's create-table dialog declares only
    the kinds [int], [str], [float] or none (a kind name is compared
    without regard to ASCII case; any other name, [bool] included, gives
    no kind), with every column once.  Such a schema survives the file:
    after the dialog has created the table, a new engine that loads it
    gets the same schema and no rows. *)
Theorem dialog_schema_survives (s : state) (name : string)
    (items : list (string * json)) (sch : list (string * option pytype)) :
  GuiClient.dialog_schema items [] = inr sch →
  String.eqb name "" = false →
  tables (self s) !! name = None →
  schemas_live s →
  wf_dict sch ∧
  Forall (fun cd => snd cd = Some TInt ∨ snd cd = Some TStr ∨
                    snd cd = Some TFloat ∨ snd cd = None) sch ∧
  ∃ g g',
    GuiClient.create_table name (JObj items) s = (Ok tt, g) ∧
    tables (self g) !! name = Some [] ∧
    Gui.load_table name (restarted g) = (Ok tt, g') ∧
    schemas (self g') !! name = Some sch ∧
    tables (self g') !! name = Some [].
Proof.
  intros Hd Hname Ht Hlive.
  destruct (dialog_schema_inv items [] sch Hd) as [Hwf Hp];
    [apply NoDup_nil_2|constructor|].
  split; [done|]. split.
  - eapply Forall_impl; [exact Hp|]. intros [k [[]|]] Hk; simpl in *; auto.
    by destruct Hk.
  - unfold GuiClient.create_table. rewrite Hname, Hd, gui_create_table_eq, Ht.
    eexists _, _. split; [reflexivity|].
    split; [apply created_live|].
    pose proof (created_file name (Some sch) s Ht Hlive) as Hfile.
    pose proof (parse_render_schema sch Hwf Hp) as Hparse. simpl in Hparse.
    assert (Hpath : file_path (restarted (gui_saved name
                                            (created name (Some sch) s))) name
                    = file_path s name).
    { unfold file_path, created. by destruct (truthy_schema (Some sch)). }
    rewrite <- Hpath in Hfile.
    split.
    + eapply (gui_load_current name (restarted _) _ _ [] []);
        [exact Hfile|reflexivity|reflexivity|reflexivity].
    + unfold loaded. simpl. rewrite !lookup_insert_eq. by rewrite Hparse.
Qed.

Lemma dialog_schema_survives_witness :
  let items := [("id", JStr "INT"); ("name", JStr "Str"); ("ok", JStr "bool")] in
  let sch := [("id", Some TInt); ("name", Some TStr); ("ok", None)] in
  ∃ g g',
    GuiClient.create_table "t" (JObj items) (init "data" ".mdb" [] ∅)
    = (Ok tt, g) ∧
    Gui.load_table "t" (restarted g) = (Ok tt, g') ∧
    schemas (self g') !! "t" = Some sch.
Proof.
  intros items sch.
  assert (H : schemas_live (init "data" ".mdb" [] ∅)).
  { intros t. simpl. rewrite lookup_empty. by intros [? ?]. }
  destruct (dialog_schema_survives (init "data" ".mdb" [] ∅) "t" items sch
              eq_refl eq_refl eq_refl H)
    as (_ & _ & g & g' & H1 & _ & H2 & H3 & _).
  by exists g, g'.
Defined.

(* ===================================================================== *)
(** ** The web viewers *)
(* ===================================================================== *)

Lemma viewer_load_table_eq t s :
  Viewer.load_table t s
  = match disk s !! path_join Viewer.DATA_FOLDER (t +:+ Viewer.EXTENSION) with
    | None => (Ok (JArr []), s)
    | Some (Json doc) => (Ok doc, s)
    | Some Empty | Some Partial => (Raise JSONDecodeError, s)
    | Some (Csv _ _) | Some PartialCsv => (Unmodelled, s)
    end.
Proof.
  unfold Viewer.load_table. munfold.
  destruct (disk s !! path_join Viewer.DATA_FOLDER (t +:+ Viewer.EXTENSION))
    as [[|doc| |fieldnames lines|]|] eqn:Hd; simpl; rewrite ?Hd; done.
Qed.

(** X21. [load_table] of the web viewers never changes anything and
    returns the document of the table's file as it is.  For an engine on
    the viewers' folder and extension: after the terminal edition's
    [_save] it returns the list of the rows; after the GUI edition's
    [_save] it returns the schema/rows object, not the rows; and for a
    table that has been dropped it returns the empty list, not an
    error. *)
Theorem viewer_reads_saved_table (s : state) (t : string) (rows : list nat) :
  folder (self s) = Viewer.DATA_FOLDER →
  extension (self s) = Viewer.EXTENSION →
  tables (self s) !! t = Some rows →
  (∀ s', snd (Viewer.load_table t s') = s') ∧
  fst (Viewer.load_table t (snd (Terminal._save t s)))
  = Ok (dump_rows (view (heap s) rows)) ∧
  fst (Viewer.load_table t (snd (Gui._save t s)))
  = Ok (Gui.document (schema_of s t) (view (heap s) rows)) ∧
  fst (Viewer.load_table t (snd (Gui.drop_table t s))) = Ok (JArr []) ∧
  fst (Viewer.load_table t (snd (Terminal.drop_table t s))) = Ok (JArr []).
Proof.
  intros Hf He Ht.
  assert (Hp : path_join Viewer.DATA_FOLDER (t +:+ Viewer.EXTENSION)
               = file_path s t)
    by (unfold file_path; by rewrite Hf, He).
  split; [|split; [|split; [|split]]].
  - intros s'. rewrite viewer_load_table_eq.
    by destruct (disk s' !! _) as [[|doc| |fieldnames lines|]|].
  - rewrite viewer_load_table_eq, Hp, (terminal_save_live t s)
      by by rewrite Ht.
    simpl. by rewrite lookup_insert_eq, Ht.
  - rewrite viewer_load_table_eq, Hp, (gui_save_live t s) by by rewrite Ht.
    simpl. by rewrite lookup_insert_eq, Ht.
  - rewrite viewer_load_table_eq, Hp, gui_drop_table_eq, Ht. simpl.
    destruct (dropped_spec t s) as (_ & _ & _ & _ & _ & _ & ->).
    by rewrite lookup_delete_eq.
  - rewrite viewer_load_table_eq, Hp, terminal_drop_table_eq, Ht. simpl.
    destruct (dropped_spec t s) as (_ & _ & _ & _ & _ & _ & ->).
    by rewrite lookup_delete_eq.
Qed.

Lemma viewer_reads_saved_table_witness :
  fst (Viewer.load_table "t" (snd (Terminal._save "t" two_rows_state)))
  = Ok (JArr [JObj [("id", JInt 1)]; JObj [("id", JInt 2)]]).
Proof.
  destruct (viewer_reads_saved_table two_rows_state "t" [0; 1]%nat
              eq_refl eq_refl eq_refl) as (_ & H & _).
  rewrite H. reflexivity.
Defined.

(* ===================================================================== *)
(** ** Calls on a table that is not live *)
(* ===================================================================== *)

(** X22. In both editions, on any host, [drop_table], [insert],
    [update], [delete], [backup_table], [begin_transaction] and
    [export_csv] (and the terminal edition's [select]) on a name that is
    not a live table raise the same [ValueError] ("does not exist")
    before anything else is looked at, and change nothing; only a
    [select] or [delete] with a condition on a column named [self] or
    [table_name] raises a [TypeError] instead (the keyword collides with
    a parameter of the method), also changing nothing.  [rollback] and
    [commit] make no such check: with no pending transaction for the name
    they return normally and leave memory and disk as they are. *)
Theorem missing_table_errors (io : host) (c : call) (s : state) :
  tables (self s) !! table_of c = None →
  (needs_table c = true →
   (kwargs_ok (kwargs_of c) = true →
    terminal_run_on io c s
    = (Raise (ValueError (DoesNotExist (table_of c))), s) ∧
    (is_select c = false →
     gui_run_on io c s
     = (Raise (ValueError (DoesNotExist (table_of c))), s))) ∧
   (kwargs_ok (kwargs_of c) = false →
    terminal_run_on io c s = (Raise TypeErrorMultipleValues, s) ∧
    (is_select c = false →
     gui_run_on io c s = (Raise TypeErrorMultipleValues, s)))) ∧
  (_transactions (self s) !! table_of c = None →
   Gui.rollback (table_of c) s = (Ok tt, s) ∧
   GuiIO.commit io (table_of c) s = (Ok tt, s) ∧
   fst (Terminal.rollback (table_of c) s) = Ok tt ∧
   fst (TerminalIO.commit io (table_of c) s) = Ok tt ∧
   self (snd (Terminal.rollback (table_of c) s)) = self s ∧
   self (snd (TerminalIO.commit io (table_of c) s)) = self s ∧
   disk (snd (Terminal.rollback (table_of c) s)) = disk s ∧
   disk (snd (TerminalIO.commit io (table_of c) s)) = disk s).
Proof.
  intros Ht. split.
  - intros Hc. split; intros Hk;
      destruct c; try discriminate; simpl in Ht, Hk;
      unfold terminal_run_on, gui_run_on, returning; munfold; simpl;
      rewrite ?terminal_drop_table_on_eq, ?gui_drop_table_on_eq,
        ?terminal_insert_on_eq, ?gui_insert_on_eq, ?terminal_select_eq,
        ?terminal_update_on_eq, ?gui_update_on_eq, ?terminal_delete_on_eq,
        ?gui_delete_on_eq, ?terminal_backup_table_on_eq,
        ?gui_backup_table_on_eq, ?terminal_begin_transaction_eq,
        ?gui_begin_transaction_eq, ?terminal_export_csv_on_eq,
        ?gui_export_csv_on_eq;
      unfold insert_checks; rewrite ?Ht, ?Hk; simpl; split; done.
  - intros Htx.
    rewrite gui_rollback_eq, gui_commit_on_eq, terminal_rollback_eq,
      terminal_commit_on_eq, Htx. done.
Qed.

Lemma missing_table_errors_witness :
  gui_run (Insert "ghost" 0%nat None) two_rows_state
  = (Raise (ValueError (DoesNotExist "ghost")), two_rows_state) ∧
  gui_run (Delete "ghost" [("self", VInt 1)]) two_rows_state
  = (Raise TypeErrorMultipleValues, two_rows_state).
Proof.
  split.
  - exact (proj2 (proj1 (proj1 (missing_table_errors reliable
                                  (Insert "ghost" 0%nat None)
                                  two_rows_state eq_refl) eq_refl) eq_refl)
             eq_refl).
  - exact (proj2 (proj2 (proj1 (missing_table_errors reliable
                                  (Delete "ghost" [("self", VInt 1)])
                                  two_rows_state eq_refl) eq_refl) eq_refl)
             eq_refl).
Defined.

(* ===================================================================== *)
(** ** Records are stored by reference; a deleted key is free again *)
(* ===================================================================== *)

(** X23. [insert] stores the record object itself, not a copy.  When one
    record object is a row of two tables, an [update] through the first
    table that matches it changes the row of the second table in memory
    as well, while the file of the second table is not written: memory
    and file of the second table then differ until its next save. *)
Theorem update_reaches_shared_record (s : state) (t1 t2 : string)
    (rows1 rows2 : list nat) (l conditions updates : nat) :
  tables (self s) !! t1 = Some rows1 →
  tables (self s) !! t2 = Some rows2 →
  file_path s t2 ≠ file_path s t1 →
  l ∈ rows1 → l ∈ rows2 →
  NoDup rows1 →
  Forall (fun l' => (l' < length (heap s))%nat) rows1 →
  conditions ∉ rows1 → updates ∉ rows1 →
  holds (deref (heap s) conditions) (deref (heap s) l) = true →
  let g := snd (Gui.update t1 conditions updates s) in
  let m := snd (Terminal.update t1 conditions updates s) in
  tables (self g) !! t2 = Some rows2 ∧
  deref (heap g) l
  = apply_updates (deref (heap s) updates) (deref (heap s) l) ∧
  disk g !! file_path s t2 = disk s !! file_path s t2 ∧
  self m = self g ∧ heap m = heap g ∧
  disk m !! file_path s t2 = disk s !! file_path s t2.
Proof.
  intros Ht1 Ht2 Hpath Hl1 Hl2 Hnd Hv Hcs Hus Hh g m. subst g m.
  rewrite gui_update_eq, terminal_update_eq, Ht1. simpl.
  split; [done|]. split.
  - rewrite (updated_rows_pointwise _ _ _ _ Hnd Hv Hcs Hus l Hl1).
    unfold update_record. by rewrite Hh.
  - change (file_path (updated t1 conditions updates rows1 s) t1)
      with (file_path s t1).
    by rewrite !lookup_insert_ne.
Qed.

Lemma update_reaches_shared_record_witness :
  let s := mkState (mkMDB "data" ".mdb" {[ "a" := [0%nat]; "b" := [0%nat] ]} ∅ ∅)
             [[("k", VInt 1)]; [("k", VInt 1)]; [("k", VInt 2)]] ∅ [] in
  let g := snd (Gui.update "a" 1%nat 2%nat s) in
  view (heap g) (default [] (tables (self g) !! "b")) = [[("k", VInt 2)]] ∧
  disk g !! "data/b.mdb" = None.
Proof.
  intros s g.
  assert (Hp : file_path s "b" ≠ file_path s "a") by (vm_compute; discriminate).
  assert (Hl : 0%nat ∈ [0%nat])
    by (refine (bool_decide_unpack (elem_of _ _) _); vm_compute; exact I).
  assert (Hnd : NoDup [0%nat])
    by (refine (bool_decide_unpack (NoDup _) _); vm_compute; exact I).
  assert (Hv : Forall (fun l' => (l' < length (heap s))%nat) [0%nat])
    by (repeat constructor; simpl; lia).
  assert (Hcs : 1%nat ∉ [0%nat])
    by (refine (bool_decide_unpack (not _) _); vm_compute; exact I).
  assert (Hus : 2%nat ∉ [0%nat])
    by (refine (bool_decide_unpack (not _) _); vm_compute; exact I).
  destruct (update_reaches_shared_record s "a" "b" [0%nat] [0%nat] 0%nat
              1%nat 2%nat eq_refl eq_refl Hp Hl Hl Hnd Hv Hcs Hus eq_refl)
    as (H1 & H2 & H3 & _).
  split.
  - unfold g. rewrite H1. simpl. unfold view. simpl. by rewrite H2.
  - exact H3.
Defined.

(** X24. [delete] frees a key, in both editions and on any host.  For a
    key column that is not named [self] or [table_name]: after deleting
    the rows whose key column equals the key value of a record, an
    [insert] of that record with that key column passes every check when
    the record is valid for the table; it is not refused as a duplicate,
    and it succeeds when the file of the table can be written (else it
    raises from the write).  For a key column named [self] or
    [table_name] the [delete] raises a [TypeError] and removes
    nothing. *)
Theorem delete_frees_key (io : host) (s : state) (t : string)
    (rows : list nat) (record : nat) (key : string) :
  tables (self s) !! t = Some rows →
  String.eqb key "" = false →
  Forall (column_ok (deref (heap s) record)) (schema_of s t) →
  let v := get (deref (heap s) record) key in
  let g := snd (GuiIO.delete io t [(key, v)] s) in
  let m := snd (TerminalIO.delete io t [(key, v)] s) in
  (kwargs_ok [(key, v)] = true →
   insert_checks t record (Some key) g
   = inr (delete_rows [(key, v)] (heap s) rows) ∧
   insert_checks t record (Some key) m
   = inr (delete_rows [(key, v)] (heap s) rows) ∧
   (on_write io (file_path s t) = Written →
    fst (GuiIO.insert io t record (Some key) g) = Ok tt ∧
    fst (TerminalIO.insert io t record (Some key) m) = Ok tt) ∧
   (on_write io (file_path s t) ≠ Written →
    fst (GuiIO.insert io t record (Some key) g) = Raise IOFailure ∧
    fst (TerminalIO.insert io t record (Some key) m) = Raise IOFailure)) ∧
  (kwargs_ok [(key, v)] = false →
   GuiIO.delete io t [(key, v)] s = (Raise TypeErrorMultipleValues, s) ∧
   TerminalIO.delete io t [(key, v)] s = (Raise TypeErrorMultipleValues, s)).
Proof.
  intros Ht Hkey Hvalid v g m. subst g m. split.
  2: { intros Hk. by rewrite gui_delete_on_eq, terminal_delete_on_eq, Hk. }
  intros Hk.
  assert (Hins : ∀ s', self s' = self (deleted t [(key, v)] rows s) →
                       heap s' = heap s →
                       insert_checks t record (Some key) s'
                       = inr (delete_rows [(key, v)] (heap s) rows)).
  { intros s' Hs Hh.
    rewrite (insert_checks_mem t record (Some key) s'
               (deleted t [(key, v)] rows s)) by done.
    apply insert_checks_iff. split; [|split].
    - simpl. by rewrite lookup_insert_eq.
    - exact Hvalid.
    - intros key' Hk'. simpl in Hk'. rewrite Hkey in Hk'. injection Hk' as <-.
      simpl. unfold view. apply Forall_map, Forall_forall.
      intros l Hl. apply list_elem_of_In, filter_In in Hl as [_ Hl].
      simpl in Hl. fold v. by destruct (py_eq (get (deref (heap s) l) key) v). }
  assert (Hpath : ∀ s', self s' = self (deleted t [(key, v)] rows s) →
                        file_path s' t = file_path s t).
  { intros s' Hs. unfold file_path. by rewrite Hs. }
  rewrite gui_delete_on_eq, terminal_delete_on_eq, Hk, Ht.
  rewrite !gui_insert_on_eq, !terminal_insert_on_eq.
  unfold written_on.
  destruct (on_write io (file_path s t)) eqn:Hw; simpl;
    rewrite !Hins by done;
    repeat match goal with
           | |- context [file_path ?x t] =>
               lazymatch x with
               | s => fail
               | _ => rewrite (Hpath x) by done
               end
           end;
    rewrite ?Hw;
    (split; [done|]); (split; [done|]);
    (split; [intros Hw'|intros Hw']); try discriminate Hw';
    try (by destruct Hw'); by split.
Qed.

Lemma delete_frees_key_witness :
  fst (Gui.insert "t" 0%nat (Some "id")
         (snd (Gui.delete "t" [("id", VInt 1)] two_rows_state))) = Ok tt.
Proof.
  refine (proj1 (proj1 (proj2 (proj2 (proj1
            (delete_frees_key reliable two_rows_state "t" [0; 1]%nat 0%nat
               "id" eq_refl eq_refl _) eq_refl))) eq_refl)).
  constructor.
Defined.

(* ===================================================================== *)
(** ** A call on one table leaves the others alone *)
(* ===================================================================== *)

Lemma frame_refl t s : frame t s s.
Proof. by repeat split. Qed.

Lemma frame_trans t s1 s2 s3 : frame t s1 s2 → frame t s2 s3 → frame t s1 s3.
Proof.
  intros (Hf1 & He1 & Hm1 & Hd1) (Hf2 & He2 & Hm2 & Hd2).
  assert (Hp : file_path s2 t = file_path s1 t)
    by (unfold file_path; by rewrite Hf1, He1).
  assert (Hb : ∀ stamp, backup_path t stamp s2 = backup_path t stamp s1)
    by (intros stamp; unfold backup_path; by rewrite Hp).
  split; [congruence|]. split; [congruence|]. split.
  - intros t' Hne. destruct (Hm1 t' Hne) as (? & ? & ?).
    destruct (Hm2 t' Hne) as (? & ? & ?). repeat split; congruence.
  - intros p Hp1 Hp2. rewrite Hd2, Hd1; try done.
    + by rewrite Hp.
    + intros stamp. by rewrite Hb.
Qed.

(** A state that differs from [s] in table [t] and in its files only. *)
Lemma frame_intro t s s' :
  folder (self s') = folder (self s) →
  extension (self s') = extension (self s) →
  (∀ t', t' ≠ t → tables (self s') !! t' = tables (self s) !! t') →
  (∀ t', t' ≠ t → schemas (self s') !! t' = schemas (self s) !! t') →
  (∀ t', t' ≠ t → _transactions (self s') !! t' = _transactions (self s) !! t') →
  (∀ p, p ≠ file_path s t → (∀ stamp, p ≠ backup_path t stamp s) →
        disk s' !! p = disk s !! p) →
  frame t s s'.
Proof. intros. repeat split; auto. Qed.

Lemma frame_emit_print t s m : frame t s (emit (EPrint m) s).
Proof. by repeat split. Qed.

Lemma frame_emit_write t s c : frame t s (emit (EWrite (file_path s t) c) s).
Proof.
  apply frame_intro; try done. intros p Hp _. simpl.
  by rewrite lookup_insert_ne.
Qed.

Lemma frame_emit_backup t stamp s c :
  frame t s (emit (EWrite (backup_path t stamp s) c) s).
Proof.
  apply frame_intro; try done. intros p _ Hp. simpl.
  rewrite lookup_insert_ne; [done|]. intros Heq. by apply (Hp stamp).
Qed.

Lemma frame_gui_saved t s : frame t s (gui_saved t s).
Proof. apply frame_emit_write. Qed.

Lemma frame_terminal_saved t s : frame t s (terminal_saved t s).
Proof. apply frame_emit_write. Qed.

Lemma frame_upd_tables t s x :
  frame t s (upd_tables (base.insert t x) s).
Proof.
  apply frame_intro; try done. intros t' Hne. simpl.
  by rewrite lookup_insert_ne.
Qed.

Lemma frame_created t sch s : frame t s (created t sch s).
Proof.
  unfold created. destruct (truthy_schema sch);
    apply frame_intro; try done; intros t' Hne; simpl;
    by rewrite lookup_insert_ne.
Qed.

Lemma frame_dropped t s : frame t s (dropped t s).
Proof.
  destruct (dropped_spec t s) as (H1 & H2 & H3 & H4 & H5 & H6 & H7).
  apply frame_intro; try done.
  - intros t' Hne. by rewrite H1, lookup_delete_ne.
  - intros t' Hne. by rewrite H2, lookup_delete_ne.
  - intros t' Hne. by rewrite H3.
  - intros p Hp _. by rewrite H7, lookup_delete_ne.
Qed.

Lemma frame_loaded t sch rows s : frame t s (loaded t sch rows s).
Proof.
  apply frame_intro; try done; intros t' Hne; unfold loaded; simpl;
    by rewrite lookup_insert_ne.
Qed.

Lemma frame_begun t rows s : frame t s (begun t rows s).
Proof.
  unfold begun. destruct (deepcopy_rows ∅ rows (heap s)).
  apply frame_intro; try done. intros t' Hne. simpl.
  by rewrite lookup_insert_ne.
Qed.

Lemma frame_rolled_back t snapshot s : frame t s (rolled_back t snapshot s).
Proof.
  apply frame_intro; try done; intros t' Hne; unfold rolled_back; simpl.
  - by rewrite lookup_insert_ne.
  - by rewrite lookup_delete_ne.
Qed.

Lemma frame_committed t s : frame t s (committed t s).
Proof.
  apply frame_intro; try done. intros t' Hne. unfold committed. simpl.
  by rewrite lookup_delete_ne.
Qed.

Lemma frame_set_heap t h s : frame t s (set_heap h s).
Proof. by repeat split. Qed.

Lemma frame_unregistered t s : frame t s (unregistered t s).
Proof.
  unfold unregistered. simpl.
  destruct (schemas (self s) !! t); apply frame_intro; try done;
    intros t' Hne; simpl; by rewrite lookup_delete_ne.
Qed.

Lemma frame_then_write t s s1 path c :
  frame t s s1 →
  path = file_path s t ∨ (∃ stamp, path = backup_path t stamp s) →
  frame t s (emit (EWrite path c) s1).
Proof.
  intros (Hf & He & Hm & Hd) Hpath. apply frame_intro; try done.
  - intros t' Hne. by apply Hm.
  - intros t' Hne. by apply Hm.
  - intros t' Hne. by apply Hm.
  - intros p Hp Hb. simpl. rewrite lookup_insert_ne; [by apply Hd|].
    intros <-. destruct Hpath as [->|[stamp ->]]; [done|by apply (Hb stamp)].
Qed.

Lemma frame_written_on {A} io t s path (a : A) after before :
  path = file_path s t ∨ (∃ stamp, path = backup_path t stamp s) →
  frame t s after → frame t s before →
  frame t s (snd (written_on io path a after before)).
Proof.
  intros Hpath Ha Hb. unfold written_on. destruct (on_write io path); simpl;
    try done.
  by apply frame_then_write.
Qed.

Lemma frame_saved t s x msg :
  frame t s x →
  frame t s (gui_saved t x) ∧
  frame t s (emit (EPrint msg) (terminal_saved t x)).
Proof.
  intros Hx. split.
  - eapply frame_trans; [exact Hx|apply frame_gui_saved].
  - eapply frame_trans; [exact Hx|].
    eapply frame_trans; [apply frame_terminal_saved|apply frame_emit_print].
Qed.

Lemma gui_run_on_frame io c s :
  fst (gui_run_on io c s) ≠ Unmodelled →
  (∀ t p, c ≠ ExportCsv t p) →
  frame (table_of c) s (snd (gui_run_on io c s)).
Proof.
  destruct c; unfold gui_run_on, returning; munfold; simpl.
  - intros _ _. apply frame_set_heap.
  - rewrite gui_create_table_on_eq.
    destruct (tables (self s) !! t); simpl; intros _ _; [apply frame_refl|].
    match goal with
    | |- frame _ _ (snd (let (_, _) := ?w in _)) =>
        assert (H : frame t s (snd w)); [|by destruct w as [[] ?]]
    end.
    apply frame_written_on; [by left| |apply frame_created].
    apply (frame_saved t s _ (MsgCreated t sch)), frame_created.
  - destruct (Gui.load_table t s) as [[[]| |] s1] eqn:Hl; simpl.
    + apply gui_load_table_ok in Hl as (sch & rows & ->). intros _ _.
      apply frame_loaded.
    + apply gui_load_table_raise in Hl as ->. intros _ _. apply frame_refl.
    + intros H. by destruct H.
  - rewrite gui_drop_table_on_eq.
    destruct (tables (self s) !! t); simpl; [|intros _ _; apply frame_refl].
    destruct (disk s !! file_path s t);
      [destruct (on_remove io (file_path s t))|]; simpl; intros _ _;
      first [apply frame_dropped|apply frame_unregistered].
  - rewrite gui_insert_on_eq.
    destruct (insert_checks t record key_column s); simpl;
      [intros _ _; apply frame_refl|].
    intros _ _.
    match goal with
    | |- frame _ _ (snd (let (_, _) := ?w in _)) =>
        assert (H : frame t s (snd w)); [|by destruct w as [[] ?]]
    end.
    apply frame_written_on; [by left| |apply frame_upd_tables].
    apply (frame_saved t s _ MsgNoData), frame_upd_tables.
  - intros _ _. apply frame_refl.
  - rewrite gui_update_on_eq.
    destruct (tables (self s) !! t); simpl; intros _ _; [|apply frame_refl].
    match goal with
    | |- frame _ _ (snd (let (_, _) := ?w in _)) =>
        assert (H : frame t s (snd w)); [|by destruct w as [[] ?]]
    end.
    apply frame_written_on; [by left| |apply frame_set_heap].
    apply (frame_saved t s _ MsgNoData), frame_set_heap.
  - rewrite gui_delete_on_eq.
    destruct (kwargs_ok conditions); [|intros _ _; apply frame_refl].
    destruct (tables (self s) !! t); simpl; intros _ _; [|apply frame_refl].
    match goal with
    | |- frame _ _ (snd (let (_, _) := ?w in _)) =>
        assert (H : frame t s (snd w)); [|by destruct w as [[] ?]]
    end.
    apply frame_written_on; [by left| |apply frame_upd_tables].
    apply (frame_saved t s _ MsgNoData), frame_upd_tables.
  - rewrite gui_backup_table_on_eq.
    destruct (tables (self s) !! t); simpl; intros _ _; [|apply frame_refl].
    match goal with
    | |- frame _ _ (snd (let (_, _) := ?w in _)) =>
        assert (H : frame t s (snd w)); [|by destruct w as [[] ?]]
    end.
    apply frame_written_on; [right; by eexists| |apply frame_refl].
    apply frame_emit_backup.
  - rewrite gui_begin_transaction_eq.
    destruct (tables (self s) !! t); simpl; intros _ _;
      [apply frame_begun|apply frame_refl].
  - rewrite gui_rollback_eq.
    destruct (_transactions (self s) !! t); simpl; intros _ _;
      [apply frame_rolled_back|apply frame_refl].
  - rewrite gui_commit_on_eq.
    destruct (_transactions (self s) !! t); simpl;
      [|intros _ _; apply frame_refl].
    destruct (tables (self s) !! t); simpl; intros _ _;
      [|apply frame_committed].
    match goal with
    | |- frame _ _ (snd (let (_, _) := ?w in _)) =>
        assert (H : frame t s (snd w)); [|by destruct w as [[] ?]]
    end.
    apply frame_written_on; [by left| |apply frame_committed].
    apply (frame_saved t s _ MsgNoData), frame_committed.
  - intros _ H. by destruct (H t csv_path).
Qed.

Lemma terminal_run_on_frame io c s :
  fst (terminal_run_on io c s) ≠ Unmodelled →
  (∀ t p, c ≠ ExportCsv t p) →
  frame (table_of c) s (snd (terminal_run_on io c s)).
Proof.
  destruct c; unfold terminal_run_on, returning; munfold; simpl.
  - intros _ _. apply frame_set_heap.
  - rewrite terminal_create_table_on_eq.
    destruct (tables (self s) !! t); simpl; intros _ _; [apply frame_refl|].
    match goal with
    | |- frame _ _ (snd (let (_, _) := ?w in _)) =>
        assert (H : frame t s (snd w)); [|by destruct w as [[] ?]]
    end.
    apply frame_written_on; [by left| |apply frame_created].
    apply (frame_saved t s _ (MsgCreated t sch)), frame_created.
  - destruct (Terminal.load_table t s) as [[[]| |] s1] eqn:Hl; simpl.
    + apply terminal_load_table_ok in Hl as (rows & ->). intros _ _.
      eapply frame_trans; [apply frame_set_heap|].
      eapply frame_trans; [apply frame_upd_tables|apply frame_emit_print].
    + apply terminal_load_table_raise in Hl as ->. intros _ _.
      apply frame_refl.
    + intros H. by destruct H.
  - rewrite terminal_drop_table_on_eq.
    destruct (tables (self s) !! t); simpl; [|intros _ _; apply frame_refl].
    destruct (disk s !! file_path s t);
      [destruct (on_remove io (file_path s t))|]; simpl; intros _ _;
      first [apply frame_unregistered
            |eapply frame_trans; [apply frame_dropped|apply frame_emit_print]].
  - rewrite terminal_insert_on_eq.
    destruct (insert_checks t record key_column s); simpl;
      [intros _ _; apply frame_refl|].
    intros _ _.
    match goal with
    | |- frame _ _ (snd (let (_, _) := ?w in _)) =>
        assert (H : frame t s (snd w)); [|by destruct w as [[] ?]]
    end.
    apply frame_written_on; [by left| |apply frame_upd_tables].
    apply (frame_saved t s _ _), frame_upd_tables.
  - rewrite terminal_select_eq. destruct (kwargs_ok conditions);
      [|intros _ _; apply frame_refl].
    destruct (tables (self s) !! t); simpl; intros _ _; apply frame_refl.
  - rewrite terminal_update_on_eq.
    destruct (tables (self s) !! t); simpl; intros _ _; [|apply frame_refl].
    match goal with
    | |- frame _ _ (snd (let (_, _) := ?w in _)) =>
        assert (H : frame t s (snd w)); [|by destruct w as [[] ?]]
    end.
    apply frame_written_on; [by left| |apply frame_set_heap].
    apply (frame_saved t s _ _), frame_set_heap.
  - rewrite terminal_delete_on_eq.
    destruct (kwargs_ok conditions); [|intros _ _; apply frame_refl].
    destruct (tables (self s) !! t); simpl; intros _ _; [|apply frame_refl].
    match goal with
    | |- frame _ _ (snd (let (_, _) := ?w in _)) =>
        assert (H : frame t s (snd w)); [|by destruct w as [[] ?]]
    end.
    apply frame_written_on; [by left| |apply frame_upd_tables].
    apply (frame_saved t s _ _), frame_upd_tables.
  - rewrite terminal_backup_table_on_eq.
    destruct (tables (self s) !! t); simpl; intros _ _; [|apply frame_refl].
    match goal with
    | |- frame _ _ (snd (let (_, _) := ?w in _)) =>
        assert (H : frame t s (snd w)); [|by destruct w as [[] ?]]
    end.
    apply frame_written_on; [right; by eexists| |apply frame_refl].
    eapply frame_trans; [apply frame_emit_backup|apply frame_emit_print].
  - rewrite terminal_begin_transaction_eq.
    destruct (tables (self s) !! t); simpl; intros _ _; [|apply frame_refl].
    eapply frame_trans; [apply frame_begun|apply frame_emit_print].
  - rewrite terminal_rollback_eq.
    destruct (_transactions (self s) !! t); simpl; intros _ _;
      [|apply frame_emit_print].
    eapply frame_trans; [apply frame_rolled_back|apply frame_emit_print].
  - rewrite terminal_commit_on_eq.
    destruct (_transactions (self s) !! t); simpl;
      [|intros _ _; apply frame_emit_print].
    destruct (tables (self s) !! t); simpl; intros _ _.
    + match goal with
      | |- frame _ _ (snd (let (_, _) := ?w in _)) =>
          assert (H : frame t s (snd w)); [|by destruct w as [[] ?]]
      end.
      apply frame_written_on; [by left| |apply frame_committed].
      apply (frame_saved t s _ _), frame_committed.
    + destruct (on_write io (file_path s t)); simpl;
        first [apply frame_committed
              |apply frame_then_write; [apply frame_committed|by left]].
  - intros _ H. by destruct (H t csv_path).
Qed.

(** The records of the other tables. *)

Lemma kept_intro t protected s s' ext :
  apart t protected s →
  heap s' = heap s ++ ext →
  (∀ l, l ∈ protected → l ∉ default [] (tables (self s') !! t)) →
  (∀ l, l ∈ protected → l ∉ default [] (_transactions (self s') !! t)) →
  kept t protected s s'.
Proof.
  intros (Hlive & _ & _) Hh Ht Htx. split; [split; [|done]|].
  - rewrite Hh. eapply Forall_impl; [exact Hlive|].
    intros l Hl. rewrite length_app. simpl in *. lia.
  - intros l Hl. rewrite Hh. apply deref_app_l.
    rewrite Forall_forall in Hlive. by apply Hlive.
Qed.

Lemma kept_refl t protected s : apart t protected s → kept t protected s s.
Proof.
  intros H. apply (kept_intro t protected s s []); try done.
  - by rewrite app_nil_r.
  - apply H.
  - apply H.
Qed.

Lemma kept_trans t protected s1 s2 s3 :
  kept t protected s1 s2 → kept t protected s2 s3 → kept t protected s1 s3.
Proof.
  intros [_ H12] [Ha H23]. split; [done|].
  intros l Hl. by rewrite H23, H12.
Qed.

Lemma kept_mem t protected s s1 s2 :
  self s2 = self s1 → heap s2 = heap s1 →
  kept t protected s s1 → kept t protected s s2.
Proof.
  intros Hs Hh [(H1 & H2 & H3) H4]. unfold kept, apart.
  rewrite Hs, Hh. done.
Qed.

Lemma kept_written_on {A} io t protected s path (a : A) after before :
  self after = self before → heap after = heap before →
  kept t protected s before →
  kept t protected s (snd (written_on io path a after before)).
Proof.
  intros Hs Hh Hb. unfold written_on. destruct (on_write io path); simpl.
  - by apply (kept_mem t protected s before).
  - done.
  - by apply (kept_mem t protected s before).
Qed.

Lemma kept_updated t protected cs us rows s :
  apart t protected s →
  tables (self s) !! t = Some rows →
  kept t protected s (updated t cs us rows s).
Proof.
  intros (Hlive & Ht & Htx) Hrows. split; [split; [|done]|].
  - unfold updated. simpl. by rewrite update_rows_length.
  - intros l Hl. unfold updated. simpl. apply update_rows_frame.
    specialize (Ht l Hl). by rewrite Hrows in Ht.
Qed.

Lemma deepcopy_rows_fresh n ls :
  ∀ (memo : gmap nat nat) (h : list (list (string * value))),
    (n ≤ length h)%nat →
    (∀ l l', memo !! l = Some l' → (n ≤ l')%nat) →
    ∃ ext,
      snd (deepcopy_rows memo ls h) = h ++ ext ∧
      Forall (fun l' => (n ≤ l')%nat) (fst (deepcopy_rows memo ls h)).
Proof.
  induction ls as [|l ls IH]; intros memo h Hn Hmemo; simpl.
  - exists []. by rewrite app_nil_r.
  - destruct (memo !! l) as [l'|] eqn:Hl.
    + destruct (IH memo h Hn Hmemo) as (ext & He & Hf).
      destruct (deepcopy_rows memo ls h) as [r h']. simpl in *.
      exists ext. split; [done|]. constructor; [by apply (Hmemo l)|done].
    + destruct (IH (<[l := length h]> memo) (h ++ [deref h l]))
        as (ext & He & Hf).
      * rewrite length_app. lia.
      * intros l1 l1' Hl1. destruct (decide (l1 = l)) as [->|Hne].
        -- rewrite lookup_insert_eq in Hl1. injection Hl1 as <-. done.
        -- rewrite lookup_insert_ne in Hl1 by done. by apply (Hmemo l1).
      * destruct (deepcopy_rows (<[l := length h]> memo) ls
                    (h ++ [deref h l])) as [r h']. simpl in *.
        exists ([deref h l] ++ ext). rewrite app_assoc. split; [done|].
        by constructor.
Qed.

Lemma kept_begun t protected rows s :
  apart t protected s → kept t protected s (begun t rows s).
Proof.
  intros Ha.
  destruct (deepcopy_rows_fresh (length (heap s)) rows ∅ (heap s))
    as (ext & He & Hf); [done|by intros l l'; rewrite lookup_empty|].
  unfold begun. destruct (deepcopy_rows ∅ rows (heap s)) as [snapshot h'].
  simpl in He, Hf. apply (kept_intro t protected s _ ext); try done.
  - apply Ha.
  - intros l Hl. simpl. rewrite lookup_insert_eq. simpl. intros Hin.
    rewrite Forall_forall in Hf. specialize (Hf l Hin).
    destruct Ha as (Hlive & _). rewrite Forall_forall in Hlive.
    specialize (Hlive l Hl). lia.
Qed.

Lemma kept_created t protected sch s :
  apart t protected s → kept t protected s (created t sch s).
Proof.
  intros Ha. apply (kept_intro t protected s _ []).
  - done.
  - unfold created. destruct (truthy_schema sch); simpl; by rewrite app_nil_r.
  - intros l _. rewrite created_live. simpl. apply not_elem_of_nil.
  - unfold created. destruct (truthy_schema sch); apply Ha.
Qed.

Lemma kept_unregistered t protected s :
  apart t protected s → kept t protected s (unregistered t s).
Proof.
  intros Ha. apply (kept_intro t protected s _ []).
  - done.
  - unfold unregistered. simpl.
    destruct (schemas (self s) !! t); simpl; by rewrite app_nil_r.
  - intros l _. unfold unregistered. simpl.
    destruct (schemas (self s) !! t); simpl; rewrite lookup_delete_eq;
      apply not_elem_of_nil.
  - unfold unregistered. simpl.
    destruct (schemas (self s) !! t); apply Ha.
Qed.

Lemma kept_dropped t protected s :
  apart t protected s → kept t protected s (dropped t s).
Proof.
  intros Ha. destruct (dropped_spec t s) as (H1 & _ & H3 & H4 & _).
  apply (kept_intro t protected s _ []).
  - done.
  - by rewrite H4, app_nil_r.
  - intros l _. rewrite H1, lookup_delete_eq. apply not_elem_of_nil.
  - rewrite H3. apply Ha.
Qed.

Lemma kept_tables t protected rows s :
  apart t protected s →
  (∀ l, l ∈ protected → l ∉ rows) →
  kept t protected s (upd_tables (base.insert t rows) s).
Proof.
  intros Ha Hrows. apply (kept_intro t protected s _ []).
  - done.
  - simpl. by rewrite app_nil_r.
  - intros l Hl. simpl. rewrite lookup_insert_eq. by apply Hrows.
  - apply Ha.
Qed.

Lemma kept_loaded t protected sch rows s :
  apart t protected s → kept t protected s (loaded t sch rows s).
Proof.
  intros Ha. apply (kept_intro t protected s _ rows).
  - done.
  - done.
  - intros l Hl. unfold loaded. simpl. rewrite lookup_insert_eq. simpl.
    rewrite elem_of_seq. destruct Ha as (Hlive & _).
    rewrite Forall_forall in Hlive. specialize (Hlive l Hl). lia.
  - apply Ha.
Qed.

Lemma kept_rolled_back t protected snapshot s :
  apart t protected s →
  _transactions (self s) !! t = Some snapshot →
  kept t protected s (rolled_back t snapshot s).
Proof.
  intros Ha Htx. apply (kept_intro t protected s _ []).
  - done.
  - simpl. by rewrite app_nil_r.
  - intros l Hl. simpl. rewrite lookup_insert_eq. simpl.
    destruct Ha as (_ & _ & H). specialize (H l Hl). by rewrite Htx in H.
  - intros l _. simpl. rewrite lookup_delete_eq. apply not_elem_of_nil.
Qed.

Lemma kept_committed t protected s :
  apart t protected s → kept t protected s (committed t s).
Proof.
  intros Ha. apply (kept_intro t protected s _ []).
  - done.
  - simpl. by rewrite app_nil_r.
  - apply Ha.
  - intros l _. simpl. rewrite lookup_delete_eq. apply not_elem_of_nil.
Qed.

Lemma gui_run_on_modelled io c s :
  common c = true → fst (gui_run_on io c s) ≠ Unmodelled.
Proof.
  intros Hc.
  destruct c; try done; unfold gui_run_on, returning; munfold;
    apply returning_modelled;
    rewrite ?gui_create_table_on_eq, ?gui_drop_table_on_eq,
      ?gui_insert_on_eq, ?gui_update_on_eq, ?gui_delete_on_eq,
      ?gui_backup_table_on_eq, ?gui_begin_transaction_eq,
      ?gui_rollback_eq, ?gui_commit_on_eq, ?gui_export_csv_on_eq,
      ?gui_export_csv_eq;
    unfold written_on; repeat case_match; simpl; discriminate.
Qed.

Lemma gui_run_on_kept io t protected c s :
  on_table t c → inserts_outside protected c →
  fst (gui_run_on io c s) ≠ Unmodelled →
  apart t protected s →
  kept t protected s (snd (gui_run_on io c s)).
Proof.
  intros Hc Hins Hm Ha. revert Hm.
  destruct c; simpl in Hc; try done; try subst t;
    unfold gui_run_on, returning; munfold; rewrite ?returning_snd.
  - (* building a record *)
    intros _. apply (kept_intro t protected s _ [r]); try done; apply Ha.
  - (* create_table *)
    rewrite gui_create_table_on_eq. intros _.
    destruct (tables (self s) !! t0); [by apply kept_refl|].
    apply kept_written_on; [done|done|by apply kept_created].
  - (* load_table *)
    destruct (Gui.load_table t0 s) as [[[]| |] s1] eqn:Hl; simpl.
    + apply gui_load_table_ok in Hl as (sch & rows & ->). intros _.
      by apply kept_loaded.
    + apply gui_load_table_raise in Hl as ->. intros _. by apply kept_refl.
    + intros H. by destruct H.
  - (* drop_table *)
    rewrite gui_drop_table_on_eq. intros _.
    destruct (tables (self s) !! t0); [|by apply kept_refl].
    destruct (disk s !! file_path s t0);
      [destruct (on_remove io (file_path s t0))|]; simpl;
      first [by apply kept_dropped|by apply kept_unregistered].
  - (* insert *)
    rewrite gui_insert_on_eq. intros _.
    destruct (insert_checks t0 record key_column s) as [e|rows] eqn:Hck;
      [by apply kept_refl|].
    apply insert_checks_rows in Hck.
    apply kept_written_on; [done|done|]. apply kept_tables; [done|].
    intros l Hl. rewrite elem_of_app, list_elem_of_singleton.
    intros [Hin| ->]; [|by apply Hins].
    destruct Ha as (_ & Ht & _). specialize (Ht l Hl).
    by rewrite Hck in Ht.
  - (* update *)
    rewrite gui_update_on_eq. intros _.
    destruct (tables (self s) !! t0) as [rows|] eqn:Ht; [|by apply kept_refl].
    apply kept_written_on; [done|done|by apply kept_updated].
  - (* delete *)
    rewrite gui_delete_on_eq. intros _.
    destruct (kwargs_ok conditions); [|by apply kept_refl].
    destruct (tables (self s) !! t0) as [rows|] eqn:Ht; [|by apply kept_refl].
    apply kept_written_on; [done|done|]. apply kept_tables; [done|].
    intros l Hl Hin. unfold delete_rows in Hin.
    apply list_elem_of_In, filter_In in Hin as [Hin _].
    apply list_elem_of_In in Hin.
    destruct Ha as (_ & Hrows & _). specialize (Hrows l Hl).
    by rewrite Ht in Hrows.
  - (* backup_table *)
    rewrite gui_backup_table_on_eq. intros _.
    destruct (tables (self s) !! t0); [|by apply kept_refl].
    apply kept_written_on; [done|done|by apply kept_refl].
  - (* begin_transaction *)
    rewrite gui_begin_transaction_eq. intros _.
    destruct (tables (self s) !! t0); [by apply kept_begun|by apply kept_refl].
  - (* rollback *)
    rewrite gui_rollback_eq. intros _.
    destruct (_transactions (self s) !! t0) eqn:Htx;
      [by apply kept_rolled_back|by apply kept_refl].
  - (* commit *)
    rewrite gui_commit_on_eq. intros _.
    destruct (_transactions (self s) !! t0); [|by apply kept_refl].
    destruct (tables (self s) !! t0); [|by apply kept_committed].
    apply kept_written_on; [done|done|by apply kept_committed].
Qed.

Lemma terminal_run_on_kept io t protected c s :
  on_table t c → inserts_outside protected c →
  fst (terminal_run_on io c s) ≠ Unmodelled →
  apart t protected s →
  kept t protected s (snd (terminal_run_on io c s)).
Proof.
  intros Hc Hins Hm Ha.
  destruct (common c) eqn:Hcommon.
  - destruct (run_on_memory_agrees io c s s Hcommon eq_refl eq_refl)
      as [Hs Hh].
    apply (kept_mem t protected s (snd (gui_run_on io c s))); [done|done|].
    apply gui_run_on_kept; try done. by apply gui_run_on_modelled.
  - revert Hm. destruct c; try done; simpl in Hc; try subst t;
      unfold terminal_run_on, returning; munfold; rewrite ?returning_snd.
    + destruct (Terminal.load_table t0 s) as [[[]| |] s1] eqn:Hl; simpl.
      * apply terminal_load_table_ok in Hl as (rows & ->). intros _.
        apply (kept_intro t0 protected s _ rows); try done; [|apply Ha].
        intros l Hl. simpl. rewrite lookup_insert_eq. simpl.
        rewrite elem_of_seq. destruct Ha as (Hlive & _).
        rewrite Forall_forall in Hlive. specialize (Hlive l Hl). lia.
      * apply terminal_load_table_raise in Hl as ->. intros _.
        by apply kept_refl.
      * intros H. by destruct H.
    + rewrite terminal_select_eq. intros _.
      destruct (kwargs_ok conditions); [|by apply kept_refl].
      destruct (tables (self s) !! t0); by apply kept_refl.
Qed.

(** X25. In both editions and on any host the calls made on one table
    ([export_csv] apart, which writes the path it is given) leave the
    other tables alone.  After any session of calls on table [t]
    (succeeding or raising, calls on files outside the model apart),
    every other table has the row list, the schema and the pending
    snapshot it had, and the disk holds what it held under every path
    string other than the path of the file of [t] and of its backups
    (two spellings of one file are not told apart).  Records keep their
    content too, provided they are live objects that are at the start
    neither rows of [t] nor records of its pending snapshot, and that the
    client inserts none of them into [t]; so the rows of another table
    that shares no record with [t] read as before. *)
Theorem other_tables_untouched (io : host) (run : call → M retval)
    (t : string) (cs : list call) (s : state) (protected : list nat) :
  run = gui_run_on io ∨ run = terminal_run_on io →
  Forall (on_table t) cs →
  modelled run cs s →
  frame t s (session run cs s) ∧
  (apart t protected s →
   Forall (inserts_outside protected) cs →
   kept t protected s (session run cs s) ∧
   ∀ t' rows, t' ≠ t → tables (self s) !! t' = Some rows →
              (∀ l, l ∈ rows → l ∈ protected) →
              tables (self (session run cs s)) !! t' = Some rows ∧
              view (heap (session run cs s)) rows = view (heap s) rows).
Proof.
  intros Hrun Hcs Hm.
  assert (Hframe : frame t s (session run cs s)).
  { revert s Hm.
    induction Hcs as [|c cs Hc Hcs IH]; intros s Hm; [apply frame_refl|].
    destruct Hm as [Hok Hm].
    change (session run (c :: cs) s) with (session run cs (snd (run c s))).
    eapply frame_trans; [|by apply IH].
    assert (Hstep : frame (table_of c) s (snd (run c s))).
    { destruct Hrun as [-> | ->];
        [apply gui_run_on_frame|apply terminal_run_on_frame]; try done;
        intros t' p ->; done. }
    destruct c; simpl in Hc; try done; try (by rewrite <- Hc).
    destruct Hrun as [-> | ->]; apply frame_set_heap. }
  split; [done|]. intros Ha Hins.
  assert (Hkept : kept t protected s (session run cs s)).
  { clear Hframe. revert s Hm Ha.
    induction Hcs as [|c cs Hc Hcs IH]; intros s Hm Ha;
      [by apply kept_refl|].
    destruct Hm as [Hok Hm]. apply Forall_cons in Hins as [Hi Hins].
    change (session run (c :: cs) s) with (session run cs (snd (run c s))).
    assert (Hstep : kept t protected s (snd (run c s))).
    { destruct Hrun as [-> | ->];
        [by apply gui_run_on_kept|by apply terminal_run_on_kept]. }
    eapply kept_trans; [exact Hstep|]. apply IH; try done. apply Hstep. }
  split; [done|]. intros t' rows Hne Ht' Hrows.
  destruct Hframe as (_ & _ & Hreg & _).
  destruct (Hreg t' Hne) as (-> & _). split; [done|].
  unfold view. apply map_ext_in. intros l Hl. apply Hkept, Hrows.
  by apply list_elem_of_In.
Qed.

Lemma other_tables_untouched_witness :
  let s := mkState (mkMDB "data" ".mdb" {[ "t" := [0; 1]%nat; "u" := [2%nat] ]}
                      ∅ ∅)
             [[("id", VInt 1)]; [("id", VInt 2)]; [("id", VInt 1)];
              []; [("id", VInt 5)]]
             {[ "data/u.mdb" := Json (JArr []) ]} [] in
  let g := session gui_run [Update "t" 3%nat 4%nat; DropTable "t"] s in
  tables (self g) !! "u" = Some [2%nat] ∧
  view (heap g) [2%nat] = [[("id", VInt 1)]] ∧
  disk g !! "data/u.mdb" = Some (Json (JArr [])).
Proof.
  intros s g.
  destruct (other_tables_untouched reliable (gui_run_on reliable) "t"
              [Update "t" 3%nat 4%nat; DropTable "t"] s [2%nat]
              (or_introl eq_refl)) as [Hframe Hkept].
  - repeat constructor.
  - vm_compute. repeat split; discriminate.
  - destruct Hkept as [_ Hu].
    + split; [repeat constructor; simpl; lia|].
      split; intros l Hl%list_elem_of_singleton; subst l;
        refine (bool_decide_unpack (not _) _); vm_compute; exact I.
    + repeat constructor.
    + destruct (Hu "u" [2%nat]) as [H1 H2]; [discriminate|reflexivity|done|].
      split; [exact H1|]. split; [exact H2|].
      destruct Hframe as (_ & _ & _ & Hd).
      rewrite Hd; [done| |]; intros; vm_compute; discriminate.
Defined.

(* ===================================================================== *)
(** ** What the terminal edition writes and prints *)
(* ===================================================================== *)

Lemma terminal_load_table_out t s :
  out (snd (Terminal.load_table t s)) = out s ∨
  (fst (Terminal.load_table t s) = Ok tt ∧
   out (snd (Terminal.load_table t s)) = out s ++ [EPrint (MsgLoaded t)]).
Proof.
  unfold Terminal.load_table, Terminal._path, Terminal.print, rows_of. munfold.
  destruct (disk s !! file_path s t) as [[|data| |fieldnames lines|]|] eqn:Hd; simpl;
    rewrite ?Hd; simpl; try (by left).
  destruct data; simpl; try (by left).
  destruct (load_rows items) as [rows|]; simpl; [|by left].
  rewrite alloc_rows_spec. simpl. by right.
Qed.

Lemma dropped_out t s :
  ∃ pre, out (dropped t s) = out s ++ pre ∧ prints pre = [].
Proof.
  unfold dropped. simpl.
  destruct (schemas (self s) !! t); simpl;
    match goal with
    | |- context [disk ?x !! ?p] => destruct (disk x !! p)
    end; simpl;
    first [by exists [ERemove (file_path s t)]
          |exists []; by rewrite app_nil_r].
Qed.

Ltac trace_nothing :=
  exists []; rewrite app_nil_r; repeat split; try done; try (by left).

Ltac trace_write_fails Hw :=
  eexists; split; [simpl; reflexivity|];
  split; [intros ? [= <-]; split; [done|];
          right; left; split; [done|]; eexists; split; [exact Hw|by left]|];
  by split.

Ltac trace_written :=
  eexists; rewrite <- ?app_assoc; split; [reflexivity|];
  split; [done|]; split; [done|]; intros ? _ _;
  eexists _, _; split; [reflexivity|]; by split.

(** X26. What the terminal edition prints and writes, on any host.  It
    prints one line, as its last action, for every call that returns
    normally ([select] prints nothing), and prints nothing when a call
    raises.  A successful [create_table], [insert], [update] or [delete]
    makes, before its line, exactly one write: the bare list of the
    table's rows as they are after the call, to the table's file.  A call
    that raises has written nothing, with three exceptions: a write that
    fails once the file is open leaves the file truncated; a [commit] of
    a table that is not live leaves the table's file empty; and an
    [export_csv] that refuses a row leaves the lines before that row. *)
Theorem terminal_trace (io : host) (c : call) (s : state) :
  let m := snd (terminal_run_on io c s) in
  ∃ evs,
    out m = out s ++ evs ∧
    (∀ e, fst (terminal_run_on io c s) = Raise e →
          prints evs = [] ∧ raise_trace io c s e evs) ∧
    (∀ v, fst (terminal_run_on io c s) = Ok v → is_silent c = true →
          evs = []) ∧
    (∀ v, fst (terminal_run_on io c s) = Ok v → is_silent c = false →
          ∃ pre msg,
            evs = pre ++ [EPrint msg] ∧ prints pre = [] ∧
            (persists c = true →
             pre = [EWrite (file_path m (table_of c))
                      (Json (dump_rows
                               (view (heap m)
                                  (default [] (tables (self m)
                                                 !! table_of c)))))])).
Proof.
  destruct c; unfold terminal_run_on, returning; munfold; simpl.
  - trace_nothing.
  - rewrite terminal_create_table_on_eq.
    destruct (tables (self s) !! t); simpl; [trace_nothing|].
    assert (Hout : out (created t sch s) = out s)
      by (unfold created; by destruct (truthy_schema sch)).
    unfold written_on. destruct (on_write io (file_path s t)) eqn:Hw; simpl.
    + eexists. rewrite <- app_assoc, Hout. split; [reflexivity|].
      split; [done|]. split; [done|]. intros v _ _.
      eexists _, _. split; [reflexivity|]. by split.
    + rewrite Hout. trace_nothing.
    + rewrite Hout. trace_write_fails Hw.
  - destruct (terminal_load_table_out t s) as [Ho|[Hok Ho]].
    + destruct (Terminal.load_table t s) as [[[]| |] s1] eqn:Hl; simpl in *.
      * apply terminal_load_table_ok in Hl as (rows & ->). simpl in Ho.
        apply (f_equal length) in Ho. rewrite length_app in Ho.
        simpl in Ho. lia.
      * exists []. rewrite app_nil_r. repeat split; try done; try (by left).
      * exists []. rewrite app_nil_r. repeat split; try done.
    + destruct (Terminal.load_table t s) as [[[]| |] s1] eqn:Hl;
        simpl in *; try discriminate.
      exists [EPrint (MsgLoaded t)]. split; [done|].
      split; [done|]. split; [done|]. intros v _ _.
      exists [], (MsgLoaded t). by repeat split.
  - rewrite terminal_drop_table_on_eq.
    destruct (tables (self s) !! t); simpl; [|trace_nothing].
    assert (Hd : ∃ pre, out (dropped t s) = out s ++ pre ∧ prints pre = [])
      by apply dropped_out.
    destruct Hd as (pre & Hout & Hpre).
    assert (Hu : out (unregistered t s) = out s)
      by (unfold unregistered; simpl; by destruct (schemas (self s) !! t)).
    destruct (disk s !! file_path s t);
      [destruct (on_remove io (file_path s t))|]; simpl.
    + exists (pre ++ [EPrint (MsgDropped t)]).
      rewrite Hout, <- app_assoc. split; [done|].
      split; [done|]. split; [done|]. intros v _ _.
      exists pre, (MsgDropped t). by repeat split.
    + rewrite Hu. trace_nothing.
    + exists (pre ++ [EPrint (MsgDropped t)]).
      rewrite Hout, <- app_assoc. split; [done|].
      split; [done|]. split; [done|]. intros v _ _.
      exists pre, (MsgDropped t). by repeat split.
  - rewrite terminal_insert_on_eq.
    destruct (insert_checks t record key_column s); simpl; [trace_nothing|].
    unfold written_on. destruct (on_write io (file_path s t)) eqn:Hw; simpl;
      [trace_written|trace_nothing|trace_write_fails Hw].
  - rewrite terminal_select_eq.
    destruct (kwargs_ok conditions); [|trace_nothing].
    destruct (tables (self s) !! t); simpl; trace_nothing.
  - rewrite terminal_update_on_eq.
    destruct (tables (self s) !! t); simpl; [|trace_nothing].
    unfold written_on. destruct (on_write io (file_path s t)) eqn:Hw; simpl;
      [trace_written|trace_nothing|trace_write_fails Hw].
  - rewrite terminal_delete_on_eq.
    destruct (kwargs_ok conditions); [|trace_nothing].
    destruct (tables (self s) !! t); simpl; [|trace_nothing].
    unfold written_on. destruct (on_write io (file_path s t)) eqn:Hw; simpl;
      [trace_written|trace_nothing|trace_write_fails Hw].
  - rewrite terminal_backup_table_on_eq.
    destruct (tables (self s) !! t); simpl; [|trace_nothing].
    unfold written_on.
    destruct (on_write io (backup_path t stamp s)) eqn:Hw; simpl;
      [trace_written|trace_nothing|trace_write_fails Hw].
  - rewrite terminal_begin_transaction_eq.
    destruct (tables (self s) !! t) as [rows|]; simpl; [|trace_nothing].
    unfold begun. destruct (deepcopy_rows ∅ rows (heap s)). simpl.
    eexists. split; [reflexivity|].
    split; [done|]. split; [done|]. intros v _ _.
    exists [], (MsgTxStarted t). by repeat split.
  - rewrite terminal_rollback_eq.
    destruct (_transactions (self s) !! t); simpl;
      (eexists; split; [reflexivity|]);
      (split; [done|]); (split; [done|]); intros v _ _;
      eexists [], _; by repeat split.
  - rewrite terminal_commit_on_eq.
    destruct (_transactions (self s) !! t); simpl.
    + destruct (tables (self s) !! t); simpl.
      * unfold written_on.
        destruct (on_write io (file_path s t)) eqn:Hw; simpl;
          [trace_written|trace_nothing|trace_write_fails Hw].
      * destruct (on_write io (file_path s t)) eqn:Hw; simpl.
        -- eexists. split; [reflexivity|].
           split; [|by split]. intros e [= <-]. split; [done|].
           right. right. left. by exists t.
        -- trace_nothing.
        -- eexists. split; [reflexivity|].
           split; [|by split]. intros e [= <-]. split; [done|].
           right. right. left. by exists t.
    + eexists. split; [reflexivity|].
      split; [done|]. split; [done|]. intros v _ _.
      eexists [], _. by repeat split.
  - rewrite terminal_export_csv_on_eq.
    destruct (tables (self s) !! t) as [[|first rows]|] eqn:Ht; simpl;
      [|
       |trace_nothing].
    + eexists. split; [reflexivity|].
      split; [done|]. split; [done|]. intros v _ _.
      eexists [], _. by repeat split.
    + destruct (on_write io csv_path) eqn:Hw; simpl.
      * rewrite terminal_export_csv_eq, Ht.
        destruct (export_complete (first :: rows) s) eqn:Hcomplete; simpl.
        -- eexists. rewrite <- app_assoc. split; [reflexivity|].
           split; [done|]. split; [done|]. intros v _ _.
           eexists _, _. split; [reflexivity|]. by split.
        -- eexists. split; [reflexivity|].
           split; [|by split]. intros e [= <-]. split; [done|].
           right. right. right. by eexists t, csv_path, _, _.
      * trace_nothing.
      * eexists. split; [simpl; reflexivity|].
        split; [|by split]. intros e [= <-]. split; [done|].
        right. left. split; [done|]. exists csv_path. split; [done|by right].
Qed.

Lemma terminal_trace_witness :
  let full := mkHost (fun _ => WriteFails) (fun _ => true) in
  out (snd (terminal_run_on full (Insert "t" 2%nat None) two_rows_state)) = []
  ∨ ∃ evs,
      out (snd (terminal_run_on full (Insert "t" 2%nat None) two_rows_state))
      = evs ∧ prints evs = [].
Proof.
  intros full.
  destruct (terminal_trace full (Insert "t" 2%nat None) two_rows_state)
    as (evs & Hout & Hraise & _).
  right. exists evs. split; [exact Hout|].
  exact (proj1 (Hraise IOFailure eq_refl)).
Defined.
